(** * The speakeasy Slack command: a shallow embedding of the lambdas

    The repository holds three programs:
    - [functions/apigproxy/index.js], the synchronous front door that hands
      the parsed Slack payload to the speakeasy lambda;
    - [functions/speakeasy/index.js], the command pipeline.  The file carries
      two revisions of the pipeline: the pass-based one (sliding rate limit,
      [checkout], compound door key, results posted to [response_url]) and an
      earlier one (single cooldown slot, result returned synchronously);
    - small express stubs, which no property below concerns.

    The JavaScript is callback-driven.  It is embedded here as values of an
    inductive type [Act] of actions in continuation-passing style, and run by
    an explicit event loop: a virtual clock, a queue of pending callbacks
    ordered by due time, the DynamoDB tables, and a timestamped trace of the
    effects the process performed. *)

From Stdlib Require Import ZArith String Ascii List Lia.
From stdpp Require Import base option list gmap strings fin_maps.

Local Open Scope string_scope.
Local Open Scope Z_scope.
Local Open Scope list_scope.

(** ** JavaScript primitives *)

Module JS.

(** The line feed written [\n] in the source. *)
Definition nl : string := String (ascii_of_nat 10) EmptyString.

(** [s.split(sep)] for a one-character separator: never the empty list,
    empty fields are kept. *)
Fixpoint split (sep : ascii) (s : string) : list string :=
  match s with
  | EmptyString => [EmptyString]
  | String c rest =>
      if Ascii.eqb c sep then EmptyString :: split sep rest
      else match split sep rest with
           | [] => [String c EmptyString]
           | w :: ws => String c w :: ws
           end
  end.

Definition lower (c : ascii) : ascii :=
  let n := nat_of_ascii c in
  if ((65 <=? n)%nat && (n <=? 90)%nat)%bool then ascii_of_nat (n + 32) else c.

(** [s.toLowerCase()] on the ASCII range, which is where the door keys
    live. *)
Fixpoint toLowerCase (s : string) : string :=
  match s with
  | EmptyString => EmptyString
  | String c rest => String (lower c) (toLowerCase rest)
  end.

(** Template interpolation of a possibly undefined string. *)
Definition interp (v : option string) : string :=
  match v with Some s => s | None => "undefined" end.

(** Decimal rendering of a number inside a template string. *)
Fixpoint digits (fuel : nat) (n : N) (acc : string) : string :=
  match fuel with
  | O => acc
  | S f =>
      let d := String (ascii_of_N (48 + N.modulo n 10)) acc in
      if N.eqb (N.div n 10) 0 then d else digits f (N.div n 10) d
  end.

Definition showZ (z : Z) : string :=
  if z <? 0 then "-" +:+ digits 64 (Z.to_N (- z)) "" else digits 64 (Z.to_N z) "".

End JS.

(** ** Data model *)

(** One login of the credential pool. *)
Record Credential := { username : string; password : string }.

(** The [value] attribute of a settings item. *)
Inductive Value :=
| Str (s : string)
| Creds (l : list Credential).

(** One recorded attempt: the instant (milliseconds since the epoch, the
    instant the stored ISO-8601 string denotes) and the operation. *)
Record Attempt := { at_ : Z; op : string }.

(** The [speakeasy] sub-document of a user record.  [enabled] and
    [disableRateLimiting] are read for their truthiness only; [attempts],
    [expires] and [lastAccess] may be absent. *)
Record Speakeasy := {
  enabled : bool;
  disableRateLimiting : bool;
  attempts : option (list Attempt);
  expires : option Z;
  lastAccess : option Z;
}.

(** What a table stores under a key. *)
Record Doc := { doc_value : option Value; doc_speakeasy : option Speakeasy }.

(** [unmarshalItem(item.Item)]: the document with its key attribute. *)
Record Item := { id : string; value : option Value; speakeasy : option Speakeasy }.

Inductive Table := SlackSpeakeasyData | TFoSlackUsers.

Definition Store : Type := Table -> gmap string Doc.

Definition unmarshalItem (key : string) (d : Doc) : Item :=
  {| id := key; value := doc_value d; speakeasy := doc_speakeasy d |}.

(** The [set #s.#x = :v] update expressions of the source. *)
Inductive Update :=
| SetAttempts (p : list Attempt)
| SetExpires (s : Z)
| SetLastAccess (s : Z).

Definition apply_update (u : Update) (sp : Speakeasy) : Speakeasy :=
  match u with
  | SetAttempts p =>
      {| enabled := enabled sp; disableRateLimiting := disableRateLimiting sp;
         attempts := Some p; expires := expires sp; lastAccess := lastAccess sp |}
  | SetExpires s =>
      {| enabled := enabled sp; disableRateLimiting := disableRateLimiting sp;
         attempts := attempts sp; expires := Some s; lastAccess := lastAccess sp |}
  | SetLastAccess s =>
      {| enabled := enabled sp; disableRateLimiting := disableRateLimiting sp;
         attempts := attempts sp; expires := expires sp; lastAccess := Some s |}
  end.

(** The headers built by [Login]. *)
Record Headers := { x_login_secret : option string }.

Inductive HttpRequest :=
| SignIn (email password : option string)
| Peek (code : string) (headers : option Headers)
| Unlock (code : string) (headers : option Headers)
| SlackPost (url : string) (text : option string).

(** A parsed JSON reply of the lock API. *)
Record Json := { message : option string; secret : option string }.

(** What [request] hands to its callback: a transport error, or a body;
    [Answer None] is a body on which [JSON.parse] throws. *)
Inductive HttpResponse :=
| NetErr (err : string)
| Answer (json : option Json).

(** What a DynamoDB call hands to its callback. *)
Inductive Reply (A : Type) :=
| Failed (err : string)
| Returned (data : A).
Arguments Failed {A} err.
Arguments Returned {A} data.

(** ** The Slack payload *)

(** The form fields Slack posts; [token] may be missing. *)
Record Payload := {
  text : string;
  command : string;
  token : option string;
  user_id : string;
  response_url : string;
}.

(** The event the speakeasy lambda receives from the proxy. *)
Record Event := { body : option Payload }.

(** Effects visible outside the process. *)
Inductive Effect :=
| DbGet (t : Table) (key : string)
| DbUpdate (key : string) (u : Update)
| DbScan
| Http (r : HttpRequest)
| LambdaInvoke (FunctionName : string) (payload : Event)
| ContextSucceed (statusCode : Z) (body : option string)
| Uncaught (e : string).

(** ** Actions and the event loop *)

(** The bookkeeping [async.map] and [async.eachOf] keep in their closures. *)
Record Local := {
  results : list (option string);
  completed : nat;
  fired : bool;
}.

Inductive Act : Type :=
| Return
| Throw (e : string)
| Seq (a b : Act)
| ConsoleError (k : Act)
| Moment (k : Z -> Act)
| MomentFrom (t now : Z) (k : string -> Act)
| FloorRandomTimes (n : nat) (k : nat -> Act)
| ReadLocal (k : Local -> Act)
| WriteLocal (l : Local) (k : Act)
| GetItem (TableName : Table) (Key : string) (cb : Reply (option Item) -> Act)
| UpdateItem (Key : string) (u : Update) (cb : Reply unit -> Act)
| Scan (cb : Reply (list Item) -> Act)
| Request (r : HttpRequest) (cb : HttpResponse -> Act)
| SetTimeout (ms : Z) (cb : Act)
| Invoke (FunctionName : string) (payload : Event) (cb : option string -> Act)
| ContextSucceedWith (statusCode : Z) (body : option string).

(** The world outside, as oracles: which AWS calls fail, what the HTTP
    peers answer, how long each call takes, the random draw and moment's
    relative-time rendering. *)
Record Env := {
  fault : Effect -> option string;
  http : HttpRequest -> HttpResponse;
  latency : Effect -> N;
  random53 : Z;
  relative : Z -> Z -> string;
}.

Record Machine := {
  clock : Z;
  queue : list (Z * Act);
  store : Store;
  local : Local;
  trace : list (Z * Effect);
  crashed : bool;
}.

Definition emit (e : Effect) (m : Machine) : Machine :=
  {| clock := clock m; queue := queue m; store := store m; local := local m;
     trace := trace m ++ [(clock m, e)]; crashed := crashed m |}.

Definition schedule (delay : Z) (cb : Act) (m : Machine) : Machine :=
  {| clock := clock m; queue := queue m ++ [(clock m + delay, cb)];
     store := store m; local := local m; trace := trace m; crashed := crashed m |}.

Definition set_store (s : Store) (m : Machine) : Machine :=
  {| clock := clock m; queue := queue m; store := s; local := local m;
     trace := trace m; crashed := crashed m |}.

Definition set_local (l : Local) (m : Machine) : Machine :=
  {| clock := clock m; queue := queue m; store := store m; local := l;
     trace := trace m; crashed := crashed m |}.

Definition crash (m : Machine) : Machine :=
  {| clock := clock m; queue := []; store := store m; local := local m;
     trace := trace m; crashed := true |}.

Definition resume (t : Z) (q : list (Z * Act)) (m : Machine) : Machine :=
  {| clock := t; queue := q; store := store m; local := local m;
     trace := trace m; crashed := crashed m |}.

(** DynamoDB, on the tables. *)
Definition db_getItem (s : Store) (t : Table) (key : string) : option Item :=
  unmarshalItem key <$> (s t !! key).

Definition db_scan (s : Store) : list Item :=
  (fun kd => unmarshalItem (fst kd) (snd kd)) <$> map_to_list (s TFoSlackUsers).

(** [set speakeasy.x = v] needs the item and its [speakeasy] map to exist;
    otherwise DynamoDB rejects the document path. *)
Definition put_user (s : Store) (key : string) (d : Doc) : Store :=
  fun t => match t with
           | TFoSlackUsers => <[key := d]> (s TFoSlackUsers)
           | SlackSpeakeasyData => s SlackSpeakeasyData
           end.

Definition db_updateItem (s : Store) (key : string) (u : Update) : option Store :=
  match s TFoSlackUsers !! key with
  | Some d =>
      match doc_speakeasy d with
      | Some sp =>
          Some (put_user s key
                  {| doc_value := doc_value d; doc_speakeasy := Some (apply_update u sp) |})
      | None => None
      end
  | None => None
  end.

(** [Math.floor(Math.random() * n)]: the draw is [k / 2^53] for a [k] below
    [2^53]. *)
Definition floor_random_times (env : Env) (n : nat) : nat :=
  Z.to_nat ((random53 env mod 2 ^ 53) * Z.of_nat n / 2 ^ 53).

(** The synchronous run of one callback: effects happen at the current
    instant, asynchronous calls queue their callback at the instant the reply
    arrives, and an uncaught exception kills the process. *)
Fixpoint exec (env : Env) (a : Act) (m : Machine) {struct a} : Machine :=
  match a with
  | Return => m
  | Throw e => crash (emit (Uncaught e) m)
  | Seq a b => let m' := exec env a m in if crashed m' then m' else exec env b m'
  | ConsoleError k => exec env k m
  | Moment k => exec env (k (clock m)) m
  | MomentFrom t now k => exec env (k (relative env t now)) m
  | FloorRandomTimes n k => exec env (k (floor_random_times env n)) m
  | ReadLocal k => exec env (k (local m)) m
  | WriteLocal l k => exec env k (set_local l m)
  | GetItem t key cb =>
      let e := DbGet t key in
      let r := match fault env e with
               | Some err => Failed err
               | None => Returned (db_getItem (store m) t key)
               end in
      schedule (Z.of_N (latency env e)) (cb r) (emit e m)
  | UpdateItem key u cb =>
      let e := DbUpdate key u in
      match fault env e with
      | Some err => schedule (Z.of_N (latency env e)) (cb (Failed err)) (emit e m)
      | None =>
          match db_updateItem (store m) key u with
          | Some s' => schedule (Z.of_N (latency env e)) (cb (Returned tt)) (set_store s' (emit e m))
          | None =>
              schedule (Z.of_N (latency env e))
                (cb (Failed "ValidationException: The document path provided in the update expression is invalid for update"))
                (emit e m)
          end
      end
  | Scan cb =>
      let e := DbScan in
      let r := match fault env e with
               | Some err => Failed err
               | None => Returned (db_scan (store m))
               end in
      schedule (Z.of_N (latency env e)) (cb r) (emit e m)
  | Request r cb =>
      schedule (Z.of_N (latency env (Http r))) (cb (http env r)) (emit (Http r) m)
  | SetTimeout ms cb => schedule ms cb m
  | Invoke fn payload cb =>
      let e := LambdaInvoke fn payload in
      schedule (Z.of_N (latency env e)) (cb (fault env e)) (emit e m)
  | ContextSucceedWith statusCode body => emit (ContextSucceed statusCode body) m
  end.

(** The callback that is due first; among equals, the one queued first. *)
Fixpoint next (q : list (Z * Act)) : option ((Z * Act) * list (Z * Act)) :=
  match q with
  | [] => None
  | t :: q' =>
      match next q' with
      | None => Some (t, [])
      | Some (u, r) => if fst t <=? fst u then Some (t, q') else Some (u, t :: r)
      end
  end.

(** The event loop: run the next due callback until none is left. *)
Fixpoint loop (fuel : nat) (env : Env) (m : Machine) : Machine :=
  match fuel with
  | O => m
  | S f =>
      if crashed m then m
      else match next (queue m) with
           | None => m
           | Some ((t, cb), q) => loop f env (exec env cb (resume t q m))
           end
  end.

Definition no_local : Local := {| results := []; completed := 0; fired := false |}.

Definition boot (s : Store) (t0 : Z) : Machine :=
  {| clock := t0; queue := []; store := s; local := no_local; trace := []; crashed := false |}.

(** One invocation of a handler: its synchronous part, then the loop. *)
Definition invoke (fuel : nat) (env : Env) (s : Store) (t0 : Z) (handler : Act) : Machine :=
  loop fuel env (exec env handler (boot s t0)).

(** The process has nothing left to do. *)
Definition finished (m : Machine) : Prop := queue m = [].

(** ** The async library, as far as the lambdas use it *)

(** What a stage hands to its [done]: [done(err)], or [done(null, a)] with
    the value for the next stage. *)
Inductive Outcome (A : Type) :=
| Err (err : string)
| Next (a : A).
Arguments Err {A} err.
Arguments Next {A} a.

Module async.

(** [async.waterfall(tasks, callback)]: each task receives the value of the
    one before; the first error goes to [callback] and skips the rest. *)
Fixpoint waterfall {A : Type} (tasks : list (A -> (Outcome A -> Act) -> Act))
    (a : A) (callback : Outcome A -> Act) : Act :=
  match tasks with
  | [] => callback (Next a)
  | task :: rest =>
      task a (fun r =>
        match r with
        | Err err => callback (Err err)
        | Next a' => waterfall rest a' callback
        end)
  end.

(** [once(callback)]: only the first call goes through. *)
Definition once {A : Type} (callback : A -> Act) (x : A) : Act :=
  ReadLocal (fun l =>
    if fired l then Return
    else WriteLocal {| results := results l; completed := completed l; fired := true |}
           (callback x)).

(** The callback [eachOf] hands to every iteratee. *)
Definition iteratorCallback (length : nat) (callback : option string -> Act)
    (err : option string) : Act :=
  match err with
  | Some e => once callback (Some e)
  | None =>
      ReadLocal (fun l =>
        let n := S (completed l) in
        WriteLocal {| results := results l; completed := n; fired := fired l |}
          (if (n =? length)%nat then once callback None else Return))
  end.

Fixpoint eachOf_from {A : Type} (index : nat) (coll : list A)
    (iteratee : A -> nat -> (option string -> Act) -> Act)
    (cb : option string -> Act) : Act :=
  match coll with
  | [] => Return
  | x :: rest => Seq (iteratee x index cb) (eachOf_from (S index) rest iteratee cb)
  end.

(** [async.eachOf(coll, iteratee, callback)] on an array: every iteratee is
    started in turn, and [callback] runs when the last one has called back. *)
Definition eachOf {A : Type} (coll : list A)
    (iteratee : A -> nat -> (option string -> Act) -> Act)
    (callback : option string -> Act) : Act :=
  let length := length coll in
  WriteLocal {| results := []; completed := 0; fired := false |}
    (Seq (if (length =? 0)%nat then once callback None else Return)
         (eachOf_from 0 coll iteratee (iteratorCallback length callback))).

(** [results[index] = v] on a JavaScript array: an index past the end pads
    the array with undefined. *)
Definition assign (index : nat) (v : option string) (results : list (option string))
    : list (option string) :=
  if (index <? length results)%nat then <[index := v]> results
  else results ++ replicate (index - length results) None ++ [v].

(** [async.map(coll, iteratee, callback)]: each result is stored at the index
    of its item. *)
(** The callback [map] hands to the iteratee of the item at [index]. *)
Definition collect (index : nat) (cb : option string -> Act) (err v : option string) : Act :=
  ReadLocal (fun l =>
    WriteLocal {| results := assign index v (results l);
                  completed := completed l; fired := fired l |}
      (cb err)).

(** The last callback of [map]: the results, as they stand, go to
    [callback]. *)
Definition collected (callback : option string -> list (option string) -> Act)
    (err : option string) : Act :=
  ReadLocal (fun l => callback err (results l)).

Definition map {A : Type} (coll : list A)
    (iteratee : A -> (option string -> option string -> Act) -> Act)
    (callback : option string -> list (option string) -> Act) : Act :=
  eachOf coll (fun value index cb => iteratee value (collect index cb)) (collected callback).

End async.

(** [_.includes(list, x)] on strings. *)
Definition includes (l : list string) (x : string) : bool :=
  existsb (String.eqb x) l.

(** [a[0] === s] for a possibly missing first element. *)
Definition first_is (a : list string) (s : string) : bool :=
  match head a with
  | Some w => String.eqb w s
  | None => false
  end.

(** ** The door catalog *)

Record Door := { name : string; key : string; code : string }.

Definition DOOR_CODES : list Door := [
  {| name := "Brip West Outer"; key := "bwo"; code := "3768" |};
  {| name := "Brip West Inner"; key := "bwi"; code := "3766" |};
  {| name := "Brip Parking Lot"; key := "bs"; code := "3767" |};
  {| name := "Downtown Outer"; key := "do"; code := "3641" |};
  {| name := "Downtown Inner"; key := "di"; code := "3640" |}
].

(** [_.find(DOOR_CODES, (c) => c.key === k)]. *)
Definition find_door (k : string) : option Door :=
  List.find (fun c => String.eqb (key c) k) DOOR_CODES.

(** [_.reduce(doorStatuses, (sum, status, i) => ..., sum)]: the lines joined
    by line feeds. *)
Fixpoint reduce_statuses (i : nat) (doorStatuses : list (option string)) (sum : string)
    : string :=
  match doorStatuses with
  | [] => sum
  | status :: rest =>
      let sum := if (i =? 0)%nat then sum else sum +:+ JS.nl in
      reduce_statuses (S i) rest (sum +:+ JS.interp status)
  end.

(** ** The speakeasy lambda, pass-based revision *)

Module Speakeasy.

Definition N_PASSES : nat := 10.

(** The pipeline state that the stages thread along. *)
Module St.
Record t := {
  args : list string;
  command : string;
  respond : option string -> (HttpResponse -> Act) -> Act;
  token : option string;
  user : Item;
  canonicalToken : option Value;
  logins : option Value;
  headers : option Headers;
  allUsers : list Item;
}.
End St.

Definition set_canonicalToken (v : option Value) (s : St.t) : St.t :=
  {| St.args := St.args s; St.command := St.command s; St.respond := St.respond s;
     St.token := St.token s; St.user := St.user s; St.canonicalToken := v;
     St.logins := St.logins s; St.headers := St.headers s; St.allUsers := St.allUsers s |}.

Definition set_user (u : Item) (s : St.t) : St.t :=
  {| St.args := St.args s; St.command := St.command s; St.respond := St.respond s;
     St.token := St.token s; St.user := u; St.canonicalToken := St.canonicalToken s;
     St.logins := St.logins s; St.headers := St.headers s; St.allUsers := St.allUsers s |}.

Definition set_logins (v : option Value) (s : St.t) : St.t :=
  {| St.args := St.args s; St.command := St.command s; St.respond := St.respond s;
     St.token := St.token s; St.user := St.user s; St.canonicalToken := St.canonicalToken s;
     St.logins := v; St.headers := St.headers s; St.allUsers := St.allUsers s |}.

Definition set_headers (h : Headers) (s : St.t) : St.t :=
  {| St.args := St.args s; St.command := St.command s; St.respond := St.respond s;
     St.token := St.token s; St.user := St.user s; St.canonicalToken := St.canonicalToken s;
     St.logins := St.logins s; St.headers := Some h; St.allUsers := St.allUsers s |}.

Definition set_allUsers (l : list Item) (s : St.t) : St.t :=
  {| St.args := St.args s; St.command := St.command s; St.respond := St.respond s;
     St.token := St.token s; St.user := St.user s; St.canonicalToken := St.canonicalToken s;
     St.logins := St.logins s; St.headers := St.headers s; St.allUsers := l |}.

Abbreviation Stage := (St.t -> (Outcome St.t -> Act) -> Act) (only parsing).

(** [_.get(user, 'speakeasy.enabled')] and its siblings: a missing
    [speakeasy] reads as undefined. *)
Definition get_enabled (u : Item) : bool :=
  match speakeasy u with Some sp => enabled sp | None => false end.

Definition get_disableRateLimiting (u : Item) : bool :=
  match speakeasy u with Some sp => disableRateLimiting sp | None => false end.

Definition get_attempts (u : Item) : option (list Attempt) :=
  match speakeasy u with Some sp => attempts sp | None => None end.

(** [previousAttempts.unshift(entry)] writes through to the array held by
    [state.user.speakeasy.attempts]. *)
Definition unshift (entry : Attempt) (u : Item) : Item :=
  match speakeasy u with
  | Some sp =>
      match attempts sp with
      | Some l =>
          {| id := id u; value := value u;
             speakeasy := Some (apply_update (SetAttempts (entry :: l)) sp) |}
      | None => u
      end
  | None => u
  end.

Definition GetHelp : string :=
  "*Controls access to the SpeakEasy*" +:+ JS.nl
  +:+ "```" +:+ JS.nl
  +:+ "/speakeasy help" +:+ JS.nl
  +:+ "```" +:+ JS.nl
  +:+ "_display this text_" +:+ JS.nl
  +:+ "```" +:+ JS.nl
  +:+ "/speakeasy status" +:+ JS.nl
  +:+ "```" +:+ JS.nl
  +:+ "_checks the status of our connection with the SpeakEasy and your checked-out pass_" +:+ JS.nl
  +:+ "```" +:+ JS.nl
  +:+ "/speakeasy checkout" +:+ JS.nl
  +:+ "```" +:+ JS.nl
  +:+ "_grants you a pass to access the SpeakEasy for 24 hours_" +:+ JS.nl
  +:+ "```" +:+ JS.nl
  +:+ "/speakeasy unlock {door}" +:+ JS.nl
  +:+ "```" +:+ JS.nl
  +:+ "_unlock a specific door_" +:+ JS.nl +:+ JS.nl
  +:+ "*Doors*" +:+ JS.nl
  +:+ "  - `bwo`: broad ripple > west side > outer" +:+ JS.nl
  +:+ "  - `bwi`: broad ripple > west side > inner" +:+ JS.nl
  +:+ "  - `bw`: broad ripple > west side > outer then inner on a time delay" +:+ JS.nl
  +:+ "  - `bs`: broad ripple > south side (parking lot)" +:+ JS.nl
  +:+ "  - `do`: downtown > outer" +:+ JS.nl
  +:+ "  - `di`: downtown > inner" +:+ JS.nl
  +:+ JS.nl +:+ JS.nl
  +:+ "I'd recommend running `/speakeasy status` before making a trip to the SpeakEasy "
  +:+ "of your choice. If the status check comes back operational then you should be good to go." +:+ JS.nl
  +:+ "Some functionality of this app is rate-limited." +:+ JS.nl
  +:+ "Please keep in mind that you may stay in the SpeakEasy 24/7, but the doors to get in do lock "
  +:+ "at 10pm in Broad Ripple and a bit earlier Downtown. `/speakeasy status` will reflect this." +:+ JS.nl
  +:+ "Contact Mike with any questions or concerns.".

Definition GetSlackAuthToken : Stage := fun state done =>
  GetItem SlackSpeakeasyData "slack_auth_token" (fun r =>
    match r with
    | Failed err => ConsoleError (done (Err err))
    | Returned None => done (Err "I can't confirm that this request is originating from Slack.")
    | Returned (Some item) => done (Next (set_canonicalToken (value item) state))
    end).

(** [state.canonicalToken !== state.token]. *)
Definition token_differs (canonicalToken : option Value) (token : option string) : bool :=
  match canonicalToken, token with
  | Some (Str c), Some t => negb (String.eqb c t)
  | None, None => false
  | _, _ => true
  end.

Definition auth_mismatch_message : string :=
  "Cannot verify request originated from Slack... exiting.".

Definition CheckSlackAuthToken : Stage := fun state done =>
  if token_differs (St.canonicalToken state) (St.token state)
  then done (Err auth_mismatch_message)
  else done (Next state).

Definition GetCallingUser : Stage := fun state done =>
  GetItem TFoSlackUsers (id (St.user state)) (fun r =>
    match r with
    | Failed err => ConsoleError (done (Err err))
    | Returned None =>
        done (Err "I can't find a record of you in my database. Please contact Mike to have your access to this service enabled.")
    | Returned (Some item) => done (Next (set_user item state))
    end).

Definition rate_limited_ops : list string := ["checkout"; "status"; "unlock"; "open"].

(** The attempts that count: made after [now - 1 minute], with a rate-limited
    operation. *)
Definition lastMinute (now : Z) (attempts : list Attempt) : list Attempt :=
  List.filter (fun a => (now - 60000 <? at_ a) && includes rate_limited_ops (op a)) attempts.

Definition rate_limit_message : string :=
  "Requests to this service are limited to 3 every 60 seconds." +:+ JS.nl
  +:+ "Please wait for a few seconds and try again." +:+ JS.nl
  +:+ "This request has not counted against your 3 requests; only successful `checkout`, `status`, and `unlock` requests count.".

(** [state.user] is always an object here, so the [!user] branch of the
    source never runs; the feature gate and the rate limit remain. *)
Definition CheckCallingUser : Stage := fun state done =>
  let user := St.user state in
  if negb (get_enabled user)
  then done (Err "Rollout of this service is currently limited, and your account is not enabled.")
  else
    let disabled := get_disableRateLimiting user in
    match get_attempts user with
    | None => done (Next state)
    | Some attempts =>
        if (length attempts <? 3)%nat || disabled then done (Next state)
        else
          Moment (fun now =>
            if (3 <=? length (lastMinute now attempts))%nat
            then done (Err rate_limit_message)
            else done (Next state))
    end.

(** The list [RegisterUserAttempt] stores: the new entry in front, cut to
    the last five. *)
Definition record_attempt (entry : Attempt) (previous : option (list Attempt)) : list Attempt :=
  let previousAttempts := entry :: default [] previous in
  if (5 <? length previousAttempts)%nat then take 5 previousAttempts else previousAttempts.

(** [marshal(previousAttempts)]: the marshaler has no DynamoDB value for an
    empty string and throws on it, wherever in the list it stands; the
    instants are never empty, so it is the [op] of an entry that decides. *)
Definition marshals (previousAttempts : list Attempt) : bool :=
  forallb (fun a => negb (String.eqb (op a) "")) previousAttempts.

Definition marshal_error : string := "TypeError: Encountered unexpected item".

(** The parameters of [updateItem] are built, the list marshalled, before
    the call is made: when [marshal] throws, no update is sent. *)
Definition RegisterUserAttempt : Stage := fun state done =>
  Moment (fun now =>
    let entry := {| at_ := now; op := St.command state |} in
    let previous := get_attempts (St.user state) in
    let state := set_user (unshift entry (St.user state)) state in
    if marshals (record_attempt entry previous)
    then
      UpdateItem (id (St.user state)) (SetAttempts (record_attempt entry previous)) (fun r =>
        match r with
        | Failed err => ConsoleError (done (Err err))
        | Returned _ => done (Next state)
        end)
    else Throw marshal_error).

Definition logins_missing_message : string :=
  "Valid KISI login list cannot be found. I can't proceed.".

Definition GetLogins : Stage := fun state done =>
  GetItem SlackSpeakeasyData "logins" (fun r =>
    match r with
    | Failed err => ConsoleError (done (Err err))
    | Returned None => done (Err logins_missing_message)
    | Returned (Some item) => done (Next (set_logins (value item) state))
    end).

(** The callback of the sign-in request. *)
Definition on_sign_in (state : St.t) (done : Outcome St.t -> Act) (r : HttpResponse) : Act :=
  match r with
  | NetErr err => done (Err err)
  | Answer None => Throw "SyntaxError: Unexpected token in JSON"
  | Answer (Some body) => done (Next (set_headers {| x_login_secret := secret body |} state))
  end.

Definition Login : Stage := fun state done =>
  match St.logins state with
  | None => Throw "TypeError: Cannot read property 'length' of undefined"
  | Some (Creds validCredentials) =>
      FloorRandomTimes (length validCredentials) (fun i =>
        match validCredentials !! i with
        | None => Throw "TypeError: Cannot read property 'username' of undefined"
        | Some login =>
            Request (SignIn (Some (username login)) (Some (password login)))
              (on_sign_in state done)
        end)
  | Some (Str validCredentials) =>
      FloorRandomTimes (String.length validCredentials) (fun i =>
        match String.get i validCredentials with
        | None => Throw "TypeError: Cannot read property 'username' of undefined"
        | Some _ => Request (SignIn None None) (on_sign_in state done)
        end)
  end.

(** [moment(u.speakeasy.expires).isAfter(moment())]: a missing expiry reads
    as the current instant, which is not after itself. *)
Definition pass_active (now : Z) (sp : Speakeasy) : bool :=
  match expires sp with
  | Some e => now <? e
  | None => false
  end.

(** [_.filter(allUsers, (u) => moment(u.speakeasy.expires).isAfter(moment()))];
    [None] when some record has no [speakeasy], on which the filter throws. *)
Fixpoint havePasses (now : Z) (allUsers : list Item) : option (list Item) :=
  match allUsers with
  | [] => Some []
  | u :: rest =>
      match speakeasy u with
      | None => None
      | Some sp =>
          match havePasses now rest with
          | None => None
          | Some l => Some (if pass_active now sp then u :: l else l)
          end
      end
  end.

Abbreviation Handler := (St.t -> (Outcome (option string) -> Act) -> Act) (only parsing).

Definition warning_line (door : Door) : string :=
  ":warning: " +:+ name door +:+ " [`" +:+ key door +:+ "`]: `A bad error occurred.`".

Definition status_line (door : Door) (body : Json) : string :=
  let emoji := match message body with
               | Some m => if String.eqb m "Access not restricted!" then ":+1:" else ":no_good:"
               | None => ":no_good:"
               end in
  emoji +:+ " " +:+ name door +:+ " [`" +:+ key door +:+ "`]: `" +:+ JS.interp (message body) +:+ "`".

(** The callback of the peek request. *)
Definition on_peek (door : Door) (doorDone : option string -> option string -> Act)
    (r : HttpResponse) : Act :=
  match r with
  | NetErr err => ConsoleError (doorDone None (Some (warning_line door)))
  | Answer None => Throw "SyntaxError: Unexpected token in JSON"
  | Answer (Some body) => doorDone None (Some (status_line door body))
  end.

Definition GetDoorStatus (state : St.t) (door : Door)
    (doorDone : option string -> option string -> Act) : Act :=
  Request (Peek (code door) (St.headers state)) (on_peek door doorDone).

(** The callback of the scan in [StatusHandler]: the pass count and the
    caller's own pass are appended to the door lines. *)
Definition report_passes (state : St.t) (done : Outcome (option string) -> Act)
    (message : string) (r : Reply (list Item)) : Act :=
  match r with
  | Failed err => done (Err err)
  | Returned allUsers =>
      Moment (fun now =>
        match havePasses now allUsers with
        | None => Throw "TypeError: Cannot read property 'expires' of undefined"
        | Some passes =>
            let message :=
              message +:+ "Right now, there are " +:+ JS.showZ (Z.of_nat (length passes))
              +:+ " passes checked out, out of " +:+ JS.showZ (Z.of_nat N_PASSES)
              +:+ " total." +:+ JS.nl in
            match speakeasy (St.user state) with
            | None => Throw "TypeError: Cannot read property 'expires' of undefined"
            | Some sp =>
                match expires sp with
                | Some userExpires =>
                    MomentFrom userExpires now (fun inEnglish =>
                      if userExpires <? now
                      then done (Next (Some (message +:+ "Your last pass expired " +:+ inEnglish +:+ ". "
                                             +:+ "Run `/speakeasy checkout` to get a new one.")))
                      else done (Next (Some (message +:+ "You have an active pass which expires "
                                             +:+ inEnglish +:+ "."))))
                | None =>
                    done (Next (Some (message
                      +:+ "You haven't checked out a pass yet. Try `/speakeasy checkout` if you'd like one!")))
                end
            end
        end)
  end.

(** The callback of the [async.map] in [StatusHandler]. *)
Definition on_statuses (state : St.t) (done : Outcome (option string) -> Act)
    (err : option string) (doorStatuses : list (option string)) : Act :=
  match err with
  | Some _ => ConsoleError (done (Err "An error occurred... let Mike know."))
  | None =>
      let message := reduce_statuses 0 doorStatuses "" in
      let message := "I'm reading the lock statuses as follows" +:+ JS.nl
                     +:+ message +:+ JS.nl in
      Scan (report_passes state done message)
  end.

Definition StatusHandler : Handler := fun state done =>
  async.map DOOR_CODES (GetDoorStatus state) (on_statuses state done).

Definition capacity_message : string :=
  "Unfortunately, it looks like all the current passes have been checked out. Please try again within the next 24 hours.".

Definition CheckoutHandler : Handler := fun state done =>
  async.waterfall [
    (fun state stepDone =>
       Scan (fun r =>
         match r with
         | Failed err => stepDone (Err err)
         | Returned items => stepDone (Next (set_allUsers items state))
         end));
    (fun state stepDone =>
       Moment (fun now =>
         match havePasses now (St.allUsers state) with
         | None => Throw "TypeError: Cannot read property 'expires' of undefined"
         | Some passes =>
             if (N_PASSES <=? length passes)%nat then stepDone (Err capacity_message)
             else stepDone (Next state)
         end));
    (fun state stepDone =>
       Moment (fun now =>
         UpdateItem (id (St.user state)) (SetExpires (now + 86400000)) (fun r =>
           match r with
           | Failed err => stepDone (Err err)
           | Returned _ => stepDone (Next state)
           end)))
  ] state (fun r =>
    match r with
    | Err err => ConsoleError (done (Err err))
    | Next _ => done (Next (Some "Your pass has been extended for 24 hours. Enjoy!"))
    end).

Definition unknown_door_message : string :=
  "Sorry, but I don't recognize that door. Please run `/speakeasy help` for more info.".

(** The door or doors a key stands for, or the message for an unknown key. *)
Definition doorKey (arg : string) : string + list (option Door) :=
  if String.eqb arg "bw" then inr [find_door "bwo"; find_door "bwi"]
  else match find_door (JS.toLowerCase arg) with
       | None => inl unknown_door_message
       | Some door => inr [Some door]
       end.

(** The callback of the relay of one door's result. *)
Definition on_relayed (unlockDone : option string -> Act) (r : HttpResponse) : Act :=
  match r with
  | NetErr _ => ConsoleError (unlockDone None)
  | Answer _ => unlockDone None
  end.

(** The callback of one unlock call: the door's result, or the error, is
    relayed under the door's name. *)
Definition on_unlock (state : St.t) (door : Door) (unlockDone : option string -> Act)
    (r : HttpResponse) : Act :=
  let relay (message : option string) :=
    St.respond state (Some (name door +:+ ": " +:+ JS.interp message))
      (on_relayed unlockDone) in
  match r with
  | NetErr err => ConsoleError (relay (Some err))
  | Answer None => Throw "SyntaxError: Unexpected token in JSON"
  | Answer (Some body) => relay (message body)
  end.

(** What a door's timer runs. *)
Definition unlock_now (state : St.t) (door : option Door) (unlockDone : option string -> Act)
    : Act :=
  match door with
  | None => Throw "TypeError: Cannot read property 'code' of undefined"
  | Some door => Request (Unlock (code door) (St.headers state)) (on_unlock state door unlockDone)
  end.

(** The body of the [eachOf] in [UnlockHandler]: one timer per door, the
    first of 10 ms and every later one of 10 s, each followed by the unlock
    call and the relay of its result. *)
Definition unlock_door (state : St.t) (door : option Door) (i : nat)
    (unlockDone : option string -> Act) : Act :=
  let timeout := if (0 <? i)%nat then 10000 else 10 in
  SetTimeout timeout (unlock_now state door unlockDone).

(** The first step of the waterfall in [UnlockHandler]: the pass gate. *)
Definition check_pass (state : St.t) (stepDone : Outcome St.t -> Act) : Act :=
  match speakeasy (St.user state) with
  | None => Throw "TypeError: Cannot read property 'expires' of undefined"
  | Some sp =>
      match expires sp with
      | None =>
          stepDone (Err "Please run `/speakeasy checkout` to get a pass to access the SpeakEasy.")
      | Some e =>
          Moment (fun now =>
            if e <? now
            then stepDone (Err "Your pass has expired. Re-run `/speakeasy checkout` to assign yourself a new pass.")
            else stepDone (Next state))
      end
  end.

(** The callback of the [eachOf] in [UnlockHandler]. *)
Definition doors_done (state : St.t) (stepDone : Outcome St.t -> Act) (err : option string)
    : Act :=
  match err with
  | Some e => stepDone (Err e)
  | None => stepDone (Next state)
  end.

(** The last callback of the waterfall in [UnlockHandler]: [done(err)]. *)
Definition unlocked (done : Outcome (option string) -> Act) (r : Outcome St.t) : Act :=
  match r with
  | Err err => done (Err err)
  | Next _ => done (Next None)
  end.

Definition UnlockHandler : Handler := fun state done =>
  match St.args state with
  | [] => done (Err "Please provide a door to unlock.")
  | arg :: _ =>
      match doorKey arg with
      | inl message => done (Err message)
      | inr doors =>
          async.waterfall [
            check_pass;
            (fun state stepDone =>
               async.eachOf doors (unlock_door state) (doors_done state stepDone))
          ] state (unlocked done)
      end
  end.

Definition unknown_command_message : string :=
  "Command not recognized. Try `/speakeasy help` to start.".

Definition GetDispatchHandler : Handler := fun state done =>
  let command := St.command state in
  if String.eqb command "status" then StatusHandler state done
  else if String.eqb command "checkout" then CheckoutHandler state done
  else if String.eqb command "unlock" || String.eqb command "open" then UnlockHandler state done
  else done (Err unknown_command_message).

(** The handler the [switch] of [GetDispatchHandler] selects for a state. *)
Inductive Route := ToStatus | ToCheckout | ToUnlock | Unrouted.

Definition route (state : St.t) : Route :=
  let command := St.command state in
  if String.eqb command "status" then ToStatus
  else if String.eqb command "checkout" then ToCheckout
  else if String.eqb command "unlock" || String.eqb command "open" then ToUnlock
  else Unrouted.

(** What [UnlockHandler] takes for the door key of a state. *)
Definition door_argument (state : St.t) : option string := head (St.args state).

Definition finish : Act := ContextSucceedWith 200 (Some "").

Definition respond (body : Payload) (message : option string) (done : HttpResponse -> Act) : Act :=
  Request (SlackPost (response_url body) message) done.

Definition genericError (body : Payload) (done : HttpResponse -> Act) : Act :=
  respond body
    (Some "I didn't catch that... try to run `/speakeasy help` for info on how to use this command.")
    done.

(** The state the first task of the waterfall starts from. *)
Definition initial_state (body : Payload) (textSplit : list string) : St.t :=
  {| St.args := textSplit; St.command := command body; St.respond := respond body;
     St.token := token body;
     St.user := {| id := user_id body; value := None; speakeasy := None |};
     St.canonicalToken := None; St.logins := None; St.headers := None; St.allUsers := [] |}.

(** The last callback of the waterfall: [respond(err || message, finish)]. *)
Definition deliver (body : Payload) (r : Outcome (option string)) : Act :=
  match r with
  | Err err => ConsoleError (respond body (Some err) (fun _ => finish))
  | Next message => respond body message (fun _ => finish)
  end.

Definition handle (event : Event) : Act :=
  match body event with
  | None => ConsoleError Return
  | Some body =>
      let textSplit := JS.split " " (text body) in
      if (length textSplit =? 0)%nat then genericError body (fun _ => finish)
      else if first_is textSplit "help" then respond body (Some GetHelp) (fun _ => finish)
      else
        async.waterfall [
          GetSlackAuthToken;
          CheckSlackAuthToken;
          GetCallingUser;
          CheckCallingUser;
          RegisterUserAttempt;
          GetLogins;
          Login
        ] (initial_state body textSplit) (fun r =>
          match r with
          | Err err => deliver body (Err err)
          | Next state => GetDispatchHandler state (deliver body)
          end)
  end.

End Speakeasy.

(** ** The speakeasy lambda, earlier revision

    The second program of [functions/speakeasy/index.js]: the result is the
    body of the lambda's own response, the rate limit is one cooldown slot,
    and the stages are closures that pass each other plain values. *)

Module SpeakeasySync.

(** A task of the waterfall that hands an [A] to the next one. *)
Definition Task (A : Type) : Type := (Outcome A -> Act) -> Act.

(** Two consecutive tasks of [async.waterfall]. *)
Definition and_then {A B : Type} (task : Task A) (next : A -> Task B) : Task B :=
  fun callback =>
    task (fun r =>
      match r with
      | Err err => callback (Err err)
      | Next a => next a callback
      end).

Notation "x <~ t ;; k" := (and_then t (fun x => k))
  (at level 100, t at next level, right associativity).

Definition respond (message : option string) : Act := ContextSucceedWith 200 message.

Definition genericError : Act :=
  respond (Some "I didn't catch that... try to run `/speakeasy help` for info on how to use this command.").

Definition GetHelp : string :=
  "```" +:+ JS.nl
  +:+ "Control access to the SpeakEasy." +:+ JS.nl
  +:+ "  /speakeasy help" +:+ JS.nl
  +:+ "   display this text" +:+ JS.nl
  +:+ "  /speakeasy status" +:+ JS.nl
  +:+ "   checks the status of our connection" +:+ JS.nl
  +:+ "   with the SpeakEasy" +:+ JS.nl
  +:+ "  /speakeasy unlock {door}" +:+ JS.nl
  +:+ "   unlock a specific door" +:+ JS.nl
  +:+ "Doors" +:+ JS.nl
  +:+ "  - bwo" +:+ JS.nl
  +:+ "  broad ripple > west side > outer" +:+ JS.nl
  +:+ "  - bwi" +:+ JS.nl
  +:+ "  broad ripple > west side > inner" +:+ JS.nl
  +:+ "  - bs" +:+ JS.nl
  +:+ "  broad ripple > south side (parking lot)" +:+ JS.nl
  +:+ "  - do" +:+ JS.nl
  +:+ "  downtown > outer" +:+ JS.nl
  +:+ "  - di" +:+ JS.nl
  +:+ "  downtown > inner" +:+ JS.nl
  +:+ "```" +:+ JS.nl +:+ JS.nl
  +:+ "Generally, I'd recommend running `/speakeasy status` before making a trip to the SpeakEasy "
  +:+ "of your choice. If the status check comes back operational then you should be good to go." +:+ JS.nl +:+ JS.nl
  +:+ "You are limited to 1 unlock every 60 seconds." +:+ JS.nl +:+ JS.nl
  +:+ "It is totally possible that this thing would just... not work. That being said, it should be "
  +:+ "as available as the KISI app itself is." +:+ JS.nl +:+ JS.nl
  +:+ "Contact Mike with any questions or concerns.".

Definition GetSlackAuthToken : Task (option Value) := fun done =>
  GetItem SlackSpeakeasyData "slack_auth_token" (fun r =>
    match r with
    | Failed err => ConsoleError (done (Err err))
    | Returned None => done (Err "I can't confirm that this request is originating from Slack.")
    | Returned (Some item) => done (Next (value item))
    end).

Definition CheckSlackAuthToken (fromRequest : option string) (fromDynamo : option Value)
    : Task unit := fun done =>
  if Speakeasy.token_differs fromDynamo fromRequest
  then done (Err "Cannot verify request originated from Slack... exiting.")
  else done (Next tt).

Definition GetCallingUser (userId : string) : Task Item := fun done =>
  GetItem TFoSlackUsers userId (fun r =>
    match r with
    | Failed err => ConsoleError (done (Err err))
    | Returned None => done (Err "User not found in bot database; Apologies, but I can't proceed.")
    | Returned (Some item) => done (Next item)
    end).

Definition get_lastAccess (u : Item) : option Z :=
  match speakeasy u with Some sp => lastAccess sp | None => None end.

Definition CheckCallingUser (user : Item) : Task Item := fun done =>
  if negb (Speakeasy.get_enabled user)
  then done (Err "Rollout of this service is currently limited, and your account is not enabled.")
  else
    match get_lastAccess user with
    | Some last =>
        Moment (fun now =>
          let diff := Z.quot (now - last) 1000 in
          if diff <? 60 then
            let remaining := 60 - diff in
            done (Err ("Requests to this service are limited to one every 60 seconds. Please wait "
                       +:+ JS.showZ remaining +:+ " seconds."))
          else done (Next user))
    | None => done (Next user)
    end.

Definition RegisterUserAttempt (user : Item) : Task unit := fun done =>
  Moment (fun now =>
    UpdateItem (id user) (SetLastAccess now) (fun r =>
      match r with
      | Failed err => ConsoleError (done (Err err))
      | Returned _ => done (Next tt)
      end)).

Definition GetLogins : Task (option Value) := fun done =>
  GetItem SlackSpeakeasyData "logins" (fun r =>
    match r with
    | Failed err => ConsoleError (done (Err err))
    | Returned None => done (Err "Valid KISI login list cannot be found. I can't proceed.")
    | Returned (Some item) => done (Next (value item))
    end).

(** The callback of the sign-in request parses the body before it looks at
    the error. *)
Definition on_sign_in (done : Outcome Headers -> Act) (r : HttpResponse) : Act :=
  match r with
  | NetErr _ => Throw "SyntaxError: Unexpected token u in JSON"
  | Answer None => Throw "SyntaxError: Unexpected token in JSON"
  | Answer (Some body) => done (Next {| x_login_secret := secret body |})
  end.

Definition Login (validCredentials : option Value) : Task Headers := fun done =>
  match validCredentials with
  | None => Throw "TypeError: Cannot read property 'length' of undefined"
  | Some (Creds validCredentials) =>
      FloorRandomTimes (length validCredentials) (fun i =>
        match validCredentials !! i with
        | None => Throw "TypeError: Cannot read property 'username' of undefined"
        | Some login =>
            Request (SignIn (Some (username login)) (Some (password login))) (on_sign_in done)
        end)
  | Some (Str validCredentials) =>
      FloorRandomTimes (String.length validCredentials) (fun i =>
        match String.get i validCredentials with
        | None => Throw "TypeError: Cannot read property 'username' of undefined"
        | Some _ => Request (SignIn None None) (on_sign_in done)
        end)
  end.

Definition Handler : Type := Headers -> Task (option string).

Definition GetDoorStatus (headers : Headers) (door : Door)
    (doorDone : option string -> option string -> Act) : Act :=
  Request (Peek (code door) (Some headers)) (fun r =>
    match r with
    | NetErr err =>
        ConsoleError (doorDone None
          (Some (name door +:+ " [" +:+ key door +:+ "]:" +:+ JS.nl +:+ " A bad error occurred.")))
    | Answer None => Throw "SyntaxError: Unexpected token in JSON"
    | Answer (Some body) =>
        doorDone None
          (Some (name door +:+ " [" +:+ key door +:+ "]:" +:+ JS.nl +:+ " " +:+ JS.interp (message body)))
    end).

(** The status text goes out through the error argument of [done]. *)
Definition StatusHandler : Handler := fun headers done =>
  async.map DOOR_CODES (GetDoorStatus headers) (fun err doorStatuses =>
    match err with
    | Some _ => ConsoleError (done (Err "An error occurred... let Mike know."))
    | None =>
        let message := reduce_statuses 0 doorStatuses "" in
        done (Err ("I'm reading the lock statuses as follows" +:+ JS.nl
                   +:+ "```" +:+ JS.nl
                   +:+ message +:+ JS.nl
                   +:+ "```" +:+ JS.nl
                   +:+ "If any of those look off, its possible your phone could still work to unlock it, but not guaranteed."))
    end).

Definition UnlockHandler (doorKey : option string) : Handler := fun headers done =>
  match match doorKey with Some k => find_door k | None => None end with
  | None => done (Err Speakeasy.unknown_door_message)
  | Some door =>
      Request (Unlock (code door) (Some headers)) (fun r =>
        match r with
        | NetErr err => done (Err err)
        | Answer None => Throw "SyntaxError: Unexpected token in JSON"
        | Answer (Some body) => done (Next (message body))
        end)
  end.

Definition UnknownHandler : Handler := fun headers done =>
  done (Err Speakeasy.unknown_command_message).

(** The verbs of this revision. *)
Inductive Verb := VStatus | VUnlock (doorKey : option string) | VUnknown.

(** The [switch (splitCommand[0])] of [GetDispatchHandler]. *)
Definition dispatch (splitCommand : list string) : Verb :=
  if first_is splitCommand "status" then VStatus
  else if first_is splitCommand "unlock" || first_is splitCommand "open"
       then VUnlock (splitCommand !! 1%nat)
  else VUnknown.

Definition handler_of (v : Verb) : Handler :=
  match v with
  | VStatus => StatusHandler
  | VUnlock doorKey => UnlockHandler doorKey
  | VUnknown => UnknownHandler
  end.

Definition GetDispatchHandler (splitCommand : list string) : Handler :=
  handler_of (dispatch splitCommand).

(** [event.body] after [query.parse]. *)
Definition handle (body : Payload) : Act :=
  let textSplit := JS.split " " (text body) in
  if (length textSplit =? 0)%nat then genericError
  else if first_is textSplit "help" then respond (Some GetHelp)
  else
    (fromDynamo <~ GetSlackAuthToken ;;
     _ <~ CheckSlackAuthToken (token body) fromDynamo ;;
     user <~ GetCallingUser (user_id body) ;;
     user <~ CheckCallingUser user ;;
     _ <~ RegisterUserAttempt user ;;
     validCredentials <~ GetLogins ;;
     headers <~ Login validCredentials ;;
     GetDispatchHandler textSplit headers)
    (fun r =>
       match r with
       | Err err => respond (Some err)
       | Next message => respond message
       end).

End SpeakeasySync.

(** ** The proxy lambda *)

Module ApigProxy.

Definition done (err : option string) : Act :=
  match err with
  | Some e => ContextSucceedWith 500 (Some e)
  | None => ContextSucceedWith 200 (Some "")
  end.

Definition InvokeSpeakeasy (body : Payload) (done : option string -> Act) : Act :=
  Invoke "tfo_slack_speakeasy" {| body := Some body |} done.

(** [event.body] after [query.parse]. *)
Definition handle (body : Payload) : Act :=
  if String.eqb (command body) "/speakeasy" then InvokeSpeakeasy body done
  else Return.

End ApigProxy.

(** ** Observations on a run *)

(** The process between two callbacks, nothing pending. *)
Definition idle (t : Z) (s : Store) (l : Local) (tr : list (Z * Effect)) : Machine :=
  {| clock := t; queue := []; store := s; local := l; trace := tr; crashed := false |}.

(** The process between two callbacks, with callbacks pending. *)
Definition waiting (t : Z) (q : list (Z * Act)) (s : Store) (l : Local)
    (tr : list (Z * Effect)) : Machine :=
  {| clock := t; queue := q; store := s; local := l; trace := tr; crashed := false |}.

(** The effects of a trace, without their instants. *)
Definition effects (tr : list (Z * Effect)) : list Effect := List.map snd tr.

(** The texts posted to the callback address, in the order of posting. *)
Fixpoint relays (tr : list (Z * Effect)) : list (option string) :=
  match tr with
  | [] => []
  | (_, Http (SlackPost _ text)) :: rest => text :: relays rest
  | _ :: rest => relays rest
  end.

(** The calls to the lock API, in the order of issue. *)
Fixpoint lock_calls (tr : list (Z * Effect)) : list (Z * HttpRequest) :=
  match tr with
  | [] => []
  | (t, Http (SignIn e p)) :: rest => (t, SignIn e p) :: lock_calls rest
  | (t, Http (Peek c h)) :: rest => (t, Peek c h) :: lock_calls rest
  | (t, Http (Unlock c h)) :: rest => (t, Unlock c h) :: lock_calls rest
  | _ :: rest => lock_calls rest
  end.

(** The unlock calls, in the order of issue. *)
Fixpoint unlock_calls (tr : list (Z * Effect)) : list (Z * string) :=
  match tr with
  | [] => []
  | (t, Http (Unlock c _)) :: rest => (t, c) :: unlock_calls rest
  | _ :: rest => unlock_calls rest
  end.

(** The updates sent to the users table, in the order of issue. *)
Fixpoint updates (tr : list (Z * Effect)) : list (string * Update) :=
  match tr with
  | [] => []
  | (_, DbUpdate k u) :: rest => (k, u) :: updates rest
  | _ :: rest => updates rest
  end.

(** Reads and scans of either table. *)
Fixpoint store_reads (tr : list (Z * Effect)) : list Effect :=
  match tr with
  | [] => []
  | (_, DbGet t k) :: rest => DbGet t k :: store_reads rest
  | (_, DbScan) :: rest => DbScan :: store_reads rest
  | _ :: rest => store_reads rest
  end.

(** The stored [speakeasy] document of a user. *)
Definition stored (s : Store) (user : string) : option Speakeasy :=
  match s TFoSlackUsers !! user with
  | Some d => doc_speakeasy d
  | None => None
  end.

(** What [CheckCallingUser] decides on the rate limit at instant [now]. *)
Definition throttled (now : Z) (u : Item) : bool :=
  match Speakeasy.get_attempts u with
  | None => false
  | Some attempts =>
      if (length attempts <? 3)%nat || Speakeasy.get_disableRateLimiting u then false
      else (3 <=? length (Speakeasy.lastMinute now attempts))%nat
  end.

Definition rollout_message : string :=
  "Rollout of this service is currently limited, and your account is not enabled.".

(** *** The instants and values of a run that gets as far as the dispatcher *)

Section Run.

Context (env : Env) (t0 : Z) (b : Payload).

Definition t_token : Z :=
  t0 + Z.of_N (latency env (DbGet SlackSpeakeasyData "slack_auth_token")).

(** The instant [CheckCallingUser] and [RegisterUserAttempt] run. *)
Definition t_user : Z :=
  t_token + Z.of_N (latency env (DbGet TFoSlackUsers (user_id b))).

Definition new_attempt : Attempt := {| at_ := t_user; op := command b |}.

Context (sp : Speakeasy).

Definition written : list Attempt := Speakeasy.record_attempt new_attempt (attempts sp).

Definition t_recorded : Z :=
  t_user + Z.of_N (latency env (DbUpdate (user_id b) (SetAttempts written))).

Definition t_logins : Z :=
  t_recorded + Z.of_N (latency env (DbGet SlackSpeakeasyData "logins")).

Context (login : Credential).

Definition sign_in : HttpRequest := SignIn (Some (username login)) (Some (password login)).

(** The instant the dispatcher runs. *)
Definition t_dispatch : Z := t_logins + Z.of_N (latency env (Http sign_in)).

(** The effects of the stages before the dispatcher. *)
Definition prefix : list (Z * Effect) :=
  [ (t0, DbGet SlackSpeakeasyData "slack_auth_token");
    (t_token, DbGet TFoSlackUsers (user_id b));
    (t_user, DbUpdate (user_id b) (SetAttempts written));
    (t_recorded, DbGet SlackSpeakeasyData "logins");
    (t_logins, Http sign_in) ].

End Run.

(** The users table once the attempt is recorded. *)
Definition recorded (env : Env) (t0 : Z) (b : Payload) (s : Store) (du : Doc) (sp : Speakeasy)
    : Store :=
  put_user s (user_id b)
    {| doc_value := doc_value du;
       doc_speakeasy := Some (apply_update (SetAttempts (written env t0 b sp)) sp) |}.

(** The pipeline state the dispatcher receives. *)
Definition dispatched (env : Env) (t0 : Z) (b : Payload) (dtok du : Doc) (pool : list Credential)
    (reply : Json) : Speakeasy.St.t :=
  Speakeasy.set_headers {| x_login_secret := secret reply |}
    (Speakeasy.set_logins (Some (Creds pool))
       (Speakeasy.set_user
          (Speakeasy.unshift (new_attempt env t0 b) (unmarshalItem (user_id b) du))
          (Speakeasy.set_canonicalToken (doc_value dtok)
             (Speakeasy.initial_state b (JS.split " " (text b)))))).

(** The effects of the stages before the credential stages. *)
Definition prefix_logins (env : Env) (t0 : Z) (b : Payload) (sp : Speakeasy)
    : list (Z * Effect) :=
  [ (t0, DbGet SlackSpeakeasyData "slack_auth_token");
    (t_token env t0, DbGet TFoSlackUsers (user_id b));
    (t_user env t0 b, DbUpdate (user_id b) (SetAttempts (written env t0 b sp))) ].

(** The request is not a help request and passes every stage before the
    credential stages: no store call fails, the token is the canonical one,
    the user is known, enabled and within the rate limit, and the attempt is
    recorded: the list to write marshals (no entry of it, the new one
    included, has an empty operation) and the update is accepted. *)
Record reaches_logins (env : Env) (s : Store) (t0 : Z) (b : Payload)
    (dtok du : Doc) (sp : Speakeasy) : Prop := {
  not_help : first_is (JS.split " " (text b)) "help" = false;
  token_read : fault env (DbGet SlackSpeakeasyData "slack_auth_token") = None;
  token_stored : s SlackSpeakeasyData !! "slack_auth_token" = Some dtok;
  token_same : Speakeasy.token_differs (doc_value dtok) (token b) = false;
  user_read : fault env (DbGet TFoSlackUsers (user_id b)) = None;
  user_stored : s TFoSlackUsers !! user_id b = Some du;
  user_doc : doc_speakeasy du = Some sp;
  user_enabled : enabled sp = true;
  user_within_limit : throttled (t_user env t0 b) (unmarshalItem (user_id b) du) = false;
  attempt_marshals : Speakeasy.marshals (written env t0 b sp) = true;
  attempt_written :
    fault env (DbUpdate (user_id b) (SetAttempts (written env t0 b sp))) = None;
  logins_read : fault env (DbGet SlackSpeakeasyData "logins") = None;
}.

(** The request moreover gets through the credential stages: the pool
    yields a login and the lock API answers the sign-in with a JSON body. *)
Record reaches_dispatch (env : Env) (s : Store) (t0 : Z) (b : Payload)
    (dtok du : Doc) (sp : Speakeasy) (pool : list Credential) (login : Credential)
    (reply : Json) : Prop := {
  to_logins : reaches_logins env s t0 b dtok du sp;
  logins_stored :
    s SlackSpeakeasyData !! "logins"
    = Some {| doc_value := Some (Creds pool); doc_speakeasy := None |};
  login_drawn : pool !! floor_random_times env (length pool) = Some login;
  signed_in : http env (sign_in login) = Answer (Some reply);
}.

(** The pipeline state the credential stages receive. *)
Definition recorded_state (env : Env) (t0 : Z) (b : Payload) (dtok du : Doc) : Speakeasy.St.t :=
  Speakeasy.set_user
    (Speakeasy.unshift (new_attempt env t0 b) (unmarshalItem (user_id b) du))
    (Speakeasy.set_canonicalToken (doc_value dtok)
       (Speakeasy.initial_state b (JS.split " " (text b)))).

(** The number of user records whose pass is active at [now], as the handlers
    count them; [None] when a record has no [speakeasy] document. *)
Definition active_passes (now : Z) (s : Store) : option nat :=
  length <$> Speakeasy.havePasses now (db_scan s).

(** The line of the status report for one door: a warning when the peek
    fails in transport, the door's own answer otherwise. *)
Definition door_line (env : Env) (headers : option Headers) (door : Door) : string :=
  match http env (Peek (code door) headers) with
  | NetErr _ => Speakeasy.warning_line door
  | Answer (Some body) => Speakeasy.status_line door body
  | Answer None => ""
  end.

(** The peek of the door is answered by a transport error or a JSON body. *)
Definition peek_answers (env : Env) (headers : option Headers) (door : Door) : bool :=
  match http env (Peek (code door) headers) with
  | Answer None => false
  | _ => true
  end.

(** Every user record carries a [speakeasy] document. *)
Definition records_complete (s : Store) : bool :=
  forallb (fun it => match speakeasy it with Some _ => true | None => false end) (db_scan s).

(** What [StatusHandler] appends to the door lines at instant [now]. *)
Definition pass_summary (env : Env) (now : Z) (passes : nat) (userExpires : option Z) : string :=
  "Right now, there are " +:+ JS.showZ (Z.of_nat passes)
  +:+ " passes checked out, out of " +:+ JS.showZ (Z.of_nat Speakeasy.N_PASSES)
  +:+ " total." +:+ JS.nl
  +:+ match userExpires with
      | Some e =>
          if e <? now
          then "Your last pass expired " +:+ relative env e now +:+ ". "
               +:+ "Run `/speakeasy checkout` to get a new one."
          else "You have an active pass which expires " +:+ relative env e now +:+ "."
      | None => "You haven't checked out a pass yet. Try `/speakeasy checkout` if you'd like one!"
      end.

(** The callback queued for the peek of the door at [index], issued at
    [t]. *)
Definition peek_task (env : Env) (headers : option Headers) (n : nat)
    (callback : option string -> list (option string) -> Act) (t : Z)
    (p : nat * Door) : Z * Act :=
  (t + Z.of_N (latency env (Http (Peek (code (snd p)) headers))),
   Speakeasy.on_peek (snd p)
     (async.collect (fst p) (async.iteratorCallback n (async.collected callback)))
     (http env (Peek (code (snd p)) headers))).

(** The items of a list with their indices, counted from [i]. *)
Fixpoint indexed {A : Type} (i : nat) (l : list A) : list (nat * A) :=
  match l with
  | [] => []
  | x :: rest => (i, x) :: indexed (S i) rest
  end.

(** The text of the status report: the door lines in the order of the
    catalog, one per line, then the pass summary. *)
Definition status_report (env : Env) (headers : option Headers) (now : Z) (passes : nat)
    (userExpires : option Z) : string :=
  ("I'm reading the lock statuses as follows" +:+ JS.nl
   +:+ String.concat JS.nl (door_line env headers <$> DOOR_CODES) +:+ JS.nl)
  +:+ pass_summary env now passes userExpires.

(** *** The compound door key *)

Definition west_outer : Door := {| name := "Brip West Outer"; key := "bwo"; code := "3768" |}.
Definition west_inner : Door := {| name := "Brip West Inner"; key := "bwi"; code := "3766" |}.

(** The unlock call of the door is answered by a transport error or a JSON
    body. *)
Definition unlock_answers (env : Env) (headers : option Headers) (door : Door) : bool :=
  match http env (Unlock (code door) headers) with
  | Answer None => false
  | _ => true
  end.

(** The message relayed for a door: its name, then the error of the call
    or the message of the answer. *)
Definition unlock_text (env : Env) (headers : option Headers) (door : Door) : string :=
  name door +:+ ": "
  +:+ match http env (Unlock (code door) headers) with
      | NetErr err => err
      | Answer (Some body) => JS.interp (message body)
      | Answer None => ""
      end.

(** The instant the unlock call of a door issued at [t] is answered. *)
Definition answered (env : Env) (headers : option Headers) (t : Z) (door : Door) : Z :=
  t + Z.of_N (latency env (Http (Unlock (code door) headers))).

(** The timers [UnlockHandler] sets at [t] for the compound key. *)
Definition outer_timer (t : Z) : Z := t + 10.
Definition inner_timer (t : Z) : Z := t + 10000.


(** The relays that carry a text, with the instant of each. *)
Fixpoint timed_texts (tr : list (Z * Effect)) : list (Z * string) :=
  match tr with
  | [] => []
  | (t, Http (SlackPost _ (Some text))) :: rest => (t, text) :: timed_texts rest
  | _ :: rest => timed_texts rest
  end.


(** *** Messages of the stages that turn a request away *)

Definition token_missing_message : string :=
  "I can't confirm that this request is originating from Slack.".

Definition user_missing_message : string :=
  "I can't find a record of you in my database. Please contact Mike to have your access to this service enabled.".

Definition extended_message : string := "Your pass has been extended for 24 hours. Enjoy!".

Definition no_pass_message : string :=
  "Please run `/speakeasy checkout` to get a pass to access the SpeakEasy.".

Definition expired_pass_message : string :=
  "Your pass has expired. Re-run `/speakeasy checkout` to assign yourself a new pass.".

(** What the pass gate of [UnlockHandler] answers at instant [now] to a user
    whose pass does not let them in. *)
Definition pass_refusal (now : Z) (sp : Speakeasy) : option string :=
  match expires sp with
  | None => Some no_pass_message
  | Some e => if e <? now then Some expired_pass_message else None
  end.

(** [moment().diff(moment(last), 'seconds')]: whole seconds, truncated
    toward zero. *)
Definition seconds_since (now last : Z) : Z := Z.quot (now - last) 1000.

(** What the earlier revision of [CheckCallingUser] decides at [now]. *)
Definition cooling_down (now : Z) (sp : Speakeasy) : bool :=
  match lastAccess sp with
  | Some last => seconds_since now last <? 60
  | None => false
  end.

Definition cooldown_message (remaining : Z) : string :=
  "Requests to this service are limited to one every 60 seconds. Please wait "
  +:+ JS.showZ remaining +:+ " seconds.".

(** The last callback of the waterfall of the earlier revision. *)
Definition sync_answer (r : Outcome (option string)) : Act :=
  match r with
  | Err err => SpeakeasySync.respond (Some err)
  | Next message => SpeakeasySync.respond message
  end.

(** A request to the earlier revision that is not a help request, carries
    the canonical token and comes from a known, enabled user. *)
Record sync_reaches_user (env : Env) (s : Store) (t0 : Z) (b : Payload)
    (dtok du : Doc) (sp : Speakeasy) : Prop := {
  sync_not_help : first_is (JS.split " " (text b)) "help" = false;
  sync_token_read : fault env (DbGet SlackSpeakeasyData "slack_auth_token") = None;
  sync_token_stored : s SlackSpeakeasyData !! "slack_auth_token" = Some dtok;
  sync_token_same : Speakeasy.token_differs (doc_value dtok) (token b) = false;
  sync_user_read : fault env (DbGet TFoSlackUsers (user_id b)) = None;
  sync_user_stored : s TFoSlackUsers !! user_id b = Some du;
  sync_user_doc : doc_speakeasy du = Some sp;
  sync_user_enabled : enabled sp = true;
}.

(** The stamp the earlier revision of [RegisterUserAttempt] writes. *)
Definition sync_stamp (env : Env) (t0 : Z) (b : Payload) : Update :=
  SetLastAccess (t_user env t0 b).

(** The request moreover is outside the cooldown, its stamp is written and
    the pool yields a login. *)
Record sync_reaches_sign_in (env : Env) (s : Store) (t0 : Z) (b : Payload)
    (dtok du : Doc) (sp : Speakeasy) (pool : list Credential) (login : Credential) : Prop := {
  sync_to_user : sync_reaches_user env s t0 b dtok du sp;
  sync_cooled : cooling_down (t_user env t0 b) sp = false;
  sync_stamp_written : fault env (DbUpdate (user_id b) (sync_stamp env t0 b)) = None;
  sync_logins_read : fault env (DbGet SlackSpeakeasyData "logins") = None;
  sync_logins_stored :
    s SlackSpeakeasyData !! "logins"
    = Some {| doc_value := Some (Creds pool); doc_speakeasy := None |};
  sync_login_drawn : pool !! floor_random_times env (length pool) = Some login;
}.

(** The sign-in moreover is answered with a JSON body. *)
Record sync_reaches_dispatch (env : Env) (s : Store) (t0 : Z) (b : Payload)
    (dtok du : Doc) (sp : Speakeasy) (pool : list Credential) (login : Credential)
    (reply : Json) : Prop := {
  sync_to_sign_in : sync_reaches_sign_in env s t0 b dtok du sp pool login;
  sync_signed_in : http env (sign_in login) = Answer (Some reply);
}.

(** The users table once the stamp is written. *)
Definition sync_stamped (env : Env) (t0 : Z) (b : Payload) (s : Store) (du : Doc) (sp : Speakeasy)
    : Store :=
  put_user s (user_id b)
    {| doc_value := doc_value du;
       doc_speakeasy := Some (apply_update (sync_stamp env t0 b) sp) |}.

Definition sync_t_stamped (env : Env) (t0 : Z) (b : Payload) : Z :=
  t_user env t0 b + Z.of_N (latency env (DbUpdate (user_id b) (sync_stamp env t0 b))).

Definition sync_t_logins (env : Env) (t0 : Z) (b : Payload) : Z :=
  sync_t_stamped env t0 b + Z.of_N (latency env (DbGet SlackSpeakeasyData "logins")).

(** The instant the handler of the earlier revision runs. *)
Definition sync_t_dispatch (env : Env) (t0 : Z) (b : Payload) (login : Credential) : Z :=
  sync_t_logins env t0 b + Z.of_N (latency env (Http (sign_in login))).

(** The effects of the earlier revision before its handler runs. *)
Definition sync_prefix (env : Env) (t0 : Z) (b : Payload) (login : Credential)
    : list (Z * Effect) :=
  [ (t0, DbGet SlackSpeakeasyData "slack_auth_token");
    (t_token env t0, DbGet TFoSlackUsers (user_id b));
    (t_user env t0 b, DbUpdate (user_id b) (sync_stamp env t0 b));
    (sync_t_stamped env t0 b, DbGet SlackSpeakeasyData "logins");
    (sync_t_logins env t0 b, Http (sign_in login)) ].

(** What the earlier revision answers to an unlock of [door]: the message
    of the lock API, or the transport error. *)
Definition sync_unlock_answer (env : Env) (headers : Headers) (door : Door) : option string :=
  match http env (Unlock (code door) (Some headers)) with
  | NetErr err => Some err
  | Answer (Some body) => message body
  | Answer None => None
  end.

(** The line of the earlier revision for one door. *)
Definition sync_door_line (env : Env) (headers : Headers) (door : Door) : string :=
  match http env (Peek (code door) (Some headers)) with
  | NetErr _ => name door +:+ " [" +:+ key door +:+ "]:" +:+ JS.nl +:+ " A bad error occurred."
  | Answer (Some body) =>
      name door +:+ " [" +:+ key door +:+ "]:" +:+ JS.nl +:+ " " +:+ JS.interp (message body)
  | Answer None => ""
  end.

(** The callback queued for the peek of the door at [index], issued at [t]
    by the earlier revision. *)
Definition sync_peek_task (env : Env) (headers : Headers) (n : nat)
    (callback : option string -> list (option string) -> Act) (t : Z)
    (p : nat * Door) : Z * Act :=
  let door := snd p in
  let doorDone := async.collect (fst p) (async.iteratorCallback n (async.collected callback)) in
  (t + Z.of_N (latency env (Http (Peek (code door) (Some headers)))),
   match http env (Peek (code door) (Some headers)) with
   | NetErr err =>
       ConsoleError (doorDone None
         (Some (name door +:+ " [" +:+ key door +:+ "]:" +:+ JS.nl +:+ " A bad error occurred.")))
   | Answer None => Throw "SyntaxError: Unexpected token in JSON"
   | Answer (Some body) =>
       doorDone None
         (Some (name door +:+ " [" +:+ key door +:+ "]:" +:+ JS.nl +:+ " " +:+ JS.interp (message body)))
   end).

(** The callback of the [async.map] in the earlier [StatusHandler]. *)
Definition sync_on_statuses (done : Outcome (option string) -> Act)
    (err : option string) (doorStatuses : list (option string)) : Act :=
  match err with
  | Some _ => ConsoleError (done (Err "An error occurred... let Mike know."))
  | None =>
      let message := reduce_statuses 0 doorStatuses "" in
      done (Err ("I'm reading the lock statuses as follows" +:+ JS.nl
                 +:+ "```" +:+ JS.nl
                 +:+ message +:+ JS.nl
                 +:+ "```" +:+ JS.nl
                 +:+ "If any of those look off, its possible your phone could still work to unlock it, but not guaranteed."))
  end.

(** The status text of the earlier revision. *)
Definition sync_status_report (env : Env) (headers : Headers) : string :=
  "I'm reading the lock statuses as follows" +:+ JS.nl
  +:+ "```" +:+ JS.nl
  +:+ String.concat JS.nl (sync_door_line env headers <$> DOOR_CODES) +:+ JS.nl
  +:+ "```" +:+ JS.nl
  +:+ "If any of those look off, its possible your phone could still work to unlock it, but not guaranteed.".

(** The commands the rate limiter does not count. *)
Definition uncounted (a : Attempt) : Prop := includes Speakeasy.rate_limited_ops (op a) = false.

(** The users table once a checkout has extended the caller's pass until
    [granted]. *)
Definition extended (env : Env) (t0 : Z) (b : Payload) (s : Store) (du : Doc) (sp : Speakeasy)
    (granted : Z) : Store :=
  put_user (recorded env t0 b s du sp) (user_id b)
    {| doc_value := doc_value du;
       doc_speakeasy :=
         Some (apply_update (SetExpires granted)
                 (apply_update (SetAttempts (written env t0 b sp)) sp)) |}.

(** The line of the status report for one door, written out: the warning
    for a peek that fails in transport, else the door's answer with a
    thumb up when the answer is [Access not restricted!]. *)
Definition catalog_line (env : Env) (headers : option Headers) (door : Door) : string :=
  match http env (Peek (code door) headers) with
  | NetErr _ =>
      ":warning: " +:+ name door +:+ " [`" +:+ key door +:+ "`]: `A bad error occurred.`"
  | Answer (Some body) =>
      (match message body with
       | Some m => if String.eqb m "Access not restricted!" then ":+1:" else ":no_good:"
       | None => ":no_good:"
       end)
      +:+ " " +:+ name door +:+ " [`" +:+ key door +:+ "`]: `"
      +:+ JS.interp (message body) +:+ "`"
  | Answer None => ""
  end.

(** *** Sample worlds *)

Module Sample.

Definition settings : gmap string Doc :=
  {[ "slack_auth_token" := {| doc_value := Some (Str "xoxb-canonical"); doc_speakeasy := None |};
     "logins" := {| doc_value := Some (Creds [ {| username := "bot@tfo"; password := "hunter2" |} ]);
                    doc_speakeasy := None |} ]}.

(** An enabled member whose pass runs until instant 90000000. *)
Definition member (history : option (list Attempt)) : Doc :=
  {| doc_value := None;
     doc_speakeasy := Some {| enabled := true; disableRateLimiting := false;
                              attempts := history; expires := Some 90000000;
                              lastAccess := None |} |}.

Definition tables (users : gmap string Doc) : Store :=
  fun t => match t with
           | SlackSpeakeasyData => settings
           | TFoSlackUsers => users
           end.

(** A world in which every call succeeds within 5 ms and every door
    answers [Unlocked!]. *)
Definition calm : Env :=
  {| fault := fun _ => None;
     http := fun r =>
       match r with
       | SignIn _ _ => Answer (Some {| message := None; secret := Some "s3cr3t" |})
       | _ => Answer (Some {| message := Some "Unlocked!"; secret := None |})
       end;
     latency := fun _ => 5%N;
     random53 := 4242;
     relative := fun _ _ => "in a day" |}.

(** A world in which DynamoDB is down. *)
Definition store_down : Env :=
  {| fault := fun _ => Some "ServiceUnavailable";
     http := http calm; latency := latency calm; random53 := 0; relative := relative calm |}.

Definition request (cmd txt : string) (tok : option string) : Payload :=
  {| text := txt; command := cmd; token := tok; user_id := "U1";
     response_url := "https://hooks.slack.com/commands/1" |}.

(** Three recent attempts of the member [U1] at the instants 1, 2 and 3. *)
Definition busy_history : list Attempt :=
  [ {| at_ := 3; op := "unlock" |}; {| at_ := 2; op := "status" |}; {| at_ := 1; op := "unlock" |} ].

(** The canonical token, and a pool that holds no login. *)
Definition settings_empty_pool : gmap string Doc :=
  {[ "slack_auth_token" := {| doc_value := Some (Str "xoxb-canonical"); doc_speakeasy := None |};
     "logins" := {| doc_value := Some (Creds []); doc_speakeasy := None |} ]}.

Definition tables_empty_pool (users : gmap string Doc) : Store :=
  fun t => match t with
           | SlackSpeakeasyData => settings_empty_pool
           | TFoSlackUsers => users
           end.

Definition member_doc (history : option (list Attempt)) : Speakeasy :=
  {| enabled := true; disableRateLimiting := false; attempts := history;
     expires := Some 90000000; lastAccess := None |}.

Definition token_doc : Doc :=
  {| doc_value := Some (Str "xoxb-canonical"); doc_speakeasy := None |}.

Definition bot : Credential := {| username := "bot@tfo"; password := "hunter2" |}.

Definition signed : Json := {| message := None; secret := Some "s3cr3t" |}.

(** Ten members with an active pass, [U1] among them. *)
Definition full_house : gmap string Doc :=
  list_to_map
    ((fun k => (k, member None))
       <$> ["U1"; "U2"; "U3"; "U4"; "U5"; "U6"; "U7"; "U8"; "U9"; "U10"]).

(** A world like [calm] in which the outer west door cannot be reached, and
    the doors answer in the reverse order of the catalog. *)
Definition outer_unreachable : Env :=
  {| fault := fun _ => None;
     http := fun r =>
       match r with
       | SignIn _ _ => Answer (Some {| message := None; secret := Some "s3cr3t" |})
       | Peek "3768" _ => NetErr "Error: connect ETIMEDOUT"
       | Peek _ _ => Answer (Some {| message := Some "Access not restricted!"; secret := None |})
       | _ => Answer (Some {| message := Some "Unlocked!"; secret := None |})
       end;
     latency := fun e =>
       match e with
       | Http (Peek "3768" _) => 5000%N
       | Http (Peek "3766" _) => 400%N
       | Http (Peek "3767" _) => 300%N
       | Http (Peek "3641" _) => 200%N
       | Http (Peek "3640" _) => 100%N
       | _ => 5%N
       end;
     random53 := 4242;
     relative := fun _ _ => "in a day" |}.


(** A world like [calm] in which the unlock call of the inner west door
    fails in transport. *)
Definition inner_fails : Env :=
  {| fault := fun _ => None;
     http := fun r =>
       match r with
       | Unlock "3766" _ => NetErr "Error: socket hang up"
       | _ => http calm r
       end;
     latency := latency calm;
     random53 := 4242;
     relative := fun _ _ => "in a day" |}.

(** A world like [calm] in which DynamoDB refuses every update. *)
Definition updates_fail : Env :=
  {| fault := fun e => match e with
                       | DbUpdate _ _ => Some "ProvisionedThroughputExceededException"
                       | _ => None
                       end;
     http := http calm; latency := latency calm; random53 := 4242; relative := relative calm |}.

(** A world like [calm] in which the sign-in fails in transport. *)
Definition sign_in_fails : Env :=
  {| fault := fun _ => None;
     http := fun r => match r with
                      | SignIn _ _ => NetErr "Error: getaddrinfo ENOTFOUND api.getkisi.com"
                      | _ => http calm r
                      end;
     latency := latency calm; random53 := 4242; relative := relative calm |}.

(** A world like [calm] in which the sign-in is answered with a page that
    is not JSON. *)
Definition sign_in_garbled : Env :=
  {| fault := fun _ => None;
     http := fun r => match r with
                      | SignIn _ _ => Answer None
                      | _ => http calm r
                      end;
     latency := latency calm; random53 := 4242; relative := relative calm |}.

(** A world like [calm] in which the scan of the users table fails. *)
Definition scan_fails : Env :=
  {| fault := fun e => match e with
                       | DbScan => Some "InternalServerError"
                       | _ => None
                       end;
     http := http calm; latency := latency calm; random53 := 4242; relative := relative calm |}.

(** A member who never checked out a pass, and one whose pass ran out at
    instant 10. *)
Definition newcomer : Speakeasy :=
  {| enabled := true; disableRateLimiting := false; attempts := None;
     expires := None; lastAccess := None |}.

Definition lapsed : Speakeasy :=
  {| enabled := true; disableRateLimiting := false; attempts := None;
     expires := Some 10; lastAccess := None |}.

Definition doc_of (sp : Speakeasy) : Doc := {| doc_value := None; doc_speakeasy := Some sp |}.

(** A member of the earlier revision whose last request was stamped at
    instant 5. *)
Definition regular : Speakeasy :=
  {| enabled := true; disableRateLimiting := false; attempts := None;
     expires := None; lastAccess := Some 5 |}.

(** A world like [calm] in which the unlock calls are answered with a page
    that is not JSON. *)
Definition unlock_garbled : Env :=
  {| fault := fun _ => None;
     http := fun r => match r with
                      | Unlock _ _ => Answer None
                      | _ => http calm r
                      end;
     latency := latency calm; random53 := 4242; relative := relative calm |}.

End Sample.

(** * Properties *)

(** ** The event loop *)

Lemma split_not_nil sep s : JS.split sep s <> [].
Proof.
  destruct s as [|c s]; simpl; [discriminate|].
  destruct (Ascii.eqb c sep); [discriminate|].
  destruct (JS.split sep s); discriminate.
Qed.

Lemma split_length sep s : (length (JS.split sep s) =? 0)%nat = false.
Proof.
  pose proof (split_not_nil sep s) as H.
  destruct (JS.split sep s); [congruence | reflexivity].
Qed.

Lemma loop_idle fuel env t s l tr : loop fuel env (idle t s l tr) = idle t s l tr.
Proof. destruct fuel; reflexivity. Qed.

Lemma loop_crashed fuel env m : crashed m = true -> loop fuel env m = m.
Proof. intros H. destruct fuel; simpl; [reflexivity | now rewrite H]. Qed.

(** An asynchronous call made by an idle process: the loop's next turn runs
    its callback at the instant the reply arrives. *)
Lemma turn_GetItem f env tb k cb t s l tr :
  loop (S f) env (exec env (GetItem tb k cb) (idle t s l tr)) =
  loop f env
    (exec env
       (cb match fault env (DbGet tb k) with
           | Some err => Failed err
           | None => Returned (db_getItem s tb k)
           end)
       (idle (t + Z.of_N (latency env (DbGet tb k))) s l (tr ++ [(t, DbGet tb k)]))).
Proof. reflexivity. Qed.

Lemma turn_Scan f env cb t s l tr :
  loop (S f) env (exec env (Scan cb) (idle t s l tr)) =
  loop f env
    (exec env
       (cb match fault env DbScan with
           | Some err => Failed err
           | None => Returned (db_scan s)
           end)
       (idle (t + Z.of_N (latency env DbScan)) s l (tr ++ [(t, DbScan)]))).
Proof. reflexivity. Qed.

Lemma turn_Request f env r cb t s l tr :
  loop (S f) env (exec env (Request r cb) (idle t s l tr)) =
  loop f env
    (exec env (cb (http env r))
       (idle (t + Z.of_N (latency env (Http r))) s l (tr ++ [(t, Http r)]))).
Proof. reflexivity. Qed.

Lemma turn_UpdateItem_ok f env k u cb t s s' l tr :
  fault env (DbUpdate k u) = None ->
  db_updateItem s k u = Some s' ->
  loop (S f) env (exec env (UpdateItem k u cb) (idle t s l tr)) =
  loop f env
    (exec env (cb (Returned tt))
       (idle (t + Z.of_N (latency env (DbUpdate k u))) s' l (tr ++ [(t, DbUpdate k u)]))).
Proof. intros Hf Hu. cbn [exec idle store]. rewrite Hf, Hu. reflexivity. Qed.

Lemma turn_UpdateItem_fault f env k u cb t s l tr err :
  fault env (DbUpdate k u) = Some err ->
  loop (S f) env (exec env (UpdateItem k u cb) (idle t s l tr)) =
  loop f env
    (exec env (cb (Failed err))
       (idle (t + Z.of_N (latency env (DbUpdate k u))) s l (tr ++ [(t, DbUpdate k u)]))).
Proof. intros Hf. cbn [exec idle store]. rewrite Hf. reflexivity. Qed.

Lemma exec_succeed env code body t s l tr :
  exec env (ContextSucceedWith code body) (idle t s l tr) =
  idle t s l (tr ++ [(t, ContextSucceed code body)]).
Proof. reflexivity. Qed.

Lemma exec_throw env e t s l tr :
  exec env (Throw e) (idle t s l tr) =
  {| clock := t; queue := []; store := s; local := l;
     trace := tr ++ [(t, Uncaught e)]; crashed := true |}.
Proof. reflexivity. Qed.

(** ** The stages of the pass-based pipeline, one turn of the loop each *)

Section Stages.

Import Speakeasy.

Context (env : Env).

Lemma respond_then_finish f b msg t s l tr :
  loop (S f) env (exec env (respond b msg (fun _ => finish)) (idle t s l tr)) =
  idle (t + Z.of_N (latency env (Http (SlackPost (response_url b) msg)))) s l
    (tr ++ [(t, Http (SlackPost (response_url b) msg))]
        ++ [(t + Z.of_N (latency env (Http (SlackPost (response_url b) msg))),
             ContextSucceed 200 (Some ""))]).
Proof.
  unfold respond. rewrite turn_Request. unfold finish. rewrite exec_succeed, loop_idle.
  now rewrite <- app_assoc.
Qed.

Lemma deliver_error f b err t s l tr :
  loop (S f) env (exec env (deliver b (Err err)) (idle t s l tr)) =
  idle (t + Z.of_N (latency env (Http (SlackPost (response_url b) (Some err))))) s l
    (tr ++ [(t, Http (SlackPost (response_url b) (Some err)))]
        ++ [(t + Z.of_N (latency env (Http (SlackPost (response_url b) (Some err)))),
             ContextSucceed 200 (Some ""))]).
Proof. unfold deliver. cbn [exec]. apply respond_then_finish. Qed.

Lemma deliver_message f b msg t s l tr :
  loop (S f) env (exec env (deliver b (Next msg)) (idle t s l tr)) =
  idle (t + Z.of_N (latency env (Http (SlackPost (response_url b) msg)))) s l
    (tr ++ [(t, Http (SlackPost (response_url b) msg))]
        ++ [(t + Z.of_N (latency env (Http (SlackPost (response_url b) msg))),
             ContextSucceed 200 (Some ""))]).
Proof. unfold deliver. apply respond_then_finish. Qed.

Lemma GetSlackAuthToken_found f st done t s l tr d :
  fault env (DbGet SlackSpeakeasyData "slack_auth_token") = None ->
  s SlackSpeakeasyData !! "slack_auth_token" = Some d ->
  loop (S f) env (exec env (GetSlackAuthToken st done) (idle t s l tr)) =
  loop f env
    (exec env (done (Next (set_canonicalToken (doc_value d) st)))
       (idle (t + Z.of_N (latency env (DbGet SlackSpeakeasyData "slack_auth_token"))) s l
          (tr ++ [(t, DbGet SlackSpeakeasyData "slack_auth_token")]))).
Proof.
  intros Hf Hs. unfold GetSlackAuthToken. rewrite turn_GetItem, Hf.
  unfold db_getItem. rewrite Hs. reflexivity.
Qed.

Lemma exec_CheckSlackAuthToken st done m :
  exec env (CheckSlackAuthToken st done) m =
  exec env
    (done (if token_differs (St.canonicalToken st) (St.token st)
           then Err auth_mismatch_message else Next st)) m.
Proof. unfold CheckSlackAuthToken. now destruct token_differs. Qed.

Lemma GetCallingUser_found f st done t s l tr d :
  fault env (DbGet TFoSlackUsers (id (St.user st))) = None ->
  s TFoSlackUsers !! id (St.user st) = Some d ->
  loop (S f) env (exec env (GetCallingUser st done) (idle t s l tr)) =
  loop f env
    (exec env (done (Next (set_user (unmarshalItem (id (St.user st)) d) st)))
       (idle (t + Z.of_N (latency env (DbGet TFoSlackUsers (id (St.user st))))) s l
          (tr ++ [(t, DbGet TFoSlackUsers (id (St.user st)))]))).
Proof.
  intros Hf Hs. unfold GetCallingUser. rewrite turn_GetItem, Hf.
  unfold db_getItem. rewrite Hs. reflexivity.
Qed.

Lemma exec_CheckCallingUser st done t s l tr :
  exec env (CheckCallingUser st done) (idle t s l tr) =
  exec env
    (done (if negb (get_enabled (St.user st)) then Err rollout_message
           else if throttled t (St.user st) then Err rate_limit_message
           else Next st))
    (idle t s l tr).
Proof.
  unfold CheckCallingUser, throttled.
  destruct (get_enabled (St.user st)); cbn [negb]; [|reflexivity].
  destruct (get_attempts (St.user st)) as [a|]; [|reflexivity].
  destruct ((length a <? 3)%nat || get_disableRateLimiting (St.user st)); [reflexivity|].
  cbn [exec idle clock]. now destruct (3 <=? length (lastMinute t a))%nat.
Qed.

Lemma RegisterUserAttempt_stored f st done t s s' l tr :
  let entry := {| at_ := t; op := St.command st |} in
  let written := record_attempt entry (get_attempts (St.user st)) in
  marshals written = true ->
  fault env (DbUpdate (id (St.user st)) (SetAttempts written)) = None ->
  db_updateItem s (id (St.user st)) (SetAttempts written) = Some s' ->
  loop (S f) env (exec env (RegisterUserAttempt st done) (idle t s l tr)) =
  loop f env
    (exec env (done (Next (set_user (unshift entry (St.user st)) st)))
       (idle (t + Z.of_N (latency env (DbUpdate (id (St.user st)) (SetAttempts written))))
          s' l (tr ++ [(t, DbUpdate (id (St.user st)) (SetAttempts written))]))).
Proof.
  intros entry written Hm Hf Hu. unfold RegisterUserAttempt.
  cbn [exec idle clock]. fold entry. fold written. rewrite Hm. cbn [exec idle].
  assert (Hid : id (St.user (set_user (unshift entry (St.user st)) st)) = id (St.user st)).
  { cbn [St.user set_user]. unfold unshift.
    destruct (speakeasy (St.user st)) as [sp|]; [|reflexivity].
    now destruct (attempts sp). }
  rewrite Hid. rewrite Hf.
  change (store (idle t s l tr)) with s. rewrite Hu. reflexivity.
Qed.

Lemma GetLogins_found f st done t s l tr d :
  fault env (DbGet SlackSpeakeasyData "logins") = None ->
  s SlackSpeakeasyData !! "logins" = Some d ->
  loop (S f) env (exec env (GetLogins st done) (idle t s l tr)) =
  loop f env
    (exec env (done (Next (set_logins (doc_value d) st)))
       (idle (t + Z.of_N (latency env (DbGet SlackSpeakeasyData "logins"))) s l
          (tr ++ [(t, DbGet SlackSpeakeasyData "logins")]))).
Proof.
  intros Hf Hs. unfold GetLogins. rewrite turn_GetItem, Hf.
  unfold db_getItem. rewrite Hs. reflexivity.
Qed.

Lemma GetLogins_missing f st done t s l tr :
  fault env (DbGet SlackSpeakeasyData "logins") = None ->
  s SlackSpeakeasyData !! "logins" = None ->
  loop (S f) env (exec env (GetLogins st done) (idle t s l tr)) =
  loop f env
    (exec env (done (Err logins_missing_message))
       (idle (t + Z.of_N (latency env (DbGet SlackSpeakeasyData "logins"))) s l
          (tr ++ [(t, DbGet SlackSpeakeasyData "logins")]))).
Proof.
  intros Hf Hs. unfold GetLogins. rewrite turn_GetItem, Hf.
  unfold db_getItem. rewrite Hs. reflexivity.
Qed.

Lemma Login_signs_in f st done t s l tr pool login :
  St.logins st = Some (Creds pool) ->
  pool !! floor_random_times env (length pool) = Some login ->
  loop (S f) env (exec env (Login st done) (idle t s l tr)) =
  loop f env
    (exec env
       (on_sign_in st done (http env (SignIn (Some (username login)) (Some (password login)))))
       (idle (t + Z.of_N (latency env (Http (SignIn (Some (username login)) (Some (password login))))))
          s l (tr ++ [(t, Http (SignIn (Some (username login)) (Some (password login))))]))).
Proof.
  intros Hl Hp. unfold Login. rewrite Hl. cbn [exec]. rewrite Hp.
  now rewrite turn_Request.
Qed.

End Stages.

(** ** The pipeline up to the dispatcher *)

Lemma waterfall_cons {A : Type} (task : A -> (Outcome A -> Act) -> Act) rest a callback :
  async.waterfall (task :: rest) a callback =
  task a (fun r =>
    match r with
    | Err err => callback (Err err)
    | Next a' => async.waterfall rest a' callback
    end).
Proof. reflexivity. Qed.

Lemma waterfall_nil {A : Type} (a : A) callback :
  async.waterfall [] a callback = callback (Next a).
Proof. reflexivity. Qed.

Lemma db_updateItem_stored s k u d sp :
  s TFoSlackUsers !! k = Some d ->
  doc_speakeasy d = Some sp ->
  db_updateItem s k u
  = Some (put_user s k {| doc_value := doc_value d; doc_speakeasy := Some (apply_update u sp) |}).
Proof. intros Hs Hd. unfold db_updateItem. now rewrite Hs, Hd. Qed.

Lemma handle_enters_pipeline b :
  first_is (JS.split " " (text b)) "help" = false ->
  Speakeasy.handle {| body := Some b |} =
  async.waterfall
    [Speakeasy.GetSlackAuthToken; Speakeasy.CheckSlackAuthToken; Speakeasy.GetCallingUser;
     Speakeasy.CheckCallingUser; Speakeasy.RegisterUserAttempt; Speakeasy.GetLogins;
     Speakeasy.Login]
    (Speakeasy.initial_state b (JS.split " " (text b)))
    (fun r =>
       match r with
       | Err err => Speakeasy.deliver b (Err err)
       | Next state => Speakeasy.GetDispatchHandler state (Speakeasy.deliver b)
       end).
Proof. intros H. unfold Speakeasy.handle. cbn [body]. now rewrite split_length, H. Qed.

Lemma reach_rate_limiter env s t0 b dtok du f :
  first_is (JS.split " " (text b)) "help" = false ->
  fault env (DbGet SlackSpeakeasyData "slack_auth_token") = None ->
  s SlackSpeakeasyData !! "slack_auth_token" = Some dtok ->
  Speakeasy.token_differs (doc_value dtok) (token b) = false ->
  fault env (DbGet TFoSlackUsers (user_id b)) = None ->
  s TFoSlackUsers !! user_id b = Some du ->
  invoke (S (S f)) env s t0 (Speakeasy.handle {| body := Some b |}) =
  loop f env
    (exec env
       (async.waterfall
          [Speakeasy.CheckCallingUser; Speakeasy.RegisterUserAttempt; Speakeasy.GetLogins;
           Speakeasy.Login]
          (Speakeasy.set_user (unmarshalItem (user_id b) du)
             (Speakeasy.set_canonicalToken (doc_value dtok)
                (Speakeasy.initial_state b (JS.split " " (text b)))))
          (fun r =>
             match r with
             | Err err => Speakeasy.deliver b (Err err)
             | Next state => Speakeasy.GetDispatchHandler state (Speakeasy.deliver b)
             end))
       (idle (t_user env t0 b) s no_local
          [(t0, DbGet SlackSpeakeasyData "slack_auth_token");
           (t_token env t0, DbGet TFoSlackUsers (user_id b))])).
Proof.
  intros Hh Hf1 Hs1 Htok Hf2 Hs2.
  unfold invoke. rewrite handle_enters_pipeline by assumption.
  change (boot s t0) with (idle t0 s no_local []).
  rewrite waterfall_cons.
  rewrite (GetSlackAuthToken_found env) with (d := dtok) by assumption.
  cbv beta iota. rewrite waterfall_cons, exec_CheckSlackAuthToken.
  cbn [Speakeasy.St.canonicalToken Speakeasy.St.token Speakeasy.set_canonicalToken
       Speakeasy.initial_state].
  rewrite Htok. cbv beta iota. rewrite waterfall_cons.
  rewrite (GetCallingUser_found env) with (d := du) by assumption.
  reflexivity.
Qed.

Lemma reach_logins env s t0 b dtok du sp f :
  reaches_logins env s t0 b dtok du sp ->
  invoke (S (S (S f))) env s t0 (Speakeasy.handle {| body := Some b |}) =
  loop f env
    (exec env
       (async.waterfall [Speakeasy.GetLogins; Speakeasy.Login]
          (recorded_state env t0 b dtok du)
          (fun r =>
             match r with
             | Err err => Speakeasy.deliver b (Err err)
             | Next state => Speakeasy.GetDispatchHandler state (Speakeasy.deliver b)
             end))
       (idle (t_recorded env t0 b sp) (recorded env t0 b s du sp) no_local
          (prefix_logins env t0 b sp))).
Proof.
  intros [Hh Hf1 Hs1 Htok Hf2 Hs2 Hdoc Hen Hlim Hm Hf3 Hf4].
  rewrite (reach_rate_limiter env s t0 b dtok du) by assumption.
  rewrite waterfall_cons, exec_CheckCallingUser.
  cbn [Speakeasy.St.user Speakeasy.set_user].
  unfold Speakeasy.get_enabled. cbn [speakeasy unmarshalItem]. rewrite Hdoc, Hen, Hlim.
  cbn [negb]. cbv beta iota. rewrite waterfall_cons.
  assert (Hatt : Speakeasy.get_attempts (unmarshalItem (user_id b) du) = attempts sp).
  { unfold Speakeasy.get_attempts. cbn [speakeasy unmarshalItem]. now rewrite Hdoc. }
  erewrite (RegisterUserAttempt_stored env); cycle 1.
  { cbn [Speakeasy.St.user Speakeasy.set_user Speakeasy.St.command
         Speakeasy.set_canonicalToken Speakeasy.initial_state id unmarshalItem].
    rewrite Hatt. exact Hm. }
  { cbn [Speakeasy.St.user Speakeasy.set_user Speakeasy.St.command
         Speakeasy.set_canonicalToken Speakeasy.initial_state id unmarshalItem].
    rewrite Hatt. exact Hf3. }
  { cbn [Speakeasy.St.user Speakeasy.set_user Speakeasy.St.command
         Speakeasy.set_canonicalToken Speakeasy.initial_state id unmarshalItem].
    rewrite Hatt. apply db_updateItem_stored; eassumption. }
  cbn [Speakeasy.St.user Speakeasy.set_user Speakeasy.St.command
       Speakeasy.set_canonicalToken Speakeasy.initial_state id unmarshalItem].
  rewrite Hatt. reflexivity.
Qed.

Lemma reach_dispatch env s t0 b dtok du sp pool login reply f :
  reaches_dispatch env s t0 b dtok du sp pool login reply ->
  invoke (S (S (S (S (S f))))) env s t0 (Speakeasy.handle {| body := Some b |}) =
  loop f env
    (exec env
       (Speakeasy.GetDispatchHandler (dispatched env t0 b dtok du pool reply)
          (Speakeasy.deliver b))
       (idle (t_dispatch env t0 b sp login) (recorded env t0 b s du sp) no_local
          (prefix env t0 b sp login))).
Proof.
  intros [Hl Hs4 Hdraw Hsign].
  rewrite (reach_logins env s t0 b dtok du sp) by assumption.
  destruct Hl as [Hh Hf1 Hs1 Htok Hf2 Hs2 Hdoc Hen Hlim Hm Hf3 Hf4].
  rewrite waterfall_cons.
  erewrite (GetLogins_found env); cycle 1.
  { assumption. }
  { exact Hs4. }
  cbn [doc_value]. cbv beta iota. rewrite waterfall_cons.
  erewrite (Login_signs_in env) by (try reflexivity; eassumption).
  fold (sign_in login). rewrite Hsign. unfold Speakeasy.on_sign_in.
  cbv beta iota. rewrite waterfall_nil. reflexivity.
Qed.

(** ** Authorization *)

Lemma token_differs_spec canonical tok :
  Speakeasy.token_differs (Some (Str canonical)) tok = true <-> tok <> Some canonical.
Proof.
  unfold Speakeasy.token_differs. destruct tok as [t|].
  - destruct (String.eqb_spec canonical t) as [->|Hne]; cbn [negb]; split; intros H;
      try congruence; try reflexivity.
  - split; [discriminate | reflexivity].
Qed.

(** C1: a request whose token is not the canonical token of the settings
    record ends at the authorization stage: whatever the request, nothing is
    written to the users table, no call to the lock API is made and the
    store is left as it was; and unless the request is a help request, the
    process reads the canonical token, posts the rejection message and
    returns, and does nothing else. *)
Theorem auth_mismatch_ends_pipeline env s t0 b d canonical fuel :
  fault env (DbGet SlackSpeakeasyData "slack_auth_token") = None ->
  s SlackSpeakeasyData !! "slack_auth_token" = Some d ->
  doc_value d = Some (Str canonical) ->
  token b <> Some canonical ->
  let m := invoke (S (S fuel)) env s t0 (Speakeasy.handle {| body := Some b |}) in
  finished m /\ crashed m = false /\ store m = s
  /\ updates (trace m) = [] /\ lock_calls (trace m) = []
  /\ (first_is (JS.split " " (text b)) "help" = false ->
      effects (trace m) =
        [ DbGet SlackSpeakeasyData "slack_auth_token";
          Http (SlackPost (response_url b) (Some Speakeasy.auth_mismatch_message));
          ContextSucceed 200 (Some "") ]).
Proof.
  intros Hf Hs Hd Ht m. subst m.
  destruct (first_is (JS.split " " (text b)) "help") eqn:Hh.
  - unfold invoke, Speakeasy.handle. cbn [body]. rewrite split_length, Hh.
    change (boot s t0) with (idle t0 s no_local []).
    rewrite respond_then_finish.
    repeat split; try reflexivity. discriminate.
  - unfold invoke. rewrite handle_enters_pipeline by assumption.
    change (boot s t0) with (idle t0 s no_local []).
    rewrite waterfall_cons.
    rewrite (GetSlackAuthToken_found env) with (d := d) by assumption.
    cbv beta iota. rewrite waterfall_cons, exec_CheckSlackAuthToken.
    cbn [Speakeasy.St.canonicalToken Speakeasy.St.token Speakeasy.set_canonicalToken
         Speakeasy.initial_state].
    rewrite Hd. apply token_differs_spec in Ht. rewrite Ht.
    cbv beta iota. rewrite deliver_error.
    repeat split; reflexivity.
Qed.

(** The store is down for nobody here: the settings record holds a token,
    the request carries another one. *)
Lemma auth_mismatch_ends_pipeline_witness :
  let m := invoke 2 Sample.calm (Sample.tables ∅) 0
             (Speakeasy.handle {| body := Some (Sample.request "unlock" "bwo" (Some "forged")) |}) in
  finished m /\ crashed m = false /\ store m = Sample.tables ∅
  /\ updates (trace m) = [] /\ lock_calls (trace m) = []
  /\ (first_is (JS.split " " "bwo") "help" = false ->
      effects (trace m) =
        [ DbGet SlackSpeakeasyData "slack_auth_token";
          Http (SlackPost "https://hooks.slack.com/commands/1"
                  (Some Speakeasy.auth_mismatch_message));
          ContextSucceed 200 (Some "") ]).
Proof.
  apply (auth_mismatch_ends_pipeline Sample.calm (Sample.tables ∅) 0
           (Sample.request "unlock" "bwo" (Some "forged"))
           {| doc_value := Some (Str "xoxb-canonical"); doc_speakeasy := None |}
           "xoxb-canonical" 0).
  - reflexivity.
  - reflexivity.
  - reflexivity.
  - discriminate.
Defined.

(** ** Help *)

(** C4: a request whose text starts with the token [help] gets the help
    text and nothing else happens, in both revisions of the lambda: no read
    of either table, no update, no call to the lock API, whatever the token
    of the request and whatever the state of the store and of the network. *)
Theorem help_bypasses_every_stage env s t0 b fuel :
  first_is (JS.split " " (text b)) "help" = true ->
  let m := invoke (S fuel) env s t0 (Speakeasy.handle {| body := Some b |}) in
  let m' := invoke fuel env s t0 (SpeakeasySync.handle b) in
  (effects (trace m) =
     [ Http (SlackPost (response_url b) (Some Speakeasy.GetHelp)); ContextSucceed 200 (Some "") ]
   /\ store m = s /\ finished m /\ crashed m = false)
  /\ (effects (trace m') = [ ContextSucceed 200 (Some SpeakeasySync.GetHelp) ]
      /\ store m' = s /\ finished m' /\ crashed m' = false).
Proof.
  intros Hh m m'. subst m m'. split.
  - unfold invoke, Speakeasy.handle. cbn [body]. rewrite split_length, Hh.
    change (boot s t0) with (idle t0 s no_local []).
    rewrite respond_then_finish. repeat split; reflexivity.
  - unfold invoke, SpeakeasySync.handle. rewrite split_length, Hh.
    unfold SpeakeasySync.respond.
    change (boot s t0) with (idle t0 s no_local []).
    rewrite exec_succeed, loop_idle. repeat split; reflexivity.
Qed.

(** Help with no token at all, while DynamoDB is down. *)
Lemma help_bypasses_every_stage_witness :
  let b := Sample.request "/speakeasy" "help me" None in
  let m := invoke 1 Sample.store_down (Sample.tables ∅) 0 (Speakeasy.handle {| body := Some b |}) in
  let m' := invoke 0 Sample.store_down (Sample.tables ∅) 0 (SpeakeasySync.handle b) in
  (effects (trace m) =
     [ Http (SlackPost (response_url b) (Some Speakeasy.GetHelp)); ContextSucceed 200 (Some "") ]
   /\ store m = Sample.tables ∅ /\ finished m /\ crashed m = false)
  /\ (effects (trace m') = [ ContextSucceed 200 (Some SpeakeasySync.GetHelp) ]
      /\ store m' = Sample.tables ∅ /\ finished m' /\ crashed m' = false).
Proof.
  apply (help_bypasses_every_stage Sample.store_down (Sample.tables ∅) 0
           (Sample.request "/speakeasy" "help me" None) 0).
  reflexivity.
Defined.

(** ** Rate limiting *)

Lemma filter_length_le {A : Type} (p : A -> bool) (l : list A) :
  (length (List.filter p l) <= length l)%nat.
Proof.
  induction l as [|x l IH]; cbn [List.filter length]; [lia|].
  destruct (p x); cbn [length]; lia.
Qed.

(** C3: a request of an enabled user whose rate limiting is not disabled
    and who has three or more recorded attempts with a rate-limited
    operation in the minute before the check gets exactly the rate-limit
    message; the process reads the token and the user record and does
    nothing else: no update is sent, and the stored record, its attempts
    included, is what it was. *)
Theorem rate_limited_request_is_blocked env s t0 b dtok du sp canonical history fuel :
  first_is (JS.split " " (text b)) "help" = false ->
  fault env (DbGet SlackSpeakeasyData "slack_auth_token") = None ->
  s SlackSpeakeasyData !! "slack_auth_token" = Some dtok ->
  doc_value dtok = Some (Str canonical) ->
  token b = Some canonical ->
  fault env (DbGet TFoSlackUsers (user_id b)) = None ->
  s TFoSlackUsers !! user_id b = Some du ->
  doc_speakeasy du = Some sp ->
  enabled sp = true ->
  disableRateLimiting sp = false ->
  attempts sp = Some history ->
  (3 <= length (Speakeasy.lastMinute (t_user env t0 b) history))%nat ->
  let m := invoke (S (S (S fuel))) env s t0 (Speakeasy.handle {| body := Some b |}) in
  effects (trace m) =
    [ DbGet SlackSpeakeasyData "slack_auth_token";
      DbGet TFoSlackUsers (user_id b);
      Http (SlackPost (response_url b) (Some Speakeasy.rate_limit_message));
      ContextSucceed 200 (Some "") ]
  /\ relays (trace m) = [Some Speakeasy.rate_limit_message]
  /\ updates (trace m) = []
  /\ store m = s
  /\ stored (store m) (user_id b) = Some sp
  /\ finished m /\ crashed m = false.
Proof.
  intros Hh Hf1 Hs1 Hv Htok Hf2 Hs2 Hdoc Hen Hdis Hatt Hcount m. subst m.
  rewrite (reach_rate_limiter env s t0 b dtok du); try assumption.
  2:{ rewrite Hv, Htok. cbn [Speakeasy.token_differs]. now rewrite String.eqb_refl. }
  rewrite waterfall_cons, exec_CheckCallingUser.
  cbn [Speakeasy.St.user Speakeasy.set_user].
  unfold Speakeasy.get_enabled, throttled, Speakeasy.get_attempts,
    Speakeasy.get_disableRateLimiting.
  cbn [speakeasy unmarshalItem]. rewrite Hdoc, Hen, Hatt, Hdis. cbn [negb].
  pose proof (filter_length_le
    (fun a => (t_user env t0 b - 60000 <? at_ a)
              && includes Speakeasy.rate_limited_ops (op a)) history) as Hle.
  fold (Speakeasy.lastMinute (t_user env t0 b) history) in Hle.
  replace (length history <? 3)%nat with false by (symmetry; apply Nat.ltb_ge; lia).
  cbn [orb].
  replace (3 <=? length (Speakeasy.lastMinute (t_user env t0 b) history))%nat with true
    by (symmetry; now apply Nat.leb_le).
  cbv beta iota. rewrite deliver_error.
  unfold stored. cbn [store idle]. rewrite Hs2.
  repeat split; try reflexivity. exact Hdoc.
Qed.

Lemma rate_limited_request_is_blocked_witness :
  let s := Sample.tables {[ "U1" := Sample.member (Some Sample.busy_history) ]} in
  let b := Sample.request "unlock" "bwo" (Some "xoxb-canonical") in
  let m := invoke 3 Sample.calm s 0 (Speakeasy.handle {| body := Some b |}) in
  effects (trace m) =
    [ DbGet SlackSpeakeasyData "slack_auth_token";
      DbGet TFoSlackUsers (user_id b);
      Http (SlackPost (response_url b) (Some Speakeasy.rate_limit_message));
      ContextSucceed 200 (Some "") ]
  /\ relays (trace m) = [Some Speakeasy.rate_limit_message]
  /\ updates (trace m) = []
  /\ store m = s
  /\ stored (store m) (user_id b)
     = Some {| enabled := true; disableRateLimiting := false;
               attempts := Some Sample.busy_history; expires := Some 90000000;
               lastAccess := None |}
  /\ finished m /\ crashed m = false.
Proof.
  apply (rate_limited_request_is_blocked Sample.calm
           (Sample.tables {[ "U1" := Sample.member (Some Sample.busy_history) ]}) 0
           (Sample.request "unlock" "bwo" (Some "xoxb-canonical"))
           {| doc_value := Some (Str "xoxb-canonical"); doc_speakeasy := None |}
           (Sample.member (Some Sample.busy_history))
           {| enabled := true; disableRateLimiting := false;
              attempts := Some Sample.busy_history; expires := Some 90000000;
              lastAccess := None |}
           "xoxb-canonical" Sample.busy_history 0);
    reflexivity.
Defined.

(** ** Attempt recording *)

Lemma record_attempt_take entry previous :
  Speakeasy.record_attempt entry previous = take 5 (entry :: default [] previous).
Proof.
  unfold Speakeasy.record_attempt.
  destruct (Nat.ltb_spec 5 (length (entry :: default [] previous))) as [H|H];
    [reflexivity|].
  symmetry. apply take_ge. exact H.
Qed.

(** C10: whenever the attempt-recording stage runs to its end, that is for
    a user whose record has a [speakeasy] document, with a list to write
    that marshals (no entry of it, the new one included, has an empty
    operation) and an update that goes through, the list stored for the
    user is the new entry followed by the earlier attempts, cut to five:
    the new [{at, op}] entry is its first element and it has at most five
    elements, whatever the earlier list was, a missing or an empty one
    included; and the stage goes on to the next stage. *)
Theorem recorded_attempts_newest_first_at_most_five env st done t s l tr d sp f :
  s TFoSlackUsers !! id (Speakeasy.St.user st) = Some d ->
  doc_speakeasy d = Some sp ->
  let entry := {| at_ := t; op := Speakeasy.St.command st |} in
  let previous := Speakeasy.get_attempts (Speakeasy.St.user st) in
  let written := Speakeasy.record_attempt entry previous in
  Speakeasy.marshals written = true ->
  fault env (DbUpdate (id (Speakeasy.St.user st)) (SetAttempts written)) = None ->
  exists s' t' st',
    loop (S f) env (exec env (Speakeasy.RegisterUserAttempt st done) (idle t s l tr)) =
    loop f env
      (exec env (done (Next st'))
         (idle t' s' l (tr ++ [(t, DbUpdate (id (Speakeasy.St.user st)) (SetAttempts written))])))
    /\ (attempts <$> stored s' (id (Speakeasy.St.user st))) = Some (Some written)
    /\ written = take 5 (entry :: default [] previous)
    /\ head written = Some entry
    /\ (length written <= 5)%nat.
Proof.
  intros Hs Hd entry previous written Hm Hf.
  eexists _, _, _. split.
  - apply (RegisterUserAttempt_stored env); [exact Hm|exact Hf|].
    apply db_updateItem_stored; eassumption.
  - split.
    + unfold stored, put_user. rewrite lookup_insert_eq. reflexivity.
    + subst written. rewrite record_attempt_take.
      split; [reflexivity|]. split; [reflexivity|].
      rewrite length_take. lia.
Qed.

(** A member with five earlier attempts asks for the status at instant 7. *)
Lemma recorded_attempts_newest_first_at_most_five_witness :
  let history := Sample.busy_history ++ [ {| at_ := 0; op := "status" |}; {| at_ := 0; op := "open" |} ] in
  let st := Speakeasy.set_user (unmarshalItem "U1" (Sample.member (Some history)))
              (Speakeasy.initial_state (Sample.request "status" "" None) [""]) in
  let s := Sample.tables {[ "U1" := Sample.member (Some history) ]} in
  let entry := {| at_ := 7; op := "status" |} in
  let written := Speakeasy.record_attempt entry (Some history) in
  let done := fun _ : Outcome Speakeasy.St.t => Return in
  exists s' t' st',
    loop 1 Sample.calm (exec Sample.calm (Speakeasy.RegisterUserAttempt st done)
                          (idle 7 s no_local [])) =
    loop 0 Sample.calm
      (exec Sample.calm (done (Next st'))
         (idle t' s' no_local ([] ++ [(7, DbUpdate "U1" (SetAttempts written))])))
    /\ (attempts <$> stored s' "U1") = Some (Some written)
    /\ written = take 5 (entry :: default [] (Some history))
    /\ head written = Some entry
    /\ (length written <= 5)%nat.
Proof.
  intros history st s entry written done.
  apply (recorded_attempts_newest_first_at_most_five Sample.calm st done 7 s
           no_local [] (Sample.member (Some history))
           {| enabled := true; disableRateLimiting := false; attempts := Some history;
              expires := Some 90000000; lastAccess := None |} 0);
    reflexivity.
Defined.

(** ** The credential stages *)

(** The sibling path: a missing pool record is reported to the user, and no
    sign-in is attempted. *)
Lemma missing_pool_is_reported env s t0 b dtok du sp fuel :
  reaches_logins env s t0 b dtok du sp ->
  s SlackSpeakeasyData !! "logins" = None ->
  let m := invoke (S (S (S (S (S fuel))))) env s t0 (Speakeasy.handle {| body := Some b |}) in
  relays (trace m) = [Some Speakeasy.logins_missing_message]
  /\ lock_calls (trace m) = []
  /\ finished m /\ crashed m = false.
Proof.
  intros Hl Hs m. subst m.
  rewrite (reach_logins env s t0 b dtok du sp) by assumption.
  destruct Hl as [Hh Hf1 Hs1 Htok Hf2 Hs2 Hdoc Hen Hlim Hm Hf3 Hf4].
  rewrite waterfall_cons.
  rewrite (GetLogins_missing env) by assumption.
  cbv beta iota. rewrite deliver_error.
  repeat split; reflexivity.
Qed.

(** C9, as the code has it: when the pool record is there and its list is
    empty, [Login] reads the [username] of an undefined login and throws
    before any sign-in: the process dies with the uncaught TypeError, no
    message is relayed, and the lock API is not called. *)
Theorem empty_pool_throws env s t0 b dtok du sp fuel :
  reaches_logins env s t0 b dtok du sp ->
  s SlackSpeakeasyData !! "logins"
  = Some {| doc_value := Some (Creds []); doc_speakeasy := None |} ->
  let m := invoke (S (S (S (S fuel)))) env s t0 (Speakeasy.handle {| body := Some b |}) in
  crashed m = true
  /\ relays (trace m) = []
  /\ lock_calls (trace m) = []
  /\ effects (trace m) =
       [ DbGet SlackSpeakeasyData "slack_auth_token";
         DbGet TFoSlackUsers (user_id b);
         DbUpdate (user_id b) (SetAttempts (written env t0 b sp));
         DbGet SlackSpeakeasyData "logins";
         Uncaught "TypeError: Cannot read property 'username' of undefined" ].
Proof.
  intros Hl Hs m. subst m.
  rewrite (reach_logins env s t0 b dtok du sp) by assumption.
  destruct Hl as [Hh Hf1 Hs1 Htok Hf2 Hs2 Hdoc Hen Hlim Hm Hf3 Hf4].
  rewrite waterfall_cons.
  erewrite (GetLogins_found env); cycle 1.
  { assumption. }
  { exact Hs. }
  cbn [doc_value]. cbv beta iota. rewrite waterfall_cons.
  unfold Speakeasy.Login. cbn [Speakeasy.St.logins Speakeasy.set_logins].
  cbn [exec length]. rewrite lookup_nil. rewrite exec_throw.
  rewrite loop_crashed by reflexivity.
  repeat split; reflexivity.
Qed.

Lemma empty_pool_throws_witness :
  let s := Sample.tables_empty_pool {[ "U1" := Sample.member None ]} in
  let b := Sample.request "status" "" (Some "xoxb-canonical") in
  let m := invoke 4 Sample.calm s 0 (Speakeasy.handle {| body := Some b |}) in
  crashed m = true
  /\ relays (trace m) = []
  /\ lock_calls (trace m) = []
  /\ effects (trace m) =
       [ DbGet SlackSpeakeasyData "slack_auth_token";
         DbGet TFoSlackUsers "U1";
         DbUpdate "U1" (SetAttempts (written Sample.calm 0 b (Sample.member_doc None)));
         DbGet SlackSpeakeasyData "logins";
         Uncaught "TypeError: Cannot read property 'username' of undefined" ].
Proof.
  apply (empty_pool_throws Sample.calm
           (Sample.tables_empty_pool {[ "U1" := Sample.member None ]}) 0
           (Sample.request "status" "" (Some "xoxb-canonical"))
           Sample.token_doc (Sample.member None) (Sample.member_doc None) 0).
  - constructor; reflexivity.
  - reflexivity.
Defined.

(** ** The dispatcher *)

(** The proxy hands a payload to the speakeasy lambda when, and only when,
    its [command] is [/speakeasy]. *)
Lemma proxy_forwards_speakeasy_only env s t0 b fuel :
  effects (trace (invoke (S fuel) env s t0 (ApigProxy.handle b))) =
  if String.eqb (command b) "/speakeasy"
  then [ LambdaInvoke "tfo_slack_speakeasy" {| body := Some b |};
         match fault env (LambdaInvoke "tfo_slack_speakeasy" {| body := Some b |}) with
         | Some e => ContextSucceed 500 (Some e)
         | None => ContextSucceed 200 (Some "")
         end ]
  else [].
Proof.
  unfold invoke, ApigProxy.handle. destruct (String.eqb (command b) "/speakeasy").
  - unfold ApigProxy.InvokeSpeakeasy, ApigProxy.done. cbn.
    destruct (fault env _); destruct fuel; reflexivity.
  - reflexivity.
Qed.

(** The earlier revision routes on the first token of the text, and hands
    the second token, when there is one, to the unlock handler. *)
Lemma sync_dispatch_routes_on_first_token w rest :
  SpeakeasySync.dispatch (w :: rest) =
  if String.eqb w "status" then SpeakeasySync.VStatus
  else if String.eqb w "unlock" || String.eqb w "open" then SpeakeasySync.VUnlock (head rest)
  else SpeakeasySync.VUnknown.
Proof.
  unfold SpeakeasySync.dispatch, first_is. cbn [head].
  destruct (String.eqb w "status"); [reflexivity|].
  destruct (String.eqb w "unlock" || String.eqb w "open"); [|reflexivity].
  now destruct rest.
Qed.

Lemma dispatch_unknown f env st b t s l tr :
  Speakeasy.St.command st = "/speakeasy" ->
  loop (S f) env (exec env (Speakeasy.GetDispatchHandler st (Speakeasy.deliver b)) (idle t s l tr)) =
  idle (t + Z.of_N (latency env (Http (SlackPost (response_url b)
                                         (Some Speakeasy.unknown_command_message))))) s l
    (tr ++ [(t, Http (SlackPost (response_url b) (Some Speakeasy.unknown_command_message)))]
        ++ [(t + Z.of_N (latency env (Http (SlackPost (response_url b)
                                                (Some Speakeasy.unknown_command_message)))),
             ContextSucceed 200 (Some ""))]).
Proof.
  intros Hc. unfold Speakeasy.GetDispatchHandler. rewrite Hc.
  cbn [String.eqb Ascii.eqb Bool.eqb orb]. apply deliver_error.
Qed.

(** C2, as the code has it: the pass-based revision routes on the [command]
    field of the payload, not on the text.  The proxy only forwards payloads
    whose [command] is [/speakeasy], so a forwarded request that passes every
    earlier stage is answered with the unknown-command message whatever its
    text says, [status], [checkout] and [unlock bwo] included: no peek and
    no unlock call is ever made. *)
Theorem forwarded_request_is_never_dispatched env s t0 b dtok du sp pool login reply fuel :
  command b = "/speakeasy" ->
  reaches_dispatch env s t0 b dtok du sp pool login reply ->
  let m := invoke (S (S (S (S (S (S fuel)))))) env s t0 (Speakeasy.handle {| body := Some b |}) in
  relays (trace m) = [Some Speakeasy.unknown_command_message]
  /\ List.map snd (lock_calls (trace m)) = [sign_in login]
  /\ finished m /\ crashed m = false.
Proof.
  intros Hc Hr m. subst m.
  rewrite (reach_dispatch env s t0 b dtok du sp pool login reply) by assumption.
  rewrite dispatch_unknown by exact Hc.
  repeat split; reflexivity.
Qed.

(** [/speakeasy status], as Slack posts it and the proxy forwards it. *)
Lemma forwarded_request_is_never_dispatched_witness :
  let s := Sample.tables {[ "U1" := Sample.member None ]} in
  let b := Sample.request "/speakeasy" "status" (Some "xoxb-canonical") in
  let m := invoke 6 Sample.calm s 0 (Speakeasy.handle {| body := Some b |}) in
  relays (trace m) = [Some Speakeasy.unknown_command_message]
  /\ List.map snd (lock_calls (trace m)) = [sign_in Sample.bot]
  /\ finished m /\ crashed m = false.
Proof.
  apply (forwarded_request_is_never_dispatched Sample.calm
           (Sample.tables {[ "U1" := Sample.member None ]}) 0
           (Sample.request "/speakeasy" "status" (Some "xoxb-canonical"))
           Sample.token_doc (Sample.member None) (Sample.member_doc None)
           [Sample.bot] Sample.bot Sample.signed 0).
  - reflexivity.
  - constructor; [constructor|..]; reflexivity.
Defined.

(** With the verb in [command], the text's first token is taken for the door
    key: [unlock bwo] sent as the text asks for the door [unlock]. *)
Lemma unlock_reads_first_token_as_door :
  Speakeasy.doorKey "unlock" = inl Speakeasy.unknown_door_message
  /\ Speakeasy.doorKey "bwo" = inr [find_door "bwo"].
Proof. split; reflexivity. Qed.

(** *** The same slip, seen from the checkout and the status *)

(** C5, as the code has it: a checkout as Slack posts it and the proxy
    forwards it, with [/speakeasy] in [command] and [checkout] as the first
    token of the text, never gets to the checkout handler. Whatever the
    number of passes checked out, a full house included, the users table is
    not scanned and no pass is counted, and the answer is the
    unknown-command message, not the capacity message; the caller's pass
    expiry is what it was. *)
Theorem forwarded_checkout_is_never_counted env s t0 b dtok du sp pool login reply fuel :
  command b = "/speakeasy" ->
  first_is (JS.split " " (text b)) "checkout" = true ->
  reaches_dispatch env s t0 b dtok du sp pool login reply ->
  let m := invoke (S (S (S (S (S (S fuel)))))) env s t0 (Speakeasy.handle {| body := Some b |}) in
  relays (trace m) = [Some Speakeasy.unknown_command_message]
  /\ relays (trace m) <> [Some Speakeasy.capacity_message]
  /\ store_reads (trace m) =
       [ DbGet SlackSpeakeasyData "slack_auth_token"; DbGet TFoSlackUsers (user_id b);
         DbGet SlackSpeakeasyData "logins" ]
  /\ updates (trace m) = [(user_id b, SetAttempts (written env t0 b sp))]
  /\ (expires <$> stored (store m) (user_id b)) = Some (expires sp)
  /\ finished m /\ crashed m = false.
Proof.
  intros Hc _ Hr m. subst m.
  rewrite (reach_dispatch env s t0 b dtok du sp pool login reply) by assumption.
  rewrite dispatch_unknown by exact Hc.
  unfold stored, recorded, put_user. cbn [store idle]. rewrite lookup_insert_eq.
  split; [reflexivity|]. split; [|repeat split; reflexivity].
  unfold prefix, sign_in. cbn [trace idle app relays]. discriminate.
Qed.

(** Ten members hold a pass; one of them types [/speakeasy checkout]. *)
Lemma forwarded_checkout_is_never_counted_witness :
  let s := Sample.tables Sample.full_house in
  let b := Sample.request "/speakeasy" "checkout" (Some "xoxb-canonical") in
  let m := invoke 6 Sample.calm s 0 (Speakeasy.handle {| body := Some b |}) in
  relays (trace m) = [Some Speakeasy.unknown_command_message]
  /\ relays (trace m) <> [Some Speakeasy.capacity_message]
  /\ store_reads (trace m) =
       [ DbGet SlackSpeakeasyData "slack_auth_token"; DbGet TFoSlackUsers (user_id b);
         DbGet SlackSpeakeasyData "logins" ]
  /\ updates (trace m) = [(user_id b, SetAttempts (written Sample.calm 0 b (Sample.member_doc None)))]
  /\ (expires <$> stored (store m) (user_id b)) = Some (expires (Sample.member_doc None))
  /\ finished m /\ crashed m = false.
Proof.
  apply (forwarded_checkout_is_never_counted Sample.calm (Sample.tables Sample.full_house) 0
           (Sample.request "/speakeasy" "checkout" (Some "xoxb-canonical"))
           Sample.token_doc (Sample.member None) (Sample.member_doc None)
           [Sample.bot] Sample.bot Sample.signed 0).
  - reflexivity.
  - reflexivity.
  - constructor; [constructor|..]; reflexivity.
Defined.

(** C7, as the code has it: a status request as Slack posts it and the
    proxy forwards it, with [/speakeasy] in [command] and [status] as the
    first token of the text, never gets to the status handler. No door is
    peeked at, the users table is not scanned, and the one message relayed
    is the unknown-command message: it carries no door line at all. *)
Theorem forwarded_status_peeks_at_no_door env s t0 b dtok du sp pool login reply fuel :
  command b = "/speakeasy" ->
  first_is (JS.split " " (text b)) "status" = true ->
  reaches_dispatch env s t0 b dtok du sp pool login reply ->
  let m := invoke (S (S (S (S (S (S fuel)))))) env s t0 (Speakeasy.handle {| body := Some b |}) in
  lock_calls (trace m) = [(t_logins env t0 b sp, sign_in login)]
  /\ relays (trace m) = [Some Speakeasy.unknown_command_message]
  /\ store_reads (trace m) =
       [ DbGet SlackSpeakeasyData "slack_auth_token"; DbGet TFoSlackUsers (user_id b);
         DbGet SlackSpeakeasyData "logins" ]
  /\ finished m /\ crashed m = false.
Proof.
  intros Hc _ Hr m. subst m.
  rewrite (reach_dispatch env s t0 b dtok du sp pool login reply) by assumption.
  rewrite dispatch_unknown by exact Hc.
  repeat split; reflexivity.
Qed.

(** [/speakeasy status] while every door would answer. *)
Lemma forwarded_status_peeks_at_no_door_witness :
  let s := Sample.tables {[ "U1" := Sample.member None ]} in
  let b := Sample.request "/speakeasy" "status" (Some "xoxb-canonical") in
  let m := invoke 6 Sample.calm s 0 (Speakeasy.handle {| body := Some b |}) in
  lock_calls (trace m) = [(t_logins Sample.calm 0 b (Sample.member_doc None), sign_in Sample.bot)]
  /\ relays (trace m) = [Some Speakeasy.unknown_command_message]
  /\ store_reads (trace m) =
       [ DbGet SlackSpeakeasyData "slack_auth_token"; DbGet TFoSlackUsers (user_id b);
         DbGet SlackSpeakeasyData "logins" ]
  /\ finished m /\ crashed m = false.
Proof.
  apply (forwarded_status_peeks_at_no_door Sample.calm
           (Sample.tables {[ "U1" := Sample.member None ]}) 0
           (Sample.request "/speakeasy" "status" (Some "xoxb-canonical"))
           Sample.token_doc (Sample.member None) (Sample.member_doc None)
           [Sample.bot] Sample.bot Sample.signed 0).
  - reflexivity.
  - reflexivity.
  - constructor; [constructor|..]; reflexivity.
Defined.

(** ** Checkout *)

Lemma havePasses_cons now u rest :
  length <$> Speakeasy.havePasses now (u :: rest) =
  match speakeasy u with
  | None => None
  | Some sp =>
      (fun n => if Speakeasy.pass_active now sp then S n else n)
        <$> (length <$> Speakeasy.havePasses now rest)
  end.
Proof.
  cbn [Speakeasy.havePasses]. destruct (speakeasy u) as [sp|]; [|reflexivity].
  destruct (Speakeasy.havePasses now rest) as [l|]; [|reflexivity].
  cbn. now destruct (Speakeasy.pass_active now sp).
Qed.

(** The count of active passes does not depend on the order of the scan. *)
Lemma havePasses_Permutation now l l' :
  l ≡ₚ l' ->
  length <$> Speakeasy.havePasses now l = length <$> Speakeasy.havePasses now l'.
Proof.
  induction 1 as [|x l l' _ IH|x y l|l l' l'' _ IH1 _ IH2].
  - reflexivity.
  - rewrite !havePasses_cons, IH. reflexivity.
  - rewrite !havePasses_cons.
    destruct (speakeasy x) as [sx|], (speakeasy y) as [sy|]; try reflexivity.
    destruct (length <$> Speakeasy.havePasses now l) as [n|]; [|reflexivity].
    cbn. now destruct (Speakeasy.pass_active now sx), (Speakeasy.pass_active now sy).
  - now rewrite IH1.
Qed.

(** Recording an attempt leaves the count of active passes as it was. *)
Lemma active_passes_recorded now s k du sp w :
  s TFoSlackUsers !! k = Some du ->
  doc_speakeasy du = Some sp ->
  active_passes now
    (put_user s k {| doc_value := doc_value du;
                     doc_speakeasy := Some (apply_update (SetAttempts w) sp) |})
  = active_passes now s.
Proof.
  intros Hs Hd. unfold active_passes, db_scan, put_user.
  set (d' := {| doc_value := doc_value du;
                doc_speakeasy := Some (apply_update (SetAttempts w) sp) |}).
  set (f := fun kd : string * Doc => unmarshalItem (fst kd) (snd kd)).
  rewrite (havePasses_Permutation now
             (f <$> map_to_list (<[k:=d']> (s TFoSlackUsers)))
             (f (k, d') :: (f <$> map_to_list (delete k (s TFoSlackUsers))))).
  2:{ rewrite <- insert_delete_eq.
      rewrite map_to_list_insert by apply lookup_delete_eq. reflexivity. }
  rewrite (havePasses_Permutation now
             (f <$> map_to_list (s TFoSlackUsers))
             (f (k, du) :: (f <$> map_to_list (delete k (s TFoSlackUsers))))).
  2:{ rewrite <- (map_to_list_delete (s TFoSlackUsers) k du) by assumption. reflexivity. }
  rewrite !havePasses_cons. subst f d'. cbn [fst snd unmarshalItem speakeasy].
  rewrite Hd. reflexivity.
Qed.

Lemma CheckoutHandler_full f env st done t s l tr n :
  fault env DbScan = None ->
  active_passes (t + Z.of_N (latency env DbScan)) s = Some n ->
  (Speakeasy.N_PASSES <= n)%nat ->
  loop (S f) env (exec env (Speakeasy.CheckoutHandler st done) (idle t s l tr)) =
  loop f env
    (exec env (done (Err Speakeasy.capacity_message))
       (idle (t + Z.of_N (latency env DbScan)) s l (tr ++ [(t, DbScan)]))).
Proof.
  intros Hf Hn Hfull. unfold Speakeasy.CheckoutHandler.
  rewrite waterfall_cons, turn_Scan, Hf. cbv beta iota. rewrite waterfall_cons.
  cbn [exec idle clock Speakeasy.St.allUsers Speakeasy.set_allUsers].
  unfold active_passes in Hn.
  destruct (Speakeasy.havePasses _ (db_scan s)) as [passes|]; [|discriminate].
  injection Hn as Hn. subst n.
  apply Nat.leb_le in Hfull. rewrite Hfull. reflexivity.
Qed.

(** The checkout handler keeps the capacity: a request the dispatcher hands
    to it while ten or more user records hold a pass that is active at the
    instant the handler counts them is answered with the capacity message;
    the only update of the run is the recording of the attempt, and the
    caller's stored pass expiry is what it was. *)
Theorem checkout_at_capacity_is_refused env s t0 b dtok du sp pool login reply n fuel :
  command b = "checkout" ->
  reaches_dispatch env s t0 b dtok du sp pool login reply ->
  fault env DbScan = None ->
  active_passes (t_dispatch env t0 b sp login + Z.of_N (latency env DbScan)) s = Some n ->
  (Speakeasy.N_PASSES <= n)%nat ->
  let m := invoke (S (S (S (S (S (S (S fuel))))))) env s t0
             (Speakeasy.handle {| body := Some b |}) in
  relays (trace m) = [Some Speakeasy.capacity_message]
  /\ updates (trace m) = [(user_id b, SetAttempts (written env t0 b sp))]
  /\ (expires <$> stored (store m) (user_id b)) = Some (expires sp)
  /\ finished m /\ crashed m = false.
Proof.
  intros Hc Hr Hf Hn Hfull m. subst m.
  rewrite (reach_dispatch env s t0 b dtok du sp pool login reply) by assumption.
  destruct Hr as [[Hh Hf1 Hs1 Htok Hf2 Hs2 Hdoc Hen Hlim Hm Hf3 Hf4] Hs4 Hdraw Hsign].
  unfold Speakeasy.GetDispatchHandler.
  change (Speakeasy.St.command (dispatched env t0 b dtok du pool reply)) with (command b).
  rewrite Hc. cbn [String.eqb Ascii.eqb Bool.eqb orb].
  rewrite (CheckoutHandler_full _ env) with (n := n); try assumption.
  2:{ unfold recorded. erewrite active_passes_recorded by eassumption. exact Hn. }
  cbn [exec]. rewrite deliver_error.
  unfold stored, recorded, put_user. cbn [store idle]. rewrite lookup_insert_eq.
  repeat split; reflexivity.
Qed.

(** Ten members hold a pass until instant 90000000; one of them asks for
    another checkout at instant 0. *)
Lemma checkout_at_capacity_is_refused_witness :
  let s := Sample.tables Sample.full_house in
  let b := Sample.request "checkout" "" (Some "xoxb-canonical") in
  let m := invoke 7 Sample.calm s 0 (Speakeasy.handle {| body := Some b |}) in
  relays (trace m) = [Some Speakeasy.capacity_message]
  /\ updates (trace m) = [(user_id b, SetAttempts (written Sample.calm 0 b (Sample.member_doc None)))]
  /\ (expires <$> stored (store m) (user_id b)) = Some (expires (Sample.member_doc None))
  /\ finished m /\ crashed m = false.
Proof.
  apply (checkout_at_capacity_is_refused Sample.calm (Sample.tables Sample.full_house) 0
           (Sample.request "checkout" "" (Some "xoxb-canonical"))
           Sample.token_doc (Sample.member None) (Sample.member_doc None)
           [Sample.bot] Sample.bot Sample.signed 10%nat 0).
  - reflexivity.
  - constructor; [constructor|..]; reflexivity.
  - reflexivity.
  - vm_compute. reflexivity.
  - vm_compute. lia.
Defined.

(** ** Callbacks that complete in any order *)

Lemma next_None q : next q = None -> q = [].
Proof.
  destruct q as [|t q]; [reflexivity|]. cbn [next].
  destruct (next q) as [[u r]|]; [|discriminate].
  destruct (fst t <=? fst u); discriminate.
Qed.

(** The loop takes one of the pending callbacks and leaves the others. *)
Lemma next_fmap {A : Type} (g : A -> Z * Act) (P : list A) x q' :
  next (g <$> P) = Some (x, q') ->
  exists p P', x = g p /\ q' = g <$> P' /\ P ≡ₚ p :: P'.
Proof.
  revert x q'. induction P as [|a P IH]; intros x q' H; [discriminate|].
  rewrite fmap_cons in H. cbn [next] in H.
  destruct (next (g <$> P)) as [[u r]|] eqn:E.
  - destruct (IH u r eq_refl) as (p & P' & -> & -> & HP).
    destruct (fst (g a) <=? fst (g p)); injection H as <- <-.
    + exists a, P. split; [reflexivity|]. split; reflexivity.
    + exists p, (a :: P'). split; [reflexivity|]. split; [reflexivity|].
      rewrite HP. apply Permutation_swap.
  - injection H as <- <-. apply next_None in E.
    apply fmap_nil_inv in E. subst P.
    exists a, []. split; [reflexivity|]. split; reflexivity.
Qed.

Lemma assign_lookup_eq i v R : async.assign i v R !! i = Some v.
Proof.
  unfold async.assign. destruct (Nat.ltb_spec i (length R)) as [H|H].
  - now apply list_lookup_insert_eq.
  - rewrite lookup_app_r by exact H.
    rewrite lookup_app_r by (rewrite length_replicate; lia).
    rewrite length_replicate. now rewrite Nat.sub_diag.
Qed.

Lemma assign_lookup_ne i j v w R :
  i <> j -> R !! j = Some w -> async.assign i v R !! j = Some w.
Proof.
  intros Hne Hj. unfold async.assign. destruct (Nat.ltb_spec i (length R)) as [H|H].
  - now rewrite list_lookup_insert_ne.
  - rewrite lookup_app_l; [exact Hj|]. eapply lookup_lt_Some, Hj.
Qed.

Lemma assign_length i v R n :
  (i < n)%nat -> (length R <= n)%nat -> (length (async.assign i v R) <= n)%nat.
Proof.
  intros Hi HR. unfold async.assign. destruct (Nat.ltb_spec i (length R)) as [H|H].
  - now rewrite length_insert.
  - rewrite !length_app, length_replicate. cbn [length]. lia.
Qed.

Lemma loop_waiting f env t q s l tr x q' :
  next q = Some (x, q') ->
  loop (S f) env (waiting t q s l tr) = loop f env (exec env (snd x) (waiting (fst x) q' s l tr)).
Proof. intros H. cbn [loop waiting crashed queue]. rewrite H. now destruct x. Qed.

Section Join.

Context (env : Env) (headers : option Headers) (coll : list Door).
Context (callback : option string -> list (option string) -> Act).
Context (issued : Z).

Let n := length coll.
Let task := peek_task env headers n callback issued.
Let line := door_line env headers.

Hypothesis answers : forall d, d ∈ coll -> peek_answers env headers d = true.

(** One peek callback: the door's line is stored at the door's index, and
    the last one to come hands the results over. *)
Lemma exec_peek_task i d t q s R c tr :
  d ∈ coll ->
  exec env (snd (task (i, d))) (waiting t q s {| results := R; completed := c; fired := false |} tr)
  = let R' := async.assign i (Some (line d)) R in
    if (S c =? n)%nat
    then exec env (callback None R')
           (waiting t q s {| results := R'; completed := S c; fired := true |} tr)
    else waiting t q s {| results := R'; completed := S c; fired := false |} tr.
Proof.
  intros Hd. pose proof (answers d Hd) as Ha.
  subst task line. unfold peek_task, door_line. unfold peek_answers in Ha. cbn [fst snd].
  destruct (http env (Peek (code d) headers)) as [err|[body|]]; [| |discriminate];
    unfold Speakeasy.on_peek, async.collect, async.iteratorCallback, async.once,
      async.collected;
    cbn -[Nat.eqb]; fold n; destruct (S c =? n)%nat; reflexivity.
Qed.

(** Whatever the order in which the pending peeks complete, once the last
    one has completed the results are the lines of the doors in the order
    of the collection. *)
Lemma peeks_join k : forall P R c t s tr f,
  length P = S k ->
  NoDup (fst <$> P) ->
  (forall i d, (i, d) ∈ P -> coll !! i = Some d) ->
  (c + length P = n)%nat ->
  (forall i d, coll !! i = Some d -> i ∉ (fst <$> P) -> R !! i = Some (Some (line d))) ->
  (length R <= n)%nat ->
  exists T,
    loop (S k + f) env
      (waiting t (task <$> P) s {| results := R; completed := c; fired := false |} tr)
    = loop f env
        (exec env (callback None (Some ∘ line <$> coll))
           (idle T s {| results := Some ∘ line <$> coll; completed := n; fired := true |} tr)).
Proof.
  induction k as [|k IH]; intros P R c t s tr f HlenP Hnd Hin Hcount HR HlenR;
    (destruct (next (task <$> P)) as [[x q']|] eqn:E;
       [|apply next_None, fmap_nil_inv in E; subst P; discriminate]);
    destruct (next_fmap task P x q' E) as ([i d] & P' & -> & -> & HP);
    assert (HlenP' : (length P' = length P - 1)%nat)
      by (apply Permutation_length in HP; cbn [length] in HP; lia);
    assert (Hmem : (i, d) ∈ P) by (rewrite HP; left);
    assert (Hd : coll !! i = Some d) by (apply Hin, Hmem);
    assert (Hdin : d ∈ coll) by (eapply list_elem_of_lookup_2; exact Hd);
    assert (Hnd' : NoDup (i :: (fst <$> P')))
      by (change (i :: (fst <$> P')) with (fst <$> ((i, d) :: P')); now rewrite <- HP);
    apply NoDup_cons in Hnd' as [Hi Hnd'].
  - destruct P' as [|? ?]; [|cbn [length] in HlenP'; lia].
    exists (fst (task (i, d))).
    change (1 + f)%nat with (S f). rewrite (loop_waiting _ _ _ _ _ _ _ _ _ E).
    cbn [fst snd]. rewrite exec_peek_task by exact Hdin. cbv zeta.
    replace (S c =? n)%nat with true by (symmetry; apply Nat.eqb_eq; lia).
    assert (HRf : async.assign i (Some (line d)) R = (Some ∘ line <$> coll)).
    { apply list_eq. intros j. rewrite list_lookup_fmap.
      destruct (decide (j = i)) as [->|Hne].
      - rewrite assign_lookup_eq, Hd. reflexivity.
      - destruct (coll !! j) as [dj|] eqn:Ej.
        + cbn. apply assign_lookup_ne; [congruence|].
          apply HR; [exact Ej|]. rewrite HP. cbn. rewrite list_elem_of_singleton. congruence.
        + cbn. apply lookup_ge_None_2. apply lookup_ge_None_1 in Ej.
          pose proof (assign_length i (Some (line d)) R n) as Hl.
          apply lookup_lt_Some in Hd. subst n. lia. }
    rewrite HRf. replace (S c) with n by lia. reflexivity.
  - destruct (IH P' (async.assign i (Some (line d)) R) (S c) (fst (task (i, d))) s tr f)
      as [T HT]; try assumption.
    + lia.
    + intros j dj Hj. apply Hin. rewrite HP. now right.
    + lia.
    + intros j dj Ej Hj.
      destruct (decide (j = i)) as [->|Hne].
      * rewrite assign_lookup_eq. congruence.
      * apply assign_lookup_ne; [congruence|]. apply HR; [exact Ej|].
        rewrite HP. cbn [fmap list_fmap fst]. rewrite elem_of_cons. tauto.
    + apply assign_length; [|exact HlenR]. apply lookup_lt_Some in Hd. exact Hd.
    + exists T. rewrite <- HT.
      change (S (S k) + f)%nat with (S (S k + f)).
      rewrite (loop_waiting _ _ _ _ _ _ _ _ _ E).
      cbn [fst snd]. rewrite exec_peek_task by exact Hdin. cbv zeta.
      replace (S c =? n)%nat with false by (symmetry; apply Nat.eqb_neq; lia).
      reflexivity.
Qed.

End Join.

(** ** Status *)

Lemma append_assoc_str (a b c : string) : (a +:+ b) +:+ c = a +:+ (b +:+ c).
Proof.
  induction a as [|x a IH]; [reflexivity|].
  change (String x ((a +:+ b) +:+ c) = String x (a +:+ (b +:+ c))). now rewrite IH.
Qed.

Lemma append_nil_r_str (a : string) : a +:+ "" = a.
Proof.
  induction a as [|x a IH]; [reflexivity|].
  change (String x (a +:+ "") = String x a). now rewrite IH.
Qed.

Lemma reduce_statuses_later i (ls : list string) acc :
  reduce_statuses (S i) (Some <$> ls) acc =
  match ls with
  | [] => acc
  | _ => acc +:+ JS.nl +:+ String.concat JS.nl ls
  end.
Proof.
  revert i acc. induction ls as [|l ls IH]; intros i acc; [reflexivity|].
  rewrite fmap_cons. cbn [reduce_statuses Nat.eqb JS.interp]. rewrite IH.
  destruct ls as [|l' ls]; cbn [String.concat].
  - apply append_assoc_str.
  - now rewrite !append_assoc_str.
Qed.

(** The [reduce] of [StatusHandler] puts the lines one per line, in the
    order of the list. *)
Lemma reduce_statuses_concat (ls : list string) :
  reduce_statuses 0 (Some <$> ls) "" = String.concat JS.nl ls.
Proof.
  destruct ls as [|l ls]; [reflexivity|].
  rewrite fmap_cons. cbn [reduce_statuses Nat.eqb JS.interp]. rewrite reduce_statuses_later.
  destruct ls; reflexivity.
Qed.

Lemma records_complete_havePasses now l :
  forallb (fun it => match speakeasy it with Some _ => true | None => false end) l = true ->
  is_Some (Speakeasy.havePasses now l).
Proof.
  induction l as [|u l IH]; cbn [forallb Speakeasy.havePasses]; intros H; [now eexists|].
  apply andb_true_iff in H as [Hu Hl]. destruct (speakeasy u); [|discriminate].
  destruct (IH Hl) as [r ->]. now eexists.
Qed.

Lemma records_complete_active now s :
  records_complete s = true -> is_Some (active_passes now s).
Proof.
  intros H. unfold active_passes.
  destruct (records_complete_havePasses now (db_scan s) H) as [r ->]. now eexists.
Qed.

Lemma unshift_expires e u :
  (expires <$> speakeasy (Speakeasy.unshift e u)) = (expires <$> speakeasy u).
Proof.
  unfold Speakeasy.unshift. destruct (speakeasy u) as [sp|] eqn:E; [|now rewrite E].
  destruct (attempts sp); [reflexivity | now rewrite E].
Qed.

Lemma exec_Seq env a b m :
  crashed (exec env a m) = false ->
  exec env (Seq a b) m = exec env b (exec env a m).
Proof. intros H. cbn [exec]. now rewrite H. Qed.

Lemma exec_Request_waiting env r cb t q s l tr :
  exec env (Request r cb) (waiting t q s l tr) =
  waiting t (q ++ [(t + Z.of_N (latency env (Http r)), cb (http env r))]) s l
    (tr ++ [(t, Http r)]).
Proof. reflexivity. Qed.

Lemma exec_SetTimeout_waiting env ms cb t q s l tr :
  exec env (SetTimeout ms cb) (waiting t q s l tr) = waiting t (q ++ [(t + ms, cb)]) s l tr.
Proof. reflexivity. Qed.

Lemma exec_eachOf env {A : Type} (coll : list A) iteratee callback t s l tr :
  coll <> [] ->
  exec env (async.eachOf coll iteratee callback) (idle t s l tr) =
  exec env
    (async.eachOf_from 0 coll iteratee (async.iteratorCallback (length coll) callback))
    (waiting t [] s {| results := []; completed := 0; fired := false |} tr).
Proof.
  intros Hne. unfold async.eachOf. destruct coll as [|x coll]; [congruence|]. reflexivity.
Qed.

(** The peeks of [async.map] over a list of doors, issued one after the
    other within one callback. *)
Lemma eachOf_from_peeks env st n callback t s l coll : forall i q tr,
  exec env
    (async.eachOf_from i coll
       (fun value index cb => Speakeasy.GetDoorStatus st value (async.collect index cb))
       (async.iteratorCallback n (async.collected callback)))
    (waiting t q s l tr)
  = waiting t (q ++ (peek_task env (Speakeasy.St.headers st) n callback t <$> indexed i coll))
      s l (tr ++ ((fun d => (t, Http (Peek (code d) (Speakeasy.St.headers st)))) <$> coll)).
Proof.
  induction coll as [|d coll IH]; intros i q tr.
  - cbn [async.eachOf_from exec indexed fmap list_fmap]. now rewrite !app_nil_r.
  - cbn [async.eachOf_from indexed]. rewrite !fmap_cons.
    unfold Speakeasy.GetDoorStatus at 1.
    rewrite exec_Seq; rewrite exec_Request_waiting; [|reflexivity].
    rewrite IH. rewrite <- !app_assoc. reflexivity.
Qed.

(** The synchronous part of [StatusHandler]: the five peeks are issued in
    the order of the catalog, all at the same instant. *)
Lemma StatusHandler_issues env st done t s l tr :
  exec env (Speakeasy.StatusHandler st done) (idle t s l tr)
  = waiting t
      (peek_task env (Speakeasy.St.headers st) (length DOOR_CODES)
         (Speakeasy.on_statuses st done) t <$> indexed 0 DOOR_CODES)
      s {| results := []; completed := 0; fired := false |}
      (tr ++ ((fun d => (t, Http (Peek (code d) (Speakeasy.St.headers st)))) <$> DOOR_CODES)).
Proof.
  unfold Speakeasy.StatusHandler, async.map.
  rewrite exec_eachOf by discriminate.
  rewrite eachOf_from_peeks. reflexivity.
Qed.

(** The five peeks go out together; when the last answer is in, the callback
    of [async.map] receives the door lines in the order of the catalog. *)
Lemma StatusHandler_joins env st done t s l tr f :
  forallb (peek_answers env (Speakeasy.St.headers st)) DOOR_CODES = true ->
  exists T,
    loop (S (S (S (S (S f))))) env (exec env (Speakeasy.StatusHandler st done) (idle t s l tr))
    = loop f env
        (exec env
           (Speakeasy.on_statuses st done None
              (Some ∘ door_line env (Speakeasy.St.headers st) <$> DOOR_CODES))
           (idle T s
              {| results := Some ∘ door_line env (Speakeasy.St.headers st) <$> DOOR_CODES;
                 completed := length DOOR_CODES; fired := true |}
              (tr ++ ((fun d => (t, Http (Peek (code d) (Speakeasy.St.headers st))))
                        <$> DOOR_CODES)))).
Proof.
  intros Hans.
  destruct (peeks_join env (Speakeasy.St.headers st) DOOR_CODES
              (Speakeasy.on_statuses st done) t) with
    (k := 4%nat) (P := indexed 0 DOOR_CODES) (R := @nil (option string)) (c := 0%nat)
    (t := t) (s := s)
    (tr := tr ++ ((fun d => (t, Http (Peek (code d) (Speakeasy.St.headers st)))) <$> DOOR_CODES))
    (f := f) as [T HT].
  - intros d Hd. rewrite forallb_forall in Hans. apply Hans.
    now apply list_elem_of_In.
  - reflexivity.
  - cbn. repeat constructor; rewrite ?elem_of_cons, ?elem_of_nil; intuition discriminate.
  - intros i d Hi. cbn in Hi.
    rewrite !elem_of_cons, elem_of_nil in Hi.
    intuition (match goal with H : (_, _) = (_, _) |- _ => injection H as -> -> end; reflexivity).
  - reflexivity.
  - intros i d Hi Hn. exfalso. apply Hn. cbn.
    do 5 (destruct i as [|i]; [rewrite !elem_of_cons; tauto|]). discriminate.
  - cbn. lia.
  - exists T. rewrite <- HT. rewrite StatusHandler_issues. reflexivity.
Qed.

Lemma report_passes_summary f env st done message t s l tr passes spu :
  fault env DbScan = None ->
  Speakeasy.havePasses (t + Z.of_N (latency env DbScan)) (db_scan s) = Some passes ->
  speakeasy (Speakeasy.St.user st) = Some spu ->
  loop (S f) env (exec env (Scan (Speakeasy.report_passes st done message)) (idle t s l tr))
  = loop f env
      (exec env
         (done (Next (Some (message
            +:+ pass_summary env (t + Z.of_N (latency env DbScan)) (length passes) (expires spu)))))
         (idle (t + Z.of_N (latency env DbScan)) s l (tr ++ [(t, DbScan)]))).
Proof.
  intros Hf Hp Hu. rewrite turn_Scan, Hf. unfold Speakeasy.report_passes, pass_summary.
  cbn [exec idle clock]. rewrite Hp, Hu.
  destruct (expires spu) as [e|].
  - cbn [exec]. destruct (e <? _); now rewrite !append_assoc_str.
  - now rewrite !append_assoc_str.
Qed.

(** A request the dispatcher hands to the status handler issues the five peeks in
    the order of the catalog, and whatever the latencies of the answers,
    that is whatever the order in which the peeks complete, the one message
    relayed carries the door lines in the order of the catalog; the line of
    a door whose peek fails in transport is that door's warning line, every
    other door keeps the line of its own answer, and the request ends with
    the report, not with an error. *)
Theorem status_report_follows_catalog env s t0 b dtok du sp pool login reply fuel :
  let headers := Some {| x_login_secret := secret reply |} in
  command b = "status" ->
  reaches_dispatch env s t0 b dtok du sp pool login reply ->
  forallb (peek_answers env headers) DOOR_CODES = true ->
  fault env DbScan = None ->
  records_complete s = true ->
  let m := invoke (S (S (S (S (S (S (S (S (S (S (S (S fuel)))))))))))) env s t0
             (Speakeasy.handle {| body := Some b |}) in
  exists now passes,
    active_passes now s = Some passes
    /\ relays (trace m) = [Some (status_report env headers now passes (expires sp))]
    /\ List.map snd (lock_calls (trace m))
       = sign_in login :: ((fun d => Peek (code d) headers) <$> DOOR_CODES)
    /\ finished m /\ crashed m = false.
Proof.
  intros headers Hc Hr Hans Hf Hrec m. subst m.
  rewrite (reach_dispatch env s t0 b dtok du sp pool login reply) by assumption.
  destruct Hr as [[Hh Hf1 Hs1 Htok Hf2 Hs2 Hdoc Hen Hlim Hm Hf3 Hf4] Hs4 Hdraw Hsign].
  unfold Speakeasy.GetDispatchHandler.
  change (Speakeasy.St.command (dispatched env t0 b dtok du pool reply)) with (command b).
  rewrite Hc. cbn [String.eqb Ascii.eqb Bool.eqb orb].
  destruct (StatusHandler_joins env (dispatched env t0 b dtok du pool reply)
              (Speakeasy.deliver b) (t_dispatch env t0 b sp login)
              (recorded env t0 b s du sp) no_local (prefix env t0 b sp login) (S (S fuel)))
    as [T HT]; [exact Hans|].
  rewrite HT. clear HT.
  change (Speakeasy.St.headers (dispatched env t0 b dtok du pool reply)) with headers.
  unfold Speakeasy.on_statuses.
  set (now := T + Z.of_N (latency env DbScan)).
  destruct (records_complete_active now s Hrec) as [passes Hpasses].
  assert (Hrecorded : active_passes now (recorded env t0 b s du sp) = Some passes).
  { unfold recorded. erewrite active_passes_recorded by eassumption. exact Hpasses. }
  unfold active_passes in Hrecorded.
  destruct (Speakeasy.havePasses now (db_scan (recorded env t0 b s du sp)))
    as [holders|] eqn:Eh; [|discriminate].
  injection Hrecorded as Hlen.
  pose proof (unshift_expires (new_attempt env t0 b) (unmarshalItem (user_id b) du)) as Hexp.
  cbn [speakeasy unmarshalItem] in Hexp. rewrite Hdoc in Hexp.
  destruct (speakeasy (Speakeasy.unshift (new_attempt env t0 b) (unmarshalItem (user_id b) du)))
    as [spu|] eqn:Eu; [|discriminate].
  injection Hexp as Hexp.
  erewrite report_passes_summary; [|exact Hf|exact Eh|exact Eu].
  rewrite deliver_message. fold now. rewrite Hlen, Hexp.
  exists now, passes. split; [exact Hpasses|].
  change (Some ∘ door_line env headers <$> DOOR_CODES)
    with (Some <$> (door_line env headers <$> DOOR_CODES)).
  rewrite reduce_statuses_concat.
  repeat split; reflexivity.
Qed.

(** The outer west door times out after five seconds and the other four
    doors answer in the reverse order of the catalog. *)
Lemma status_report_follows_catalog_witness :
  let headers := Some {| x_login_secret := Some "s3cr3t" |} in
  let s := Sample.tables {[ "U1" := Sample.member None ]} in
  let b := Sample.request "status" "" (Some "xoxb-canonical") in
  let m := invoke 12 Sample.outer_unreachable s 0 (Speakeasy.handle {| body := Some b |}) in
  exists now passes,
    active_passes now s = Some passes
    /\ relays (trace m)
       = [Some (status_report Sample.outer_unreachable headers now passes (Some 90000000))]
    /\ List.map snd (lock_calls (trace m))
       = sign_in Sample.bot :: ((fun d => Peek (code d) headers) <$> DOOR_CODES)
    /\ finished m /\ crashed m = false.
Proof.
  apply (status_report_follows_catalog Sample.outer_unreachable
           (Sample.tables {[ "U1" := Sample.member None ]}) 0
           (Sample.request "status" "" (Some "xoxb-canonical"))
           Sample.token_doc (Sample.member None) (Sample.member_doc None)
           [Sample.bot] Sample.bot Sample.signed 0).
  - reflexivity.
  - constructor; [constructor|..]; reflexivity.
  - reflexivity.
  - reflexivity.
  - reflexivity.
Defined.

(** The same run, computed: the warning is the first line although the
    outer west door is the last to complete. *)
Example status_report_with_one_door_down :
  relays (trace (invoke 12 Sample.outer_unreachable
                   (Sample.tables {[ "U1" := Sample.member None ]}) 0
                   (Speakeasy.handle
                      {| body := Some (Sample.request "status" "" (Some "xoxb-canonical")) |})))
  = [Some ("I'm reading the lock statuses as follows" +:+ JS.nl
           +:+ ":warning: Brip West Outer [`bwo`]: `A bad error occurred.`" +:+ JS.nl
           +:+ ":+1: Brip West Inner [`bwi`]: `Access not restricted!`" +:+ JS.nl
           +:+ ":+1: Brip Parking Lot [`bs`]: `Access not restricted!`" +:+ JS.nl
           +:+ ":+1: Downtown Outer [`do`]: `Access not restricted!`" +:+ JS.nl
           +:+ ":+1: Downtown Inner [`di`]: `Access not restricted!`" +:+ JS.nl
           +:+ "Right now, there are 1 passes checked out, out of 10 total." +:+ JS.nl
           +:+ "You have an active pass which expires in a day.")].
Proof. vm_compute. reflexivity. Qed.

(** ** Unlock with the compound key *)

Lemma loop_one f env t x a s l tr :
  loop (S f) env (waiting t [(x, a)] s l tr) = loop f env (exec env a (waiting x [] s l tr)).
Proof. reflexivity. Qed.

Lemma loop_two f env t x a y b s l tr :
  loop (S f) env (waiting t [(x, a); (y, b)] s l tr) =
  if x <=? y then loop f env (exec env a (waiting x [(y, b)] s l tr))
  else loop f env (exec env b (waiting y [(x, a)] s l tr)).
Proof. cbn [loop waiting crashed queue next fst]. now destruct (x <=? y). Qed.

Lemma exec_unlock_now env st door ud t q s l tr :
  exec env (Speakeasy.unlock_now st (Some door) ud) (waiting t q s l tr) =
  waiting t
    (q ++ [(answered env (Speakeasy.St.headers st) t door,
            Speakeasy.on_unlock st door ud
              (http env (Unlock (code door) (Speakeasy.St.headers st))))])
    s l (tr ++ [(t, Http (Unlock (code door) (Speakeasy.St.headers st)))]).
Proof. reflexivity. Qed.

Lemma exec_on_unlock env st b door ud t q s l tr :
  Speakeasy.St.respond st = Speakeasy.respond b ->
  unlock_answers env (Speakeasy.St.headers st) door = true ->
  let text := Some (unlock_text env (Speakeasy.St.headers st) door) in
  exec env
    (Speakeasy.on_unlock st door ud (http env (Unlock (code door) (Speakeasy.St.headers st))))
    (waiting t q s l tr) =
  waiting t
    (q ++ [(t + Z.of_N (latency env (Http (SlackPost (response_url b) text))),
            Speakeasy.on_relayed ud (http env (SlackPost (response_url b) text)))])
    s l (tr ++ [(t, Http (SlackPost (response_url b) text))]).
Proof.
  intros Hr Ha text. subst text. unfold unlock_text, unlock_answers in *.
  unfold Speakeasy.on_unlock. rewrite Hr.
  destruct (http env (Unlock (code door) (Speakeasy.St.headers st))) as [err|[body|]];
    [reflexivity|reflexivity|discriminate].
Qed.

Lemma exec_on_relayed env n fin r t q s R c tr :
  exec env (Speakeasy.on_relayed (async.iteratorCallback n fin) r)
    (waiting t q s {| results := R; completed := c; fired := false |} tr) =
  if (S c =? n)%nat
  then exec env (fin None) (waiting t q s {| results := R; completed := S c; fired := true |} tr)
  else waiting t q s {| results := R; completed := S c; fired := false |} tr.
Proof.
  unfold Speakeasy.on_relayed, async.iteratorCallback, async.once.
  destruct r; cbn -[Nat.eqb]; destruct (S c =? n)%nat; reflexivity.
Qed.

(** The synchronous part of the unlock of [bw]: the pass is checked and the
    two timers are set, the outer door's first. *)
Lemma UnlockHandler_sets_timers env st done rest spu e t s l tr :
  Speakeasy.St.args st = "bw" :: rest ->
  speakeasy (Speakeasy.St.user st) = Some spu ->
  expires spu = Some e ->
  (e <? t) = false ->
  exec env (Speakeasy.UnlockHandler st done) (idle t s l tr) =
  waiting t
    [ (outer_timer t,
       Speakeasy.unlock_now st (Some west_outer)
         (async.iteratorCallback 2
            (Speakeasy.doors_done st (fun r => match r with
                                               | Err err => Speakeasy.unlocked done (Err err)
                                               | Next a' => async.waterfall [] a' (Speakeasy.unlocked done)
                                               end))));
      (inner_timer t,
       Speakeasy.unlock_now st (Some west_inner)
         (async.iteratorCallback 2
            (Speakeasy.doors_done st (fun r => match r with
                                               | Err err => Speakeasy.unlocked done (Err err)
                                               | Next a' => async.waterfall [] a' (Speakeasy.unlocked done)
                                               end)))) ]
    s {| results := []; completed := 0; fired := false |} tr.
Proof.
  intros Ha Hu He Ht. unfold Speakeasy.UnlockHandler. rewrite Ha.
  change (Speakeasy.doorKey "bw") with (@inr string _ [Some west_outer; Some west_inner]).
  cbv beta iota. rewrite waterfall_cons. unfold Speakeasy.check_pass. rewrite Hu, He.
  cbn [exec idle clock]. rewrite Ht. rewrite waterfall_cons.
  reflexivity.
Qed.

Lemma fin_unlocked env st b t s l tr f :
  loop (S f) env
    (exec env
       (Speakeasy.doors_done st
          (fun r => match r with
                    | Err err => Speakeasy.unlocked (Speakeasy.deliver b) (Err err)
                    | Next a' => async.waterfall [] a' (Speakeasy.unlocked (Speakeasy.deliver b))
                    end) None)
       (waiting t [] s l tr)) =
  idle (t + Z.of_N (latency env (Http (SlackPost (response_url b) None)))) s l
    (tr ++ [(t, Http (SlackPost (response_url b) None))]
        ++ [(t + Z.of_N (latency env (Http (SlackPost (response_url b) None))),
             ContextSucceed 200 (Some ""))]).
Proof.
  unfold Speakeasy.doors_done. cbv beta iota. rewrite waterfall_nil.
  unfold Speakeasy.unlocked. change (waiting t [] s l tr) with (idle t s l tr).
  apply deliver_message.
Qed.

Ltac turn H :=
  first
    [ rewrite loop_one in H
    | rewrite loop_two in H;
      match type of H with
      | context [if ?x <=? ?y then _ else _] => destruct (Z.leb_spec x y)
      end ];
  cbn [fst snd] in H.

Ltac settle H Hr Ho Hi :=
  repeat first
    [ rewrite exec_unlock_now in H
    | rewrite (exec_on_unlock _ _ _ _ _ _ _ _ _ _ Hr Ho) in H
    | rewrite (exec_on_unlock _ _ _ _ _ _ _ _ _ _ Hr Hi) in H
    | rewrite exec_on_relayed in H; cbn [Nat.eqb] in H
    | rewrite fin_unlocked in H ];
  cbv zeta in H; cbn [app] in H.

(** The unlock of [bw], turn by turn, for every latency of the two unlock
    calls and of the relays. *)
Lemma compound_unlock_runs env st b rest spu e t s l tr f :
  Speakeasy.St.args st = "bw" :: rest ->
  Speakeasy.St.respond st = Speakeasy.respond b ->
  speakeasy (Speakeasy.St.user st) = Some spu ->
  expires spu = Some e ->
  (e <? t) = false ->
  unlock_answers env (Speakeasy.St.headers st) west_outer = true ->
  unlock_answers env (Speakeasy.St.headers st) west_inner = true ->
  let headers := Speakeasy.St.headers st in
  let a1 := answered env headers (outer_timer t) west_outer in
  let b1 := answered env headers (inner_timer t) west_inner in
  let outer := unlock_text env headers west_outer in
  let inner := unlock_text env headers west_inner in
  exists tr' T l',
    loop (S (S (S (S (S (S (S f))))))) env
      (exec env (Speakeasy.UnlockHandler st (Speakeasy.deliver b)) (idle t s l tr))
    = idle T s l' (tr ++ tr')
    /\ lock_calls tr'
       = [ (outer_timer t, Unlock "3768" headers); (inner_timer t, Unlock "3766" headers) ]
    /\ timed_texts tr'
       = (if a1 <=? b1 then [(a1, outer); (b1, inner)] else [(b1, inner); (a1, outer)])
    /\ relays tr'
       = (if a1 <=? b1 then [Some outer; Some inner] else [Some inner; Some outer]) ++ [None]
    /\ updates tr' = [] /\ store_reads tr' = [].
Proof.
  intros Ha Hr Hu He Ht Ho Hi headers a1 b1 outer inner.
  remember (loop _ env _) as m eqn:Hm.
  rewrite (UnlockHandler_sets_timers env st _ rest spu e) in Hm by assumption.
  rewrite loop_two in Hm.
  replace (outer_timer t <=? inner_timer t) with true in Hm
    by (symmetry; apply Z.leb_le; unfold outer_timer, inner_timer; lia).
  settle Hm Hr Ho Hi.
  do 5 (turn Hm; settle Hm Hr Ho Hi).
  all: subst m; rewrite <- ?app_assoc; cbn [app].
  all: eexists _, _, _; split; [reflexivity|].
  all: cbn [lock_calls timed_texts relays updates store_reads code west_outer west_inner].
  all: subst a1 b1 outer inner headers.
  all: match goal with
       | |- context [if ?x <=? ?y then _ else _] => destruct (Z.leb_spec x y)
       end.
  all: try (exfalso; unfold answered, outer_timer, inner_timer in *; lia).
  all: repeat split; reflexivity.
Qed.

(** The dispatcher hands an [unlock] or [open] request to the unlock
    handler. *)
Lemma dispatch_unlock env st done m :
  Speakeasy.St.command st = "unlock" \/ Speakeasy.St.command st = "open" ->
  exec env (Speakeasy.GetDispatchHandler st done) m = exec env (Speakeasy.UnlockHandler st done) m.
Proof. intros [H|H]; unfold Speakeasy.GetDispatchHandler; now rewrite H. Qed.

(** A compound unlock, from the request to the return of the lambda. *)
Lemma compound_unlock_request env s t0 b dtok du sp pool login reply rest e fuel :
  let headers := Some {| x_login_secret := secret reply |} in
  let t := t_dispatch env t0 b sp login in
  command b = "unlock" \/ command b = "open" ->
  JS.split " " (text b) = "bw" :: rest ->
  reaches_dispatch env s t0 b dtok du sp pool login reply ->
  expires sp = Some e ->
  t <= e ->
  unlock_answers env headers west_outer = true ->
  unlock_answers env headers west_inner = true ->
  let a1 := answered env headers (outer_timer t) west_outer in
  let b1 := answered env headers (inner_timer t) west_inner in
  let outer := unlock_text env headers west_outer in
  let inner := unlock_text env headers west_inner in
  exists tr' T l',
    invoke (S (S (S (S (S (S (S (S (S (S (S (S fuel)))))))))))) env s t0
      (Speakeasy.handle {| body := Some b |})
    = idle T (recorded env t0 b s du sp) l' (prefix env t0 b sp login ++ tr')
    /\ lock_calls tr'
       = [ (outer_timer t, Unlock "3768" headers); (inner_timer t, Unlock "3766" headers) ]
    /\ timed_texts tr'
       = (if a1 <=? b1 then [(a1, outer); (b1, inner)] else [(b1, inner); (a1, outer)])
    /\ relays tr'
       = (if a1 <=? b1 then [Some outer; Some inner] else [Some inner; Some outer]) ++ [None]
    /\ updates tr' = [] /\ store_reads tr' = [].
Proof.
  intros headers t Hc Hargs Hr He Hle Ho Hi a1 b1 outer inner.
  rewrite (reach_dispatch env s t0 b dtok du sp pool login reply) by assumption.
  destruct Hr as [[Hh Hf1 Hs1 Htok Hf2 Hs2 Hdoc Hen Hlim Hm Hf3 Hf4] Hs4 Hdraw Hsign].
  rewrite dispatch_unlock by exact Hc.
  pose proof (unshift_expires (new_attempt env t0 b) (unmarshalItem (user_id b) du)) as Hexp.
  cbn [speakeasy unmarshalItem] in Hexp. rewrite Hdoc in Hexp.
  destruct (speakeasy (Speakeasy.unshift (new_attempt env t0 b) (unmarshalItem (user_id b) du)))
    as [spu|] eqn:Eu; [|discriminate].
  injection Hexp as Hexp.
  apply (compound_unlock_runs env (dispatched env t0 b dtok du pool reply) b rest spu e).
  - exact Hargs.
  - reflexivity.
  - exact Eu.
  - now rewrite Hexp.
  - apply Z.ltb_ge. exact Hle.
  - exact Ho.
  - exact Hi.
Qed.




(** The dispatcher and the unlock handler, in terms of [route] and
    [door_argument]. *)
Lemma GetDispatchHandler_route st done :
  Speakeasy.GetDispatchHandler st done =
  match Speakeasy.route st with
  | Speakeasy.ToStatus => Speakeasy.StatusHandler st done
  | Speakeasy.ToCheckout => Speakeasy.CheckoutHandler st done
  | Speakeasy.ToUnlock => Speakeasy.UnlockHandler st done
  | Speakeasy.Unrouted => done (Err Speakeasy.unknown_command_message)
  end.
Proof.
  unfold Speakeasy.GetDispatchHandler, Speakeasy.route. cbv zeta.
  destruct (String.eqb (Speakeasy.St.command st) "status"); [reflexivity|].
  destruct (String.eqb (Speakeasy.St.command st) "checkout"); [reflexivity|].
  now destruct (String.eqb (Speakeasy.St.command st) "unlock"
                || String.eqb (Speakeasy.St.command st) "open").
Qed.

Lemma UnlockHandler_door_argument st done :
  Speakeasy.UnlockHandler st done =
  match Speakeasy.door_argument st with
  | None => done (Err "Please provide a door to unlock.")
  | Some arg =>
      match Speakeasy.doorKey arg with
      | inl message => done (Err message)
      | inr doors =>
          async.waterfall
            [ Speakeasy.check_pass;
              (fun state stepDone =>
                 async.eachOf doors (Speakeasy.unlock_door state)
                   (Speakeasy.doors_done state stepDone)) ]
            st (Speakeasy.unlocked done)
      end
  end.
Proof.
  unfold Speakeasy.UnlockHandler, Speakeasy.door_argument.
  now destruct (Speakeasy.St.args st).
Qed.






(** ** The number of relays *)

(** C8, as the code has it: a request as the proxy forwards it, once it
    has got as far as the sign-in, ends with exactly one message when the
    sign-in fails in transport (the error) or is answered with a JSON body
    (the unknown-command message); but when the sign-in is answered with a
    body that is not JSON, [JSON.parse] throws in the callback, past the
    test of the error: no message at all is relayed, and the lambda never
    returns. *)
Theorem forwarded_request_relays_once_or_dies env s t0 b dtok du sp pool login fuel :
  command b = "/speakeasy" ->
  reaches_logins env s t0 b dtok du sp ->
  s SlackSpeakeasyData !! "logins"
  = Some {| doc_value := Some (Creds pool); doc_speakeasy := None |} ->
  pool !! floor_random_times env (length pool) = Some login ->
  let m := invoke (S (S (S (S (S (S fuel)))))) env s t0 (Speakeasy.handle {| body := Some b |}) in
  match http env (sign_in login) with
  | NetErr err =>
      relays (trace m) = [Some err] /\ finished m /\ crashed m = false
  | Answer (Some _) =>
      relays (trace m) = [Some Speakeasy.unknown_command_message]
      /\ finished m /\ crashed m = false
  | Answer None =>
      relays (trace m) = []
      /\ crashed m = true
      /\ (forall code body, ContextSucceed code body ∉ effects (trace m))
  end.
Proof.
  intros Hc Hl Hs4 Hdraw m. subst m.
  rewrite (reach_logins env s t0 b dtok du sp) by assumption.
  destruct Hl as [Hh Hf1 Hs1 Htok Hf2 Hs2 Hdoc Hen Hlim Hm Hf3 Hf4].
  rewrite waterfall_cons.
  erewrite (GetLogins_found env); cycle 1.
  { assumption. }
  { exact Hs4. }
  cbn [doc_value]. cbv beta iota. rewrite waterfall_cons.
  erewrite (Login_signs_in env) by (try reflexivity; eassumption).
  fold (sign_in login). unfold Speakeasy.on_sign_in.
  destruct (http env (sign_in login)) as [err|[reply|]].
  - rewrite deliver_error. repeat split; reflexivity.
  - cbv beta iota. rewrite waterfall_nil. rewrite dispatch_unknown by exact Hc.
    repeat split; reflexivity.
  - rewrite exec_throw, loop_crashed by reflexivity.
    split; [reflexivity|]. split; [reflexivity|].
    intros code body. unfold effects, prefix_logins. cbn [trace app List.map snd].
    rewrite !elem_of_cons, elem_of_nil. intuition discriminate.
Qed.

(** [/speakeasy status] while the sign-in is answered with a page that is
    not JSON. *)
Lemma forwarded_request_relays_once_or_dies_witness :
  let s := Sample.tables {[ "U1" := Sample.member None ]} in
  let b := Sample.request "/speakeasy" "status" (Some "xoxb-canonical") in
  let m := invoke 6 Sample.sign_in_garbled s 0 (Speakeasy.handle {| body := Some b |}) in
  relays (trace m) = []
  /\ crashed m = true
  /\ (forall code body, ContextSucceed code body ∉ effects (trace m)).
Proof.
  apply (forwarded_request_relays_once_or_dies Sample.sign_in_garbled
           (Sample.tables {[ "U1" := Sample.member None ]}) 0
           (Sample.request "/speakeasy" "status" (Some "xoxb-canonical"))
           Sample.token_doc (Sample.member None) (Sample.member_doc None)
           [Sample.bot] Sample.bot 0).
  - reflexivity.
  - constructor; reflexivity.
  - reflexivity.
  - reflexivity.
Defined.

(** After the two door messages of a compound unlock the last callback of
    the pipeline posts once more to the callback address, with no text
    (the body [{}]), and only then returns: three posts, two of them with
    a text. *)
Theorem compound_unlock_posts_a_third_time env s t0 b dtok du sp pool login reply rest e fuel :
  let headers := Some {| x_login_secret := secret reply |} in
  let t := t_dispatch env t0 b sp login in
  command b = "unlock" \/ command b = "open" ->
  JS.split " " (text b) = "bw" :: rest ->
  reaches_dispatch env s t0 b dtok du sp pool login reply ->
  expires sp = Some e ->
  t <= e ->
  unlock_answers env headers west_outer = true ->
  unlock_answers env headers west_inner = true ->
  let m := invoke (S (S (S (S (S (S (S (S (S (S (S (S fuel)))))))))))) env s t0
             (Speakeasy.handle {| body := Some b |}) in
  let a1 := answered env headers (t + 10) west_outer in
  let b1 := answered env headers (t + 10000) west_inner in
  let outer := unlock_text env headers west_outer in
  let inner := unlock_text env headers west_inner in
  relays (trace m)
  = (if a1 <=? b1 then [Some outer; Some inner] else [Some inner; Some outer]) ++ [None]
  /\ length (relays (trace m)) = 3%nat
  /\ last (relays (trace m)) = Some None
  /\ finished m /\ crashed m = false.
Proof.
  intros headers t Hc Hargs Hr He Hle Ho Hi m a1 b1 outer inner.
  destruct (compound_unlock_request env s t0 b dtok du sp pool login reply rest e fuel
              Hc Hargs Hr He Hle Ho Hi) as (tr' & T & l' & Hm & _ & _ & Hrelays & _).
  subst m. rewrite Hm. cbn [trace idle].
  assert (Hp : relays (prefix env t0 b sp login ++ tr') = relays tr').
  { unfold prefix, sign_in. reflexivity. }
  rewrite Hp, Hrelays.
  fold t. change (outer_timer t) with (t + 10). change (inner_timer t) with (t + 10000).
  fold headers a1 b1 outer inner.
  destruct (a1 <=? b1); repeat split; reflexivity.
Qed.

Lemma compound_unlock_posts_a_third_time_witness :
  let headers := Some {| x_login_secret := Some "s3cr3t" |} in
  let s := Sample.tables {[ "U1" := Sample.member None ]} in
  let b := Sample.request "unlock" "bw" (Some "xoxb-canonical") in
  let m := invoke 12 Sample.inner_fails s 0 (Speakeasy.handle {| body := Some b |}) in
  let a1 := answered Sample.inner_fails headers (25 + 10) west_outer in
  let b1 := answered Sample.inner_fails headers (25 + 10000) west_inner in
  let outer := unlock_text Sample.inner_fails headers west_outer in
  let inner := unlock_text Sample.inner_fails headers west_inner in
  relays (trace m)
  = (if a1 <=? b1 then [Some outer; Some inner] else [Some inner; Some outer]) ++ [None]
  /\ length (relays (trace m)) = 3%nat
  /\ last (relays (trace m)) = Some None
  /\ finished m /\ crashed m = false.
Proof.
  apply (compound_unlock_posts_a_third_time Sample.inner_fails
           (Sample.tables {[ "U1" := Sample.member None ]}) 0
           (Sample.request "unlock" "bw" (Some "xoxb-canonical"))
           Sample.token_doc (Sample.member None) (Sample.member_doc None)
           [Sample.bot] Sample.bot Sample.signed [] 90000000 0).
  - left. reflexivity.
  - reflexivity.
  - constructor; [constructor|..]; reflexivity.
  - reflexivity.
  - vm_compute. discriminate.
  - reflexivity.
  - reflexivity.
Defined.

(** The same runs, computed: a compound unlock whose inner call fails, and
    the unlock of a single door. *)
Example compound_unlock_three_posts :
  relays (trace (invoke 12 Sample.inner_fails
                   (Sample.tables {[ "U1" := Sample.member None ]}) 0
                   (Speakeasy.handle
                      {| body := Some (Sample.request "unlock" "bw" (Some "xoxb-canonical")) |})))
  = [ Some "Brip West Outer: Unlocked!";
      Some "Brip West Inner: Error: socket hang up";
      None ].
Proof. vm_compute. reflexivity. Qed.

Example single_unlock_two_posts :
  relays (trace (invoke 12 Sample.calm
                   (Sample.tables {[ "U1" := Sample.member None ]}) 0
                   (Speakeasy.handle
                      {| body := Some (Sample.request "unlock" "bwo" (Some "xoxb-canonical")) |})))
  = [ Some "Brip West Outer: Unlocked!"; None ].
Proof. vm_compute. reflexivity. Qed.

(** * Further properties of the lambdas *)

(** ** The stages that turn a request away *)

Local Abbreviation pipeline_end b :=
  (fun r : Outcome Speakeasy.St.t =>
     match r with
     | Err err => Speakeasy.deliver b (Err err)
     | Next state => Speakeasy.GetDispatchHandler state (Speakeasy.deliver b)
     end) (only parsing).

(** X1: when the settings table holds no [slack_auth_token] item, a request
    that is not a help request is answered with the cannot-confirm message
    after that one read; neither the users table nor the lock API is
    touched. *)
Theorem missing_token_record_is_reported env s t0 b fuel :
  first_is (JS.split " " (text b)) "help" = false ->
  fault env (DbGet SlackSpeakeasyData "slack_auth_token") = None ->
  s SlackSpeakeasyData !! "slack_auth_token" = None ->
  let m := invoke (S (S fuel)) env s t0 (Speakeasy.handle {| body := Some b |}) in
  effects (trace m) =
    [ DbGet SlackSpeakeasyData "slack_auth_token";
      Http (SlackPost (response_url b) (Some token_missing_message));
      ContextSucceed 200 (Some "") ]
  /\ store m = s /\ finished m /\ crashed m = false.
Proof.
  intros Hh Hf Hs m. subst m.
  unfold invoke. rewrite handle_enters_pipeline by assumption.
  change (boot s t0) with (idle t0 s no_local []).
  rewrite waterfall_cons. unfold Speakeasy.GetSlackAuthToken.
  rewrite turn_GetItem, Hf. unfold db_getItem. rewrite Hs.
  cbn [fmap option_fmap option_map]. rewrite deliver_error.
  repeat split; reflexivity.
Qed.

Lemma missing_token_record_is_reported_witness :
  let s : Store := fun _ => ∅ in
  let b := Sample.request "status" "" (Some "xoxb-canonical") in
  let m := invoke 2 Sample.calm s 0 (Speakeasy.handle {| body := Some b |}) in
  effects (trace m) =
    [ DbGet SlackSpeakeasyData "slack_auth_token";
      Http (SlackPost (response_url b) (Some token_missing_message));
      ContextSucceed 200 (Some "") ]
  /\ store m = s /\ finished m /\ crashed m = false.
Proof.
  apply (missing_token_record_is_reported Sample.calm (fun _ => ∅) 0
           (Sample.request "status" "" (Some "xoxb-canonical")) 0); reflexivity.
Defined.

(** X2: when DynamoDB fails the read of the token, the error it returns is what
    the user is sent, as it is, and the request ends there. *)
Theorem token_read_error_is_relayed env s t0 b err fuel :
  first_is (JS.split " " (text b)) "help" = false ->
  fault env (DbGet SlackSpeakeasyData "slack_auth_token") = Some err ->
  let m := invoke (S (S fuel)) env s t0 (Speakeasy.handle {| body := Some b |}) in
  effects (trace m) =
    [ DbGet SlackSpeakeasyData "slack_auth_token";
      Http (SlackPost (response_url b) (Some err));
      ContextSucceed 200 (Some "") ]
  /\ store m = s /\ finished m /\ crashed m = false.
Proof.
  intros Hh Hf m. subst m.
  unfold invoke. rewrite handle_enters_pipeline by assumption.
  change (boot s t0) with (idle t0 s no_local []).
  rewrite waterfall_cons. unfold Speakeasy.GetSlackAuthToken.
  rewrite turn_GetItem, Hf. cbn [exec]. rewrite deliver_error.
  repeat split; reflexivity.
Qed.

Lemma token_read_error_is_relayed_witness :
  let s := Sample.tables ∅ in
  let b := Sample.request "status" "" (Some "xoxb-canonical") in
  let m := invoke 2 Sample.store_down s 0 (Speakeasy.handle {| body := Some b |}) in
  effects (trace m) =
    [ DbGet SlackSpeakeasyData "slack_auth_token";
      Http (SlackPost (response_url b) (Some "ServiceUnavailable"));
      ContextSucceed 200 (Some "") ]
  /\ store m = s /\ finished m /\ crashed m = false.
Proof.
  apply (token_read_error_is_relayed Sample.store_down (Sample.tables ∅) 0
           (Sample.request "status" "" (Some "xoxb-canonical")) "ServiceUnavailable" 0);
    reflexivity.
Defined.

(** The pipeline once the token has been checked. *)
Lemma reach_user_read env s t0 b dtok f :
  first_is (JS.split " " (text b)) "help" = false ->
  fault env (DbGet SlackSpeakeasyData "slack_auth_token") = None ->
  s SlackSpeakeasyData !! "slack_auth_token" = Some dtok ->
  Speakeasy.token_differs (doc_value dtok) (token b) = false ->
  invoke (S f) env s t0 (Speakeasy.handle {| body := Some b |}) =
  loop f env
    (exec env
       (async.waterfall
          [Speakeasy.GetCallingUser; Speakeasy.CheckCallingUser; Speakeasy.RegisterUserAttempt;
           Speakeasy.GetLogins; Speakeasy.Login]
          (Speakeasy.set_canonicalToken (doc_value dtok)
             (Speakeasy.initial_state b (JS.split " " (text b))))
          (pipeline_end b))
       (idle (t_token env t0) s no_local [(t0, DbGet SlackSpeakeasyData "slack_auth_token")])).
Proof.
  intros Hh Hf1 Hs1 Htok.
  unfold invoke. rewrite handle_enters_pipeline by assumption.
  change (boot s t0) with (idle t0 s no_local []).
  rewrite waterfall_cons.
  rewrite (GetSlackAuthToken_found env) with (d := dtok) by assumption.
  cbv beta iota. rewrite waterfall_cons, exec_CheckSlackAuthToken.
  cbn [Speakeasy.St.canonicalToken Speakeasy.St.token Speakeasy.set_canonicalToken
       Speakeasy.initial_state].
  rewrite Htok. reflexivity.
Qed.

(** X3: a user with no record in the users table is told so; nothing is written
    and the lock API is not called. *)
Theorem unknown_user_is_turned_away env s t0 b dtok fuel :
  first_is (JS.split " " (text b)) "help" = false ->
  fault env (DbGet SlackSpeakeasyData "slack_auth_token") = None ->
  s SlackSpeakeasyData !! "slack_auth_token" = Some dtok ->
  Speakeasy.token_differs (doc_value dtok) (token b) = false ->
  fault env (DbGet TFoSlackUsers (user_id b)) = None ->
  s TFoSlackUsers !! user_id b = None ->
  let m := invoke (S (S (S fuel))) env s t0 (Speakeasy.handle {| body := Some b |}) in
  effects (trace m) =
    [ DbGet SlackSpeakeasyData "slack_auth_token";
      DbGet TFoSlackUsers (user_id b);
      Http (SlackPost (response_url b) (Some user_missing_message));
      ContextSucceed 200 (Some "") ]
  /\ store m = s /\ finished m /\ crashed m = false.
Proof.
  intros Hh Hf1 Hs1 Htok Hf2 Hs2 m. subst m.
  rewrite (reach_user_read env s t0 b dtok) by assumption.
  rewrite waterfall_cons. unfold Speakeasy.GetCallingUser.
  rewrite turn_GetItem.
  cbn [Speakeasy.St.user Speakeasy.set_canonicalToken Speakeasy.initial_state id].
  rewrite Hf2. unfold db_getItem. rewrite Hs2.
  cbn [fmap option_fmap option_map]. rewrite deliver_error.
  repeat split; reflexivity.
Qed.

Lemma unknown_user_is_turned_away_witness :
  let s := Sample.tables ∅ in
  let b := Sample.request "status" "" (Some "xoxb-canonical") in
  let m := invoke 3 Sample.calm s 0 (Speakeasy.handle {| body := Some b |}) in
  effects (trace m) =
    [ DbGet SlackSpeakeasyData "slack_auth_token";
      DbGet TFoSlackUsers (user_id b);
      Http (SlackPost (response_url b) (Some user_missing_message));
      ContextSucceed 200 (Some "") ]
  /\ store m = s /\ finished m /\ crashed m = false.
Proof.
  apply (unknown_user_is_turned_away Sample.calm (Sample.tables ∅) 0
           (Sample.request "status" "" (Some "xoxb-canonical")) Sample.token_doc 0);
    reflexivity.
Defined.

(** X4: a user whose record has no truthy [speakeasy.enabled], the record
    without a [speakeasy] document included, gets the rollout message; no
    attempt is recorded, whatever the stored attempts are. *)
Theorem disabled_user_is_turned_away env s t0 b dtok du fuel :
  first_is (JS.split " " (text b)) "help" = false ->
  fault env (DbGet SlackSpeakeasyData "slack_auth_token") = None ->
  s SlackSpeakeasyData !! "slack_auth_token" = Some dtok ->
  Speakeasy.token_differs (doc_value dtok) (token b) = false ->
  fault env (DbGet TFoSlackUsers (user_id b)) = None ->
  s TFoSlackUsers !! user_id b = Some du ->
  match doc_speakeasy du with Some sp => enabled sp = false | None => True end ->
  let m := invoke (S (S (S fuel))) env s t0 (Speakeasy.handle {| body := Some b |}) in
  effects (trace m) =
    [ DbGet SlackSpeakeasyData "slack_auth_token";
      DbGet TFoSlackUsers (user_id b);
      Http (SlackPost (response_url b) (Some rollout_message));
      ContextSucceed 200 (Some "") ]
  /\ store m = s /\ finished m /\ crashed m = false.
Proof.
  intros Hh Hf1 Hs1 Htok Hf2 Hs2 Hdis m. subst m.
  rewrite (reach_rate_limiter env s t0 b dtok du) by assumption.
  rewrite waterfall_cons, exec_CheckCallingUser.
  cbn [Speakeasy.St.user Speakeasy.set_user].
  assert (Hen : Speakeasy.get_enabled (unmarshalItem (user_id b) du) = false).
  { unfold Speakeasy.get_enabled. cbn [speakeasy unmarshalItem].
    destruct (doc_speakeasy du); [exact Hdis | reflexivity]. }
  rewrite Hen. cbn [negb]. rewrite deliver_error.
  repeat split; reflexivity.
Qed.

Lemma disabled_user_is_turned_away_witness :
  let s := Sample.tables {[ "U1" := {| doc_value := None; doc_speakeasy := None |} ]} in
  let b := Sample.request "status" "" (Some "xoxb-canonical") in
  let m := invoke 3 Sample.calm s 0 (Speakeasy.handle {| body := Some b |}) in
  effects (trace m) =
    [ DbGet SlackSpeakeasyData "slack_auth_token";
      DbGet TFoSlackUsers (user_id b);
      Http (SlackPost (response_url b) (Some rollout_message));
      ContextSucceed 200 (Some "") ]
  /\ store m = s /\ finished m /\ crashed m = false.
Proof.
  apply (disabled_user_is_turned_away Sample.calm
           (Sample.tables {[ "U1" := {| doc_value := None; doc_speakeasy := None |} ]}) 0
           (Sample.request "status" "" (Some "xoxb-canonical")) Sample.token_doc
           {| doc_value := None; doc_speakeasy := None |} 0);
    reflexivity.
Defined.

(** ** The rate limiter, all cases *)

(** X5: for an enabled user the verdict of [CheckCallingUser] is this and no
    more: the request is refused exactly when rate limiting is not disabled
    for the user and at least three stored attempts are both newer than one
    minute and of a rate-limited operation; a missing list counts as empty,
    and the state goes on unchanged otherwise. *)
Theorem rate_limit_verdict env st done t s l tr :
  Speakeasy.get_enabled (Speakeasy.St.user st) = true ->
  let u := Speakeasy.St.user st in
  let recent := Speakeasy.lastMinute t (default [] (Speakeasy.get_attempts u)) in
  exec env (Speakeasy.CheckCallingUser st done) (idle t s l tr) =
  exec env
    (done (if negb (Speakeasy.get_disableRateLimiting u) && (3 <=? length recent)%nat
           then Err Speakeasy.rate_limit_message
           else Next st))
    (idle t s l tr).
Proof.
  intros Hen u recent. rewrite exec_CheckCallingUser, Hen. cbn [negb].
  unfold throttled. subst recent u.
  destruct (Speakeasy.get_attempts (Speakeasy.St.user st)) as [a|];
    [change (default [] (Some a)) with a | change (default [] (@None (list Attempt))) with (@nil Attempt)].
  - destruct (Speakeasy.get_disableRateLimiting (Speakeasy.St.user st)); cbn [negb andb].
    + now rewrite orb_true_r.
    + rewrite orb_false_r.
      destruct (Nat.ltb_spec (length a) 3) as [Hlt|Hge]; [|reflexivity].
      pose proof (filter_length_le
        (fun x => (t - 60000 <? at_ x) && includes Speakeasy.rate_limited_ops (op x)) a) as Hle.
      fold (Speakeasy.lastMinute t a) in Hle.
      replace (3 <=? length (Speakeasy.lastMinute t a))%nat with false
        by (symmetry; apply Nat.leb_gt; lia).
      reflexivity.
  - cbn [Speakeasy.lastMinute List.filter length Nat.leb]. now rewrite andb_false_r.
Qed.

(** A member with three attempts, two of them a minute old or more. *)
Lemma rate_limit_verdict_witness :
  let history := [ {| at_ := 100000; op := "unlock" |}; {| at_ := 30000; op := "unlock" |};
                   {| at_ := 20000; op := "status" |} ] in
  let st := Speakeasy.set_user (unmarshalItem "U1" (Sample.member (Some history)))
              (Speakeasy.initial_state (Sample.request "status" "" None) [""]) in
  let done := fun _ : Outcome Speakeasy.St.t => Return in
  let u := Speakeasy.St.user st in
  let recent := Speakeasy.lastMinute 100001 (default [] (Speakeasy.get_attempts u)) in
  exec Sample.calm (Speakeasy.CheckCallingUser st done) (idle 100001 (Sample.tables ∅) no_local []) =
  exec Sample.calm
    (done (if negb (Speakeasy.get_disableRateLimiting u) && (3 <=? length recent)%nat
           then Err Speakeasy.rate_limit_message
           else Next st))
    (idle 100001 (Sample.tables ∅) no_local []).
Proof.
  intros history st done.
  apply (rate_limit_verdict Sample.calm st done 100001 (Sample.tables ∅) no_local []).
  reflexivity.
Defined.

(** ** Failures of the recording and of the sign-in *)

Lemma RegisterUserAttempt_fault f env st done t s l tr err :
  let entry := {| at_ := t; op := Speakeasy.St.command st |} in
  let written := Speakeasy.record_attempt entry (Speakeasy.get_attempts (Speakeasy.St.user st)) in
  Speakeasy.marshals written = true ->
  fault env (DbUpdate (id (Speakeasy.St.user st)) (SetAttempts written)) = Some err ->
  loop (S f) env (exec env (Speakeasy.RegisterUserAttempt st done) (idle t s l tr)) =
  loop f env
    (exec env (done (Err err))
       (idle (t + Z.of_N (latency env (DbUpdate (id (Speakeasy.St.user st)) (SetAttempts written))))
          s l (tr ++ [(t, DbUpdate (id (Speakeasy.St.user st)) (SetAttempts written))]))).
Proof.
  intros entry written Hm Hf. unfold Speakeasy.RegisterUserAttempt.
  cbn [exec idle clock]. fold entry. fold written. rewrite Hm. cbn [exec idle].
  assert (Hid : id (Speakeasy.St.user
                      (Speakeasy.set_user (Speakeasy.unshift entry (Speakeasy.St.user st)) st))
                = id (Speakeasy.St.user st)).
  { cbn [Speakeasy.St.user Speakeasy.set_user]. unfold Speakeasy.unshift.
    destruct (speakeasy (Speakeasy.St.user st)) as [sp|]; [|reflexivity].
    now destruct (attempts sp). }
  rewrite Hid. rewrite Hf. reflexivity.
Qed.

(** X6: when the list to write marshals (no entry of it, the new one
    included, has an empty operation) and the update that records the
    attempt fails, the error is what the user is sent and the pipeline
    stops: the credential pool is not read, no sign-in is made and the
    tables are as they were. *)
Theorem failed_recording_ends_pipeline env s t0 b dtok du sp err fuel :
  first_is (JS.split " " (text b)) "help" = false ->
  fault env (DbGet SlackSpeakeasyData "slack_auth_token") = None ->
  s SlackSpeakeasyData !! "slack_auth_token" = Some dtok ->
  Speakeasy.token_differs (doc_value dtok) (token b) = false ->
  fault env (DbGet TFoSlackUsers (user_id b)) = None ->
  s TFoSlackUsers !! user_id b = Some du ->
  doc_speakeasy du = Some sp ->
  enabled sp = true ->
  throttled (t_user env t0 b) (unmarshalItem (user_id b) du) = false ->
  Speakeasy.marshals (written env t0 b sp) = true ->
  fault env (DbUpdate (user_id b) (SetAttempts (written env t0 b sp))) = Some err ->
  let m := invoke (S (S (S (S fuel)))) env s t0 (Speakeasy.handle {| body := Some b |}) in
  effects (trace m) =
    [ DbGet SlackSpeakeasyData "slack_auth_token";
      DbGet TFoSlackUsers (user_id b);
      DbUpdate (user_id b) (SetAttempts (written env t0 b sp));
      Http (SlackPost (response_url b) (Some err));
      ContextSucceed 200 (Some "") ]
  /\ store m = s /\ finished m /\ crashed m = false.
Proof.
  intros Hh Hf1 Hs1 Htok Hf2 Hs2 Hdoc Hen Hlim Hm Hf3 m. subst m.
  rewrite (reach_rate_limiter env s t0 b dtok du) by assumption.
  rewrite waterfall_cons, exec_CheckCallingUser.
  cbn [Speakeasy.St.user Speakeasy.set_user].
  unfold Speakeasy.get_enabled. cbn [speakeasy unmarshalItem]. rewrite Hdoc, Hen, Hlim.
  cbn [negb]. cbv beta iota. rewrite waterfall_cons.
  assert (Hatt : Speakeasy.get_attempts (unmarshalItem (user_id b) du) = attempts sp).
  { unfold Speakeasy.get_attempts. cbn [speakeasy unmarshalItem]. now rewrite Hdoc. }
  erewrite RegisterUserAttempt_fault; cycle 1.
  { cbn [Speakeasy.St.user Speakeasy.set_user Speakeasy.St.command
         Speakeasy.set_canonicalToken Speakeasy.initial_state id unmarshalItem].
    rewrite Hatt. exact Hm. }
  { cbn [Speakeasy.St.user Speakeasy.set_user Speakeasy.St.command
         Speakeasy.set_canonicalToken Speakeasy.initial_state id unmarshalItem].
    rewrite Hatt. exact Hf3. }
  cbn [Speakeasy.St.user Speakeasy.set_user Speakeasy.St.command
       Speakeasy.set_canonicalToken Speakeasy.initial_state id unmarshalItem].
  rewrite Hatt. rewrite deliver_error.
  repeat split; reflexivity.
Qed.

Lemma failed_recording_ends_pipeline_witness :
  let s := Sample.tables {[ "U1" := Sample.member None ]} in
  let b := Sample.request "status" "" (Some "xoxb-canonical") in
  let m := invoke 4 Sample.updates_fail s 0 (Speakeasy.handle {| body := Some b |}) in
  effects (trace m) =
    [ DbGet SlackSpeakeasyData "slack_auth_token";
      DbGet TFoSlackUsers (user_id b);
      DbUpdate (user_id b) (SetAttempts (written Sample.updates_fail 0 b (Sample.member_doc None)));
      Http (SlackPost (response_url b) (Some "ProvisionedThroughputExceededException"));
      ContextSucceed 200 (Some "") ]
  /\ store m = s /\ finished m /\ crashed m = false.
Proof.
  apply (failed_recording_ends_pipeline Sample.updates_fail
           (Sample.tables {[ "U1" := Sample.member None ]}) 0
           (Sample.request "status" "" (Some "xoxb-canonical"))
           Sample.token_doc (Sample.member None) (Sample.member_doc None)
           "ProvisionedThroughputExceededException" 0);
    reflexivity.
Defined.

(** [Math.floor(Math.random() * n)] is an index below [n]. *)
Lemma floor_random_times_lt env n : (0 < n)%nat -> (floor_random_times env n < n)%nat.
Proof.
  intros Hn. unfold floor_random_times.
  assert (Hk : 0 <= random53 env mod 2 ^ 53 < 2 ^ 53) by (apply Z.mod_pos_bound; lia).
  set (k := random53 env mod 2 ^ 53) in *.
  assert (Hq : 0 <= k * Z.of_nat n / 2 ^ 53 < Z.of_nat n).
  { split.
    - apply Z.div_pos; [|lia]. apply Z.mul_nonneg_nonneg; lia.
    - apply Z.div_lt_upper_bound; [lia|]. apply Z.mul_lt_mono_pos_r; lia. }
  lia.
Qed.

(** X7: with a pool that is not empty [Login] never reads past the end of the
    list: whatever the random draw, it posts one sign-in with the username
    and the password of a login of the pool, and goes on with the answer. *)
Theorem login_draws_from_pool env st done t s l tr pool f :
  Speakeasy.St.logins st = Some (Creds pool) ->
  pool <> [] ->
  exists login,
    login ∈ pool
    /\ loop (S f) env (exec env (Speakeasy.Login st done) (idle t s l tr)) =
       loop f env
         (exec env (Speakeasy.on_sign_in st done (http env (sign_in login)))
            (idle (t + Z.of_N (latency env (Http (sign_in login)))) s l
               (tr ++ [(t, Http (sign_in login))]))).
Proof.
  intros Hl Hne.
  assert (Hlt : (floor_random_times env (length pool) < length pool)%nat).
  { apply floor_random_times_lt. destruct pool; [congruence | cbn; lia]. }
  destruct (lookup_lt_is_Some_2 pool _ Hlt) as [login Hlogin].
  exists login. split.
  - eapply list_elem_of_lookup_2. exact Hlogin.
  - exact (Login_signs_in env f st done t s l tr pool login Hl Hlogin).
Qed.

Lemma login_draws_from_pool_witness :
  let st := Speakeasy.set_logins (Some (Creds [Sample.bot; {| username := "b2"; password := "p2" |}]))
              (Speakeasy.initial_state (Sample.request "status" "" None) [""]) in
  let done := fun _ : Outcome Speakeasy.St.t => Return in
  let pool := [Sample.bot; {| username := "b2"; password := "p2" |}] in
  exists login,
    login ∈ pool
    /\ loop 1 Sample.calm (exec Sample.calm (Speakeasy.Login st done)
                             (idle 0 (Sample.tables ∅) no_local [])) =
       loop 0 Sample.calm
         (exec Sample.calm (Speakeasy.on_sign_in st done (http Sample.calm (sign_in login)))
            (idle (0 + Z.of_N (latency Sample.calm (Http (sign_in login)))) (Sample.tables ∅) no_local
               ([] ++ [(0, Http (sign_in login))]))).
Proof.
  intros st done pool.
  apply (login_draws_from_pool Sample.calm st done 0 (Sample.tables ∅) no_local [] pool 0).
  - reflexivity.
  - discriminate.
Defined.

(** X8: when the sign-in fails in transport, the error is what the user is
    sent, and the dispatcher does not run: no peek, no unlock, no scan. *)
Theorem failed_sign_in_is_relayed env s t0 b dtok du sp pool login err fuel :
  reaches_logins env s t0 b dtok du sp ->
  s SlackSpeakeasyData !! "logins"
  = Some {| doc_value := Some (Creds pool); doc_speakeasy := None |} ->
  pool !! floor_random_times env (length pool) = Some login ->
  http env (sign_in login) = NetErr err ->
  let m := invoke (S (S (S (S (S (S fuel)))))) env s t0 (Speakeasy.handle {| body := Some b |}) in
  relays (trace m) = [Some err]
  /\ List.map snd (lock_calls (trace m)) = [sign_in login]
  /\ store_reads (trace m) =
       [ DbGet SlackSpeakeasyData "slack_auth_token"; DbGet TFoSlackUsers (user_id b);
         DbGet SlackSpeakeasyData "logins" ]
  /\ finished m /\ crashed m = false.
Proof.
  intros Hl Hs4 Hdraw Hsign m. subst m.
  rewrite (reach_logins env s t0 b dtok du sp) by assumption.
  destruct Hl as [Hh Hf1 Hs1 Htok Hf2 Hs2 Hdoc Hen Hlim Hm Hf3 Hf4].
  rewrite waterfall_cons.
  erewrite (GetLogins_found env); cycle 1.
  { assumption. }
  { exact Hs4. }
  cbn [doc_value]. cbv beta iota. rewrite waterfall_cons.
  erewrite (Login_signs_in env) by (try reflexivity; eassumption).
  fold (sign_in login). rewrite Hsign. unfold Speakeasy.on_sign_in.
  rewrite deliver_error.
  repeat split; reflexivity.
Qed.

Lemma failed_sign_in_is_relayed_witness :
  let s := Sample.tables {[ "U1" := Sample.member None ]} in
  let b := Sample.request "status" "" (Some "xoxb-canonical") in
  let m := invoke 6 Sample.sign_in_fails s 0 (Speakeasy.handle {| body := Some b |}) in
  relays (trace m) = [Some "Error: getaddrinfo ENOTFOUND api.getkisi.com"]
  /\ List.map snd (lock_calls (trace m)) = [sign_in Sample.bot]
  /\ store_reads (trace m) =
       [ DbGet SlackSpeakeasyData "slack_auth_token"; DbGet TFoSlackUsers (user_id b);
         DbGet SlackSpeakeasyData "logins" ]
  /\ finished m /\ crashed m = false.
Proof.
  apply (failed_sign_in_is_relayed Sample.sign_in_fails
           (Sample.tables {[ "U1" := Sample.member None ]}) 0
           (Sample.request "status" "" (Some "xoxb-canonical"))
           Sample.token_doc (Sample.member None) (Sample.member_doc None)
           [Sample.bot] Sample.bot "Error: getaddrinfo ENOTFOUND api.getkisi.com" 0).
  - constructor; reflexivity.
  - reflexivity.
  - reflexivity.
  - reflexivity.
Defined.

(** X9: when the sign-in is answered with a body that is not JSON, [JSON.parse]
    throws inside the callback: the process dies, nothing is relayed and
    the lambda never returns. *)
Theorem garbled_sign_in_throws env s t0 b dtok du sp pool login fuel :
  reaches_logins env s t0 b dtok du sp ->
  s SlackSpeakeasyData !! "logins"
  = Some {| doc_value := Some (Creds pool); doc_speakeasy := None |} ->
  pool !! floor_random_times env (length pool) = Some login ->
  http env (sign_in login) = Answer None ->
  let m := invoke (S (S (S (S (S fuel))))) env s t0 (Speakeasy.handle {| body := Some b |}) in
  crashed m = true
  /\ relays (trace m) = []
  /\ (forall code body, ContextSucceed code body ∉ effects (trace m)).
Proof.
  intros Hl Hs4 Hdraw Hsign m. subst m.
  rewrite (reach_logins env s t0 b dtok du sp) by assumption.
  destruct Hl as [Hh Hf1 Hs1 Htok Hf2 Hs2 Hdoc Hen Hlim Hm Hf3 Hf4].
  rewrite waterfall_cons.
  erewrite (GetLogins_found env); cycle 1.
  { assumption. }
  { exact Hs4. }
  cbn [doc_value]. cbv beta iota. rewrite waterfall_cons.
  erewrite (Login_signs_in env) by (try reflexivity; eassumption).
  fold (sign_in login). rewrite Hsign. unfold Speakeasy.on_sign_in.
  rewrite exec_throw, loop_crashed by reflexivity.
  split; [reflexivity|]. split; [reflexivity|].
  intros code body. unfold effects, prefix_logins. cbn [trace app List.map snd].
  rewrite !elem_of_cons, elem_of_nil. intuition discriminate.
Qed.

Lemma garbled_sign_in_throws_witness :
  let s := Sample.tables {[ "U1" := Sample.member None ]} in
  let b := Sample.request "status" "" (Some "xoxb-canonical") in
  let m := invoke 5 Sample.sign_in_garbled s 0 (Speakeasy.handle {| body := Some b |}) in
  crashed m = true
  /\ relays (trace m) = []
  /\ (forall code body, ContextSucceed code body ∉ effects (trace m)).
Proof.
  apply (garbled_sign_in_throws Sample.sign_in_garbled
           (Sample.tables {[ "U1" := Sample.member None ]}) 0
           (Sample.request "status" "" (Some "xoxb-canonical"))
           Sample.token_doc (Sample.member None) (Sample.member_doc None)
           [Sample.bot] Sample.bot 0).
  - constructor; reflexivity.
  - reflexivity.
  - reflexivity.
  - reflexivity.
Defined.

(** ** Checkout below capacity *)

Lemma exec_Moment env k m : exec env (Moment k) m = exec env (k (clock m)) m.
Proof. reflexivity. Qed.

(** Recording an attempt leaves the identity of the user as it is. *)
Lemma unshift_id entry u : id (Speakeasy.unshift entry u) = id u.
Proof.
  unfold Speakeasy.unshift. destruct (speakeasy u) as [sp|]; [|reflexivity].
  destruct (attempts sp); reflexivity.
Qed.

Lemma exec_ConsoleError env k m : exec env (ConsoleError k) m = exec env k m.
Proof. reflexivity. Qed.

Lemma checkout_request_below_capacity env s t0 b dtok du sp pool login reply n fuel :
  command b = "checkout" ->
  reaches_dispatch env s t0 b dtok du sp pool login reply ->
  fault env DbScan = None ->
  let t := t_dispatch env t0 b sp login in
  let t_scanned := t + Z.of_N (latency env DbScan) in
  let extend := DbUpdate (user_id b) (SetExpires (t_scanned + 86400000)) in
  let t_extended := t_scanned + Z.of_N (latency env extend) in
  let post := Http (SlackPost (response_url b) (Some extended_message)) in
  active_passes t_scanned s = Some n ->
  (n < Speakeasy.N_PASSES)%nat ->
  fault env extend = None ->
  invoke (S (S (S (S (S (S (S (S fuel)))))))) env s t0 (Speakeasy.handle {| body := Some b |})
  = idle (t_extended + Z.of_N (latency env post))
      (extended env t0 b s du sp (t_scanned + 86400000)) no_local
      (prefix env t0 b sp login
       ++ [ (t, DbScan); (t_scanned, extend); (t_extended, post);
            (t_extended + Z.of_N (latency env post), ContextSucceed 200 (Some "")) ]).
Proof.
  intros Hc Hr Hf t t_scanned extend t_extended post Hn Hfree Hfu.
  rewrite (reach_dispatch env s t0 b dtok du sp pool login reply) by assumption.
  destruct Hr as [[Hh Hf1 Hs1 Htok Hf2 Hs2 Hdoc Hen Hlim Hm Hf3 Hf4] Hs4 Hdraw Hsign].
  unfold Speakeasy.GetDispatchHandler.
  change (Speakeasy.St.command (dispatched env t0 b dtok du pool reply)) with (command b).
  rewrite Hc. cbn [String.eqb Ascii.eqb Bool.eqb orb].
  unfold Speakeasy.CheckoutHandler.
  rewrite waterfall_cons, turn_Scan, Hf. cbv beta iota. rewrite waterfall_cons.
  cbn [exec idle clock Speakeasy.St.allUsers Speakeasy.set_allUsers].
  fold t t_scanned.
  assert (Hn' : active_passes t_scanned (recorded env t0 b s du sp) = Some n).
  { unfold recorded. erewrite active_passes_recorded by eassumption. exact Hn. }
  unfold active_passes in Hn'.
  destruct (Speakeasy.havePasses _ (db_scan (recorded env t0 b s du sp))) as [passes|];
    [|discriminate].
  injection Hn' as Hn'. subst n.
  apply Nat.leb_gt in Hfree. rewrite Hfree.
  cbv beta iota. rewrite waterfall_cons, exec_Moment.
  cbn [idle clock].
  change (Speakeasy.St.user (Speakeasy.set_allUsers _ (dispatched env t0 b dtok du pool reply)))
    with (Speakeasy.unshift (new_attempt env t0 b) (unmarshalItem (user_id b) du)).
  rewrite unshift_id. cbn [id unmarshalItem]. fold extend.
  erewrite turn_UpdateItem_ok; cycle 1.
  { exact Hfu. }
  { unfold recorded.
    apply db_updateItem_stored with (sp := apply_update (SetAttempts (written env t0 b sp)) sp).
    - unfold put_user. apply lookup_insert_eq.
    - reflexivity. }
  cbv beta iota. rewrite waterfall_nil.
  rewrite deliver_message. fold t_extended post.
  rewrite <- !app_assoc. reflexivity.
Qed.

(** X10: a checkout issued while fewer than ten user records hold an active pass
    sets the caller's pass expiry to twenty-four hours after the instant the
    scan answers, whatever the expiry was before, and only then answers
    with the confirmation. *)
Theorem checkout_below_capacity_extends_pass env s t0 b dtok du sp pool login reply n fuel :
  command b = "checkout" ->
  reaches_dispatch env s t0 b dtok du sp pool login reply ->
  fault env DbScan = None ->
  let t_scanned := t_dispatch env t0 b sp login + Z.of_N (latency env DbScan) in
  active_passes t_scanned s = Some n ->
  (n < Speakeasy.N_PASSES)%nat ->
  fault env (DbUpdate (user_id b) (SetExpires (t_scanned + 86400000))) = None ->
  let m := invoke (S (S (S (S (S (S (S (S fuel)))))))) env s t0
             (Speakeasy.handle {| body := Some b |}) in
  relays (trace m) = [Some extended_message]
  /\ updates (trace m) =
       [ (user_id b, SetAttempts (written env t0 b sp));
         (user_id b, SetExpires (t_scanned + 86400000)) ]
  /\ (expires <$> stored (store m) (user_id b)) = Some (Some (t_scanned + 86400000))
  /\ finished m /\ crashed m = false.
Proof.
  intros Hc Hr Hf t_scanned Hn Hfree Hfu m. subst m.
  rewrite (checkout_request_below_capacity env s t0 b dtok du sp pool login reply n fuel)
    by assumption.
  fold t_scanned.
  unfold stored, extended, put_user. cbn [store idle]. rewrite lookup_insert_eq.
  repeat split; reflexivity.
Qed.

Lemma checkout_below_capacity_extends_pass_witness :
  let s := Sample.tables {[ "U1" := Sample.doc_of Sample.lapsed ]} in
  let b := Sample.request "checkout" "" (Some "xoxb-canonical") in
  let m := invoke 8 Sample.calm s 0 (Speakeasy.handle {| body := Some b |}) in
  relays (trace m) = [Some extended_message]
  /\ updates (trace m) =
       [ (user_id b, SetAttempts (written Sample.calm 0 b Sample.lapsed));
         (user_id b, SetExpires (30 + 86400000)) ]
  /\ (expires <$> stored (store m) (user_id b)) = Some (Some (30 + 86400000))
  /\ finished m /\ crashed m = false.
Proof.
  apply (checkout_below_capacity_extends_pass Sample.calm
           (Sample.tables {[ "U1" := Sample.doc_of Sample.lapsed ]}) 0
           (Sample.request "checkout" "" (Some "xoxb-canonical"))
           Sample.token_doc (Sample.doc_of Sample.lapsed) Sample.lapsed
           [Sample.bot] Sample.bot Sample.signed 0%nat 0).
  - reflexivity.
  - constructor; [constructor|..]; reflexivity.
  - reflexivity.
  - vm_compute. reflexivity.
  - vm_compute. lia.
  - reflexivity.
Defined.

(** ** Unlock: the door key and the pass *)

(** X11: an unlock whose first token is not a door key is answered with the
    unknown-door message, before the pass is looked at: no unlock call is
    made, and nothing but the attempt is written. The compound key is
    compared as typed and the other keys in lower case, so [BW] is
    not a door key. *)
Theorem unlock_of_unknown_door_is_refused env s t0 b dtok du sp pool login reply arg rest fuel :
  command b = "unlock" \/ command b = "open" ->
  JS.split " " (text b) = arg :: rest ->
  arg <> "bw" ->
  find_door (JS.toLowerCase arg) = None ->
  reaches_dispatch env s t0 b dtok du sp pool login reply ->
  let m := invoke (S (S (S (S (S (S fuel)))))) env s t0 (Speakeasy.handle {| body := Some b |}) in
  relays (trace m) = [Some Speakeasy.unknown_door_message]
  /\ List.map snd (lock_calls (trace m)) = [sign_in login]
  /\ updates (trace m) = [(user_id b, SetAttempts (written env t0 b sp))]
  /\ finished m /\ crashed m = false.
Proof.
  intros Hc Hargs Hbw Hdoor Hr m. subst m.
  rewrite (reach_dispatch env s t0 b dtok du sp pool login reply) by assumption.
  rewrite dispatch_unlock by exact Hc.
  unfold Speakeasy.UnlockHandler.
  change (Speakeasy.St.args (dispatched env t0 b dtok du pool reply)) with (JS.split " " (text b)).
  rewrite Hargs. unfold Speakeasy.doorKey.
  apply String.eqb_neq in Hbw. rewrite Hbw, Hdoor.
  rewrite deliver_error.
  repeat split; reflexivity.
Qed.

Lemma unlock_of_unknown_door_is_refused_witness :
  let s := Sample.tables {[ "U1" := Sample.member None ]} in
  let b := Sample.request "unlock" "BW now" (Some "xoxb-canonical") in
  let m := invoke 6 Sample.calm s 0 (Speakeasy.handle {| body := Some b |}) in
  relays (trace m) = [Some Speakeasy.unknown_door_message]
  /\ List.map snd (lock_calls (trace m)) = [sign_in Sample.bot]
  /\ updates (trace m) = [(user_id b, SetAttempts (written Sample.calm 0 b (Sample.member_doc None)))]
  /\ finished m /\ crashed m = false.
Proof.
  apply (unlock_of_unknown_door_is_refused Sample.calm
           (Sample.tables {[ "U1" := Sample.member None ]}) 0
           (Sample.request "unlock" "BW now" (Some "xoxb-canonical"))
           Sample.token_doc (Sample.member None) (Sample.member_doc None)
           [Sample.bot] Sample.bot Sample.signed "BW" ["now"] 0).
  - left. reflexivity.
  - reflexivity.
  - discriminate.
  - reflexivity.
  - constructor; [constructor|..]; reflexivity.
Defined.

Lemma unlock_request_without_valid_pass
    env s t0 b dtok du sp pool login reply arg rest doors refusal fuel :
  command b = "unlock" \/ command b = "open" ->
  JS.split " " (text b) = arg :: rest ->
  Speakeasy.doorKey arg = inr doors ->
  reaches_dispatch env s t0 b dtok du sp pool login reply ->
  let t := t_dispatch env t0 b sp login in
  let post := Http (SlackPost (response_url b) (Some refusal)) in
  pass_refusal t sp = Some refusal ->
  invoke (S (S (S (S (S (S fuel)))))) env s t0 (Speakeasy.handle {| body := Some b |})
  = idle (t + Z.of_N (latency env post)) (recorded env t0 b s du sp) no_local
      (prefix env t0 b sp login
       ++ [ (t, post); (t + Z.of_N (latency env post), ContextSucceed 200 (Some "")) ]).
Proof.
  intros Hc Hargs Hdoors Hr t post Hrefusal.
  rewrite (reach_dispatch env s t0 b dtok du sp pool login reply) by assumption.
  destruct Hr as [[Hh Hf1 Hs1 Htok Hf2 Hs2 Hdoc Hen Hlim Hm Hf3 Hf4] Hs4 Hdraw Hsign].
  rewrite dispatch_unlock by exact Hc.
  unfold Speakeasy.UnlockHandler.
  change (Speakeasy.St.args (dispatched env t0 b dtok du pool reply)) with (JS.split " " (text b)).
  rewrite Hargs, Hdoors. rewrite waterfall_cons. unfold Speakeasy.check_pass.
  pose proof (unshift_expires (new_attempt env t0 b) (unmarshalItem (user_id b) du)) as Hexp.
  cbn [speakeasy unmarshalItem] in Hexp. rewrite Hdoc in Hexp.
  change (Speakeasy.St.user (dispatched env t0 b dtok du pool reply))
    with (Speakeasy.unshift (new_attempt env t0 b) (unmarshalItem (user_id b) du)).
  destruct (speakeasy (Speakeasy.unshift (new_attempt env t0 b) (unmarshalItem (user_id b) du)))
    as [spu|] eqn:Eu; [|discriminate].
  injection Hexp as Hexp. rewrite Hexp.
  unfold pass_refusal in Hrefusal. subst post.
  destruct (expires sp) as [e|].
  - rewrite exec_Moment. cbn [idle clock]. fold t.
    destruct (e <? t); [|discriminate].
    injection Hrefusal as <-.
    unfold Speakeasy.unlocked. now rewrite deliver_error.
  - injection Hrefusal as <-.
    unfold Speakeasy.unlocked. now rewrite deliver_error.
Qed.

(** X12: an unlock of a known door by a user who never checked out a pass, or
    whose pass ran out before the instant of the dispatch, is answered with
    the matching message; no timer is set and no unlock call is made. *)
Theorem unlock_without_valid_pass_is_refused
    env s t0 b dtok du sp pool login reply arg rest doors refusal fuel :
  command b = "unlock" \/ command b = "open" ->
  JS.split " " (text b) = arg :: rest ->
  Speakeasy.doorKey arg = inr doors ->
  reaches_dispatch env s t0 b dtok du sp pool login reply ->
  pass_refusal (t_dispatch env t0 b sp login) sp = Some refusal ->
  let m := invoke (S (S (S (S (S (S fuel)))))) env s t0 (Speakeasy.handle {| body := Some b |}) in
  relays (trace m) = [Some refusal]
  /\ unlock_calls (trace m) = []
  /\ updates (trace m) = [(user_id b, SetAttempts (written env t0 b sp))]
  /\ finished m /\ crashed m = false.
Proof.
  intros Hc Hargs Hdoors Hr Hrefusal m. subst m.
  rewrite (unlock_request_without_valid_pass env s t0 b dtok du sp pool login reply
             arg rest doors refusal fuel) by assumption.
  repeat split; reflexivity.
Qed.

Lemma unlock_without_valid_pass_is_refused_witness :
  let s := Sample.tables {[ "U1" := Sample.doc_of Sample.lapsed ]} in
  let b := Sample.request "open" "bw" (Some "xoxb-canonical") in
  let m := invoke 6 Sample.calm s 0 (Speakeasy.handle {| body := Some b |}) in
  relays (trace m) = [Some expired_pass_message]
  /\ unlock_calls (trace m) = []
  /\ updates (trace m) = [(user_id b, SetAttempts (written Sample.calm 0 b Sample.lapsed))]
  /\ finished m /\ crashed m = false.
Proof.
  apply (unlock_without_valid_pass_is_refused Sample.calm
           (Sample.tables {[ "U1" := Sample.doc_of Sample.lapsed ]}) 0
           (Sample.request "open" "bw" (Some "xoxb-canonical"))
           Sample.token_doc (Sample.doc_of Sample.lapsed) Sample.lapsed
           [Sample.bot] Sample.bot Sample.signed "bw" []
           [Some west_outer; Some west_inner] expired_pass_message 0).
  - right. reflexivity.
  - reflexivity.
  - reflexivity.
  - constructor; [constructor|..]; reflexivity.
  - reflexivity.
Defined.

(** ** Unlock of one door *)

(** The synchronous part of the unlock of one door: the pass is checked
    and the door's timer is set. *)
Lemma UnlockHandler_sets_timer env st done arg rest door spu e t s l tr :
  Speakeasy.St.args st = arg :: rest ->
  Speakeasy.doorKey arg = inr [Some door] ->
  speakeasy (Speakeasy.St.user st) = Some spu ->
  expires spu = Some e ->
  (e <? t) = false ->
  exec env (Speakeasy.UnlockHandler st done) (idle t s l tr) =
  waiting t
    [ (t + 10,
       Speakeasy.unlock_now st (Some door)
         (async.iteratorCallback 1
            (Speakeasy.doors_done st (fun r => match r with
                                               | Err err => Speakeasy.unlocked done (Err err)
                                               | Next a' => async.waterfall [] a' (Speakeasy.unlocked done)
                                               end)))) ]
    s {| results := []; completed := 0; fired := false |} tr.
Proof.
  intros Ha Hd Hu He Ht. unfold Speakeasy.UnlockHandler. rewrite Ha, Hd.
  cbv beta iota. rewrite waterfall_cons. unfold Speakeasy.check_pass. rewrite Hu, He.
  cbn [exec idle clock]. rewrite Ht. rewrite waterfall_cons.
  reflexivity.
Qed.

(** The unlock of one door, turn by turn. *)
Lemma single_unlock_runs env st b arg rest door spu e t s l tr f :
  Speakeasy.St.args st = arg :: rest ->
  Speakeasy.doorKey arg = inr [Some door] ->
  Speakeasy.St.respond st = Speakeasy.respond b ->
  speakeasy (Speakeasy.St.user st) = Some spu ->
  expires spu = Some e ->
  (e <? t) = false ->
  unlock_answers env (Speakeasy.St.headers st) door = true ->
  let headers := Speakeasy.St.headers st in
  let text := Some (unlock_text env headers door) in
  let t1 := answered env headers (t + 10) door in
  let t2 := t1 + Z.of_N (latency env (Http (SlackPost (response_url b) text))) in
  let t3 := t2 + Z.of_N (latency env (Http (SlackPost (response_url b) None))) in
  loop (S (S (S (S f)))) env
    (exec env (Speakeasy.UnlockHandler st (Speakeasy.deliver b)) (idle t s l tr))
  = idle t3 s {| results := []; completed := 1; fired := true |}
      (tr ++ [ (t + 10, Http (Unlock (code door) headers));
               (t1, Http (SlackPost (response_url b) text));
               (t2, Http (SlackPost (response_url b) None));
               (t3, ContextSucceed 200 (Some "")) ]).
Proof.
  intros Ha Hd Hr Hu He Ht Ho headers text t1 t2 t3.
  rewrite (UnlockHandler_sets_timer env st _ arg rest door spu e) by assumption.
  rewrite loop_one, exec_unlock_now. cbn [app].
  rewrite loop_one, (exec_on_unlock _ _ _ _ _ _ _ _ _ _ Hr Ho). cbv zeta. cbn [app].
  rewrite loop_one, exec_on_relayed. cbn [Nat.eqb].
  rewrite fin_unlocked.
  rewrite <- !app_assoc. reflexivity.
Qed.

Lemma single_unlock_request
    env s t0 b dtok du sp pool login reply arg rest door e fuel :
  let headers := Some {| x_login_secret := secret reply |} in
  let t := t_dispatch env t0 b sp login in
  command b = "unlock" \/ command b = "open" ->
  JS.split " " (text b) = arg :: rest ->
  Speakeasy.doorKey arg = inr [Some door] ->
  reaches_dispatch env s t0 b dtok du sp pool login reply ->
  expires sp = Some e ->
  t <= e ->
  unlock_answers env headers door = true ->
  let text := Some (unlock_text env headers door) in
  let t1 := answered env headers (t + 10) door in
  let t2 := t1 + Z.of_N (latency env (Http (SlackPost (response_url b) text))) in
  let t3 := t2 + Z.of_N (latency env (Http (SlackPost (response_url b) None))) in
  invoke (S (S (S (S (S (S (S (S (S fuel))))))))) env s t0
    (Speakeasy.handle {| body := Some b |})
  = idle t3 (recorded env t0 b s du sp) {| results := []; completed := 1; fired := true |}
      (prefix env t0 b sp login
       ++ [ (t + 10, Http (Unlock (code door) headers));
            (t1, Http (SlackPost (response_url b) text));
            (t2, Http (SlackPost (response_url b) None));
            (t3, ContextSucceed 200 (Some "")) ]).
Proof.
  intros headers t Hc Hargs Hd Hr He Hle Ho text t1 t2 t3.
  rewrite (reach_dispatch env s t0 b dtok du sp pool login reply) by assumption.
  destruct Hr as [[Hh Hf1 Hs1 Htok Hf2 Hs2 Hdoc Hen Hlim Hm Hf3 Hf4] Hs4 Hdraw Hsign].
  rewrite dispatch_unlock by exact Hc.
  pose proof (unshift_expires (new_attempt env t0 b) (unmarshalItem (user_id b) du)) as Hexp.
  cbn [speakeasy unmarshalItem] in Hexp. rewrite Hdoc in Hexp.
  destruct (speakeasy (Speakeasy.unshift (new_attempt env t0 b) (unmarshalItem (user_id b) du)))
    as [spu|] eqn:Eu; [|discriminate].
  injection Hexp as Hexp.
  rewrite (single_unlock_runs env (dispatched env t0 b dtok du pool reply) b arg rest door spu e).
  - reflexivity.
  - exact Hargs.
  - exact Hd.
  - reflexivity.
  - exact Eu.
  - now rewrite Hexp.
  - apply Z.ltb_ge. exact Hle.
  - exact Ho.
Qed.

(** X13: an unlock of one door of the catalog by a user whose pass has not run
    out makes exactly one unlock call, 10 ms after the dispatch, relays the
    door's answer (or the transport error) under the door's name when the
    call is answered, and then posts once more, without a text, before it
    returns. Nothing but the attempt is written: this revision keeps no
    record of the last access. *)
Theorem single_unlock_calls_and_relays
    env s t0 b dtok du sp pool login reply arg rest door e fuel :
  let headers := Some {| x_login_secret := secret reply |} in
  let t := t_dispatch env t0 b sp login in
  command b = "unlock" \/ command b = "open" ->
  JS.split " " (text b) = arg :: rest ->
  Speakeasy.doorKey arg = inr [Some door] ->
  reaches_dispatch env s t0 b dtok du sp pool login reply ->
  expires sp = Some e ->
  t <= e ->
  unlock_answers env headers door = true ->
  let m := invoke (S (S (S (S (S (S (S (S (S fuel))))))))) env s t0
             (Speakeasy.handle {| body := Some b |}) in
  unlock_calls (trace m) = [(t + 10, code door)]
  /\ timed_texts (trace m) = [(answered env headers (t + 10) door, unlock_text env headers door)]
  /\ relays (trace m) = [Some (unlock_text env headers door); None]
  /\ updates (trace m) = [(user_id b, SetAttempts (written env t0 b sp))]
  /\ store m = recorded env t0 b s du sp
  /\ finished m /\ crashed m = false.
Proof.
  intros headers t Hc Hargs Hd Hr He Hle Ho m. subst m.
  rewrite (single_unlock_request env s t0 b dtok du sp pool login reply arg rest door e fuel)
    by assumption.
  repeat split; reflexivity.
Qed.

Lemma single_unlock_calls_and_relays_witness :
  let headers := Some {| x_login_secret := Some "s3cr3t" |} in
  let s := Sample.tables {[ "U1" := Sample.member None ]} in
  let b := Sample.request "unlock" "DI please" (Some "xoxb-canonical") in
  let m := invoke 9 Sample.calm s 0 (Speakeasy.handle {| body := Some b |}) in
  unlock_calls (trace m) = [(25 + 10, "3640")]
  /\ timed_texts (trace m) = [(40, "Downtown Inner: Unlocked!")]
  /\ relays (trace m) = [Some "Downtown Inner: Unlocked!"; None]
  /\ updates (trace m) = [(user_id b, SetAttempts (written Sample.calm 0 b (Sample.member_doc None)))]
  /\ store m = recorded Sample.calm 0 b s (Sample.member None) (Sample.member_doc None)
  /\ finished m /\ crashed m = false.
Proof.
  apply (single_unlock_calls_and_relays Sample.calm
           (Sample.tables {[ "U1" := Sample.member None ]}) 0
           (Sample.request "unlock" "DI please" (Some "xoxb-canonical"))
           Sample.token_doc (Sample.member None) (Sample.member_doc None)
           [Sample.bot] Sample.bot Sample.signed "DI" ["please"]
           {| key := "di"; name := "Downtown Inner"; code := "3640" |} 90000000 0).
  - left. reflexivity.
  - reflexivity.
  - reflexivity.
  - constructor; [constructor|..]; reflexivity.
  - reflexivity.
  - vm_compute. discriminate.
  - reflexivity.
Defined.

(** ** The earlier revision: one request a minute *)

Lemma and_then_eq {A B : Type} (task : SpeakeasySync.Task A) (next : A -> SpeakeasySync.Task B)
    callback :
  SpeakeasySync.and_then task next callback =
  task (fun r => match r with
                 | Err err => callback (Err err)
                 | Next a => next a callback
                 end).
Proof. reflexivity. Qed.

(** The earlier revision answers in the body of the lambda's own response. *)
Lemma sync_answer_error f env err t s l tr :
  loop f env (exec env (sync_answer (Err err)) (idle t s l tr)) =
  idle t s l (tr ++ [(t, ContextSucceed 200 (Some err))]).
Proof. unfold sync_answer, SpeakeasySync.respond. now rewrite exec_succeed, loop_idle. Qed.

Lemma sync_answer_message f env message t s l tr :
  loop f env (exec env (sync_answer (Next message)) (idle t s l tr)) =
  idle t s l (tr ++ [(t, ContextSucceed 200 message)]).
Proof. unfold sync_answer, SpeakeasySync.respond. now rewrite exec_succeed, loop_idle. Qed.

(** The stages of the earlier revision after the user is read. *)
Lemma sync_reach_user env s t0 b dtok du sp f k :
  sync_reaches_user env s t0 b dtok du sp ->
  loop (S (S f)) env
    (exec env
       (SpeakeasySync.and_then SpeakeasySync.GetSlackAuthToken
          (fun fromDynamo =>
             SpeakeasySync.and_then (SpeakeasySync.CheckSlackAuthToken (token b) fromDynamo)
               (fun _ => SpeakeasySync.and_then (SpeakeasySync.GetCallingUser (user_id b)) k))
          sync_answer)
       (idle t0 s no_local [])) =
  loop f env
    (exec env (k (unmarshalItem (user_id b) du) sync_answer)
       (idle (t_user env t0 b) s no_local
          [ (t0, DbGet SlackSpeakeasyData "slack_auth_token");
            (t_token env t0, DbGet TFoSlackUsers (user_id b)) ])).
Proof.
  intros [Hh Hf1 Hs1 Htok Hf2 Hs2 Hdoc Hen].
  rewrite and_then_eq. unfold SpeakeasySync.GetSlackAuthToken.
  rewrite turn_GetItem, Hf1. unfold db_getItem. rewrite Hs1. cbn [fmap option_fmap option_map].
  cbn [value unmarshalItem].
  rewrite and_then_eq. unfold SpeakeasySync.CheckSlackAuthToken. rewrite Htok.
  rewrite and_then_eq. unfold SpeakeasySync.GetCallingUser.
  rewrite turn_GetItem, Hf2. unfold db_getItem. rewrite Hs2. cbn [fmap option_fmap option_map].
  reflexivity.
Qed.

Lemma sync_handle_enters_pipeline b :
  first_is (JS.split " " (text b)) "help" = false ->
  SpeakeasySync.handle b =
  SpeakeasySync.and_then SpeakeasySync.GetSlackAuthToken
    (fun fromDynamo =>
       SpeakeasySync.and_then (SpeakeasySync.CheckSlackAuthToken (token b) fromDynamo)
         (fun _ =>
            SpeakeasySync.and_then (SpeakeasySync.GetCallingUser (user_id b))
              (fun user =>
                 SpeakeasySync.and_then (SpeakeasySync.CheckCallingUser user)
                   (fun user =>
                      SpeakeasySync.and_then (SpeakeasySync.RegisterUserAttempt user)
                        (fun _ =>
                           SpeakeasySync.and_then SpeakeasySync.GetLogins
                             (fun validCredentials =>
                                SpeakeasySync.and_then (SpeakeasySync.Login validCredentials)
                                  (fun headers =>
                                     SpeakeasySync.GetDispatchHandler (JS.split " " (text b))
                                       headers)))))))
    sync_answer.
Proof. intros Hh. unfold SpeakeasySync.handle. now rewrite split_length, Hh. Qed.

Lemma sync_request_within_cooldown env s t0 b dtok du sp last fuel :
  sync_reaches_user env s t0 b dtok du sp ->
  lastAccess sp = Some last ->
  seconds_since (t_user env t0 b) last < 60 ->
  invoke (S (S fuel)) env s t0 (SpeakeasySync.handle b)
  = idle (t_user env t0 b) s no_local
      [ (t0, DbGet SlackSpeakeasyData "slack_auth_token");
        (t_token env t0, DbGet TFoSlackUsers (user_id b));
        (t_user env t0 b,
         ContextSucceed 200
           (Some (cooldown_message (60 - seconds_since (t_user env t0 b) last)))) ].
Proof.
  intros Hr Hlast Hdiff.
  pose proof Hr as [Hh Hf1 Hs1 Htok Hf2 Hs2 Hdoc Hen].
  unfold invoke. rewrite sync_handle_enters_pipeline by exact Hh.
  change (boot s t0) with (idle t0 s no_local []).
  rewrite (sync_reach_user env s t0 b dtok du sp) by exact Hr.
  rewrite and_then_eq. unfold SpeakeasySync.CheckCallingUser.
  unfold Speakeasy.get_enabled, SpeakeasySync.get_lastAccess. cbn [speakeasy unmarshalItem].
  rewrite Hdoc, Hen, Hlast. cbn [negb]. rewrite exec_Moment. cbn [idle clock].
  cbv zeta. fold (seconds_since (t_user env t0 b) last).
  apply Z.ltb_lt in Hdiff. rewrite Hdiff.
  now rewrite sync_answer_error.
Qed.

(** X14: a request that arrives within the sixty seconds after the stamp of the
    last one is answered with the number of seconds left to wait, and the
    stamp stays as it was: the wait is not extended. *)
Theorem sync_request_within_cooldown_is_blocked env s t0 b dtok du sp last fuel :
  sync_reaches_user env s t0 b dtok du sp ->
  lastAccess sp = Some last ->
  seconds_since (t_user env t0 b) last < 60 ->
  let m := invoke (S (S fuel)) env s t0 (SpeakeasySync.handle b) in
  effects (trace m) =
    [ DbGet SlackSpeakeasyData "slack_auth_token";
      DbGet TFoSlackUsers (user_id b);
      ContextSucceed 200 (Some (cooldown_message (60 - seconds_since (t_user env t0 b) last))) ]
  /\ store m = s /\ finished m /\ crashed m = false.
Proof.
  intros Hr Hlast Hdiff m. subst m.
  rewrite (sync_request_within_cooldown env s t0 b dtok du sp last fuel) by assumption.
  repeat split; reflexivity.
Qed.

(** A member whose last request was stamped at instant 5. *)
Lemma sync_request_within_cooldown_is_blocked_witness :
  let s := Sample.tables {[ "U1" := Sample.doc_of Sample.regular ]} in
  let b := Sample.request "/speakeasy" "unlock bwo" (Some "xoxb-canonical") in
  let m := invoke 2 Sample.calm s 59000 (SpeakeasySync.handle b) in
  effects (trace m) =
    [ DbGet SlackSpeakeasyData "slack_auth_token";
      DbGet TFoSlackUsers (user_id b);
      ContextSucceed 200 (Some (cooldown_message (60 - seconds_since (t_user Sample.calm 59000 b) 5))) ]
  /\ store m = s /\ finished m /\ crashed m = false.
Proof.
  apply (sync_request_within_cooldown_is_blocked Sample.calm
           (Sample.tables {[ "U1" := Sample.doc_of Sample.regular ]}) 59000
           (Sample.request "/speakeasy" "unlock bwo" (Some "xoxb-canonical"))
           Sample.token_doc (Sample.doc_of Sample.regular) Sample.regular 5 0).
  - constructor; reflexivity.
  - reflexivity.
  - vm_compute. reflexivity.
Defined.

(** An enabled user outside the cooldown is handed to the next stage. *)
Lemma sync_CheckCallingUser_passes env u sp done m :
  speakeasy u = Some sp ->
  enabled sp = true ->
  cooling_down (clock m) sp = false ->
  exec env (SpeakeasySync.CheckCallingUser u done) m = exec env (done (Next u)) m.
Proof.
  intros Hu Hen Hcool. unfold SpeakeasySync.CheckCallingUser.
  unfold Speakeasy.get_enabled, SpeakeasySync.get_lastAccess. rewrite Hu, Hen. cbn [negb].
  unfold cooling_down, seconds_since in Hcool.
  destruct (lastAccess sp) as [last|]; [|reflexivity].
  rewrite exec_Moment. cbv zeta. now rewrite Hcool.
Qed.

(** The earlier revision up to the answer of the sign-in: the stamp is
    written once the user is let through, before the credentials are
    read. *)
Lemma sync_reach_sign_in env s t0 b dtok du sp pool login f :
  sync_reaches_sign_in env s t0 b dtok du sp pool login ->
  invoke (S (S (S (S (S f))))) env s t0 (SpeakeasySync.handle b) =
  loop f env
    (exec env
       (SpeakeasySync.on_sign_in
          (fun r => match r with
                    | Err err => sync_answer (Err err)
                    | Next headers =>
                        SpeakeasySync.GetDispatchHandler (JS.split " " (text b)) headers
                          sync_answer
                    end)
          (http env (sign_in login)))
       (idle (sync_t_dispatch env t0 b login) (sync_stamped env t0 b s du sp) no_local
          (sync_prefix env t0 b login))).
Proof.
  intros [Hr Hcool Hf3 Hf4 Hs4 Hdraw].
  pose proof Hr as [Hh Hf1 Hs1 Htok Hf2 Hs2 Hdoc Hen].
  unfold invoke. rewrite sync_handle_enters_pipeline by exact Hh.
  change (boot s t0) with (idle t0 s no_local []).
  rewrite (sync_reach_user env s t0 b dtok du sp) by exact Hr.
  rewrite and_then_eq.
  rewrite (sync_CheckCallingUser_passes env _ sp) by (reflexivity || assumption).
  cbv beta iota.
  rewrite and_then_eq. unfold SpeakeasySync.RegisterUserAttempt.
  rewrite exec_Moment. cbn [idle clock id unmarshalItem].
  fold (sync_stamp env t0 b).
  erewrite turn_UpdateItem_ok; cycle 1.
  { exact Hf3. }
  { apply db_updateItem_stored with (sp := sp); eassumption. }
  cbv beta iota.
  rewrite and_then_eq. unfold SpeakeasySync.GetLogins.
  rewrite turn_GetItem, Hf4. unfold db_getItem.
  replace (put_user s (user_id b)
             {| doc_value := doc_value du;
                doc_speakeasy := Some (apply_update (sync_stamp env t0 b) sp) |}
             SlackSpeakeasyData !! "logins")
    with (s SlackSpeakeasyData !! "logins") by reflexivity.
  rewrite Hs4. cbn [fmap option_fmap option_map value unmarshalItem doc_value].
  rewrite and_then_eq. unfold SpeakeasySync.Login.
  cbn [exec]. rewrite Hdraw. rewrite turn_Request.
  reflexivity.
Qed.

Lemma sync_reach_dispatch env s t0 b dtok du sp pool login reply f :
  sync_reaches_dispatch env s t0 b dtok du sp pool login reply ->
  invoke (S (S (S (S (S f))))) env s t0 (SpeakeasySync.handle b) =
  loop f env
    (exec env
       (SpeakeasySync.GetDispatchHandler (JS.split " " (text b))
          {| x_login_secret := secret reply |} sync_answer)
       (idle (sync_t_dispatch env t0 b login) (sync_stamped env t0 b s du sp) no_local
          (sync_prefix env t0 b login))).
Proof.
  intros [Hr Hsign].
  rewrite (sync_reach_sign_in env s t0 b dtok du sp pool login) by exact Hr.
  now rewrite Hsign.
Qed.

(** X15: the earlier revision parses the body of the sign-in answer before it
    looks at the error: when the sign-in fails in transport, or is answered
    with a body that is not JSON, the process dies without any response,
    and the request is stamped all the same. *)
Theorem sync_failed_sign_in_throws env s t0 b dtok du sp pool login fuel :
  sync_reaches_sign_in env s t0 b dtok du sp pool login ->
  (forall reply, http env (sign_in login) <> Answer (Some reply)) ->
  let m := invoke (S (S (S (S (S fuel))))) env s t0 (SpeakeasySync.handle b) in
  crashed m = true
  /\ (forall code body, ContextSucceed code body ∉ effects (trace m))
  /\ (lastAccess <$> stored (store m) (user_id b)) = Some (Some (t_user env t0 b)).
Proof.
  intros Hr Hsign m. subst m.
  rewrite (sync_reach_sign_in env s t0 b dtok du sp pool login) by exact Hr.
  assert (Hthrow : exists e,
            SpeakeasySync.on_sign_in
              (fun r => match r with
                        | Err err => sync_answer (Err err)
                        | Next headers =>
                            SpeakeasySync.GetDispatchHandler (JS.split " " (text b)) headers
                              sync_answer
                        end)
              (http env (sign_in login)) = Throw e).
  { destruct (http env (sign_in login)) as [err|[reply|]].
    - eexists. reflexivity.
    - exfalso. now apply (Hsign reply).
    - eexists. reflexivity. }
  destruct Hthrow as [e ->].
  rewrite exec_throw, loop_crashed by reflexivity.
  split; [reflexivity|]. split.
  - intros code body. unfold effects, sync_prefix. cbn [trace app List.map snd].
    rewrite !elem_of_cons, elem_of_nil. intuition discriminate.
  - unfold stored, sync_stamped, put_user. cbn [store]. now rewrite lookup_insert_eq.
Qed.

Lemma sync_failed_sign_in_throws_witness :
  let s := Sample.tables {[ "U1" := Sample.doc_of Sample.newcomer ]} in
  let b := Sample.request "/speakeasy" "status" (Some "xoxb-canonical") in
  let m := invoke 5 Sample.sign_in_fails s 0 (SpeakeasySync.handle b) in
  crashed m = true
  /\ (forall code body, ContextSucceed code body ∉ effects (trace m))
  /\ (lastAccess <$> stored (store m) (user_id b)) = Some (Some (t_user Sample.sign_in_fails 0 b)).
Proof.
  apply (sync_failed_sign_in_throws Sample.sign_in_fails
           (Sample.tables {[ "U1" := Sample.doc_of Sample.newcomer ]}) 0
           (Sample.request "/speakeasy" "status" (Some "xoxb-canonical"))
           Sample.token_doc (Sample.doc_of Sample.newcomer) Sample.newcomer
           [Sample.bot] Sample.bot 0).
  - constructor; [constructor|..]; reflexivity.
  - intros reply. discriminate.
Defined.

(** X16: every request the earlier revision lets past the cooldown is stamped,
    whatever it asks for: a request with a verb the dispatcher does not
    know is answered with the unknown-command message only after the stamp
    is written and the sign-in made, so it too starts a wait of a minute.
    [checkout] is such a verb in this revision. *)
Theorem sync_unknown_verb_is_stamped env s t0 b dtok du sp pool login reply fuel :
  sync_reaches_dispatch env s t0 b dtok du sp pool login reply ->
  SpeakeasySync.dispatch (JS.split " " (text b)) = SpeakeasySync.VUnknown ->
  let m := invoke (S (S (S (S (S fuel))))) env s t0 (SpeakeasySync.handle b) in
  effects (trace m) =
    [ DbGet SlackSpeakeasyData "slack_auth_token";
      DbGet TFoSlackUsers (user_id b);
      DbUpdate (user_id b) (SetLastAccess (t_user env t0 b));
      DbGet SlackSpeakeasyData "logins";
      Http (sign_in login);
      ContextSucceed 200 (Some Speakeasy.unknown_command_message) ]
  /\ (lastAccess <$> stored (store m) (user_id b)) = Some (Some (t_user env t0 b))
  /\ finished m /\ crashed m = false.
Proof.
  intros Hr Hv m. subst m.
  rewrite (sync_reach_dispatch env s t0 b dtok du sp pool login reply) by exact Hr.
  unfold SpeakeasySync.GetDispatchHandler. rewrite Hv.
  unfold SpeakeasySync.handler_of, SpeakeasySync.UnknownHandler.
  rewrite sync_answer_error.
  unfold stored, sync_stamped, put_user. cbn [store idle]. rewrite lookup_insert_eq.
  repeat split; reflexivity.
Qed.

Lemma sync_unknown_verb_is_stamped_witness :
  let s := Sample.tables {[ "U1" := Sample.doc_of Sample.regular ]} in
  let b := Sample.request "/speakeasy" "checkout" (Some "xoxb-canonical") in
  let m := invoke 5 Sample.calm s 70000 (SpeakeasySync.handle b) in
  effects (trace m) =
    [ DbGet SlackSpeakeasyData "slack_auth_token";
      DbGet TFoSlackUsers (user_id b);
      DbUpdate (user_id b) (SetLastAccess (t_user Sample.calm 70000 b));
      DbGet SlackSpeakeasyData "logins";
      Http (sign_in Sample.bot);
      ContextSucceed 200 (Some Speakeasy.unknown_command_message) ]
  /\ (lastAccess <$> stored (store m) (user_id b)) = Some (Some (t_user Sample.calm 70000 b))
  /\ finished m /\ crashed m = false.
Proof.
  apply (sync_unknown_verb_is_stamped Sample.calm
           (Sample.tables {[ "U1" := Sample.doc_of Sample.regular ]}) 70000
           (Sample.request "/speakeasy" "checkout" (Some "xoxb-canonical"))
           Sample.token_doc (Sample.doc_of Sample.regular) Sample.regular
           [Sample.bot] Sample.bot Sample.signed 0).
  - constructor; [constructor; [constructor|..]|..]; reflexivity.
  - reflexivity.
Defined.

Lemma sync_unlock_request env s t0 b dtok du sp pool login reply verb k rest door fuel :
  let headers := {| x_login_secret := secret reply |} in
  sync_reaches_dispatch env s t0 b dtok du sp pool login reply ->
  JS.split " " (text b) = verb :: k :: rest ->
  verb = "unlock" \/ verb = "open" ->
  find_door k = Some door ->
  unlock_answers env (Some headers) door = true ->
  let t := sync_t_dispatch env t0 b login in
  invoke (S (S (S (S (S (S fuel)))))) env s t0 (SpeakeasySync.handle b)
  = idle (answered env (Some headers) t door) (sync_stamped env t0 b s du sp) no_local
      (sync_prefix env t0 b login
       ++ [ (t, Http (Unlock (code door) (Some headers)));
            (answered env (Some headers) t door,
             ContextSucceed 200 (sync_unlock_answer env headers door)) ]).
Proof.
  intros headers Hr Hsplit Hverb Hdoor Hans t.
  rewrite (sync_reach_dispatch env s t0 b dtok du sp pool login reply) by exact Hr.
  unfold SpeakeasySync.GetDispatchHandler. rewrite Hsplit.
  rewrite sync_dispatch_routes_on_first_token. cbn [head].
  replace (String.eqb verb "status") with false
    by (destruct Hverb as [-> | ->]; reflexivity).
  replace (String.eqb verb "unlock" || String.eqb verb "open") with true
    by (destruct Hverb as [-> | ->]; reflexivity).
  unfold SpeakeasySync.handler_of, SpeakeasySync.UnlockHandler. rewrite Hdoor.
  rewrite turn_Request. fold headers t.
  unfold sync_unlock_answer, unlock_answers, answered in *.
  destruct (http env (Unlock (code door) (Some headers))) as [err|[body|]]; [| |discriminate].
  - rewrite sync_answer_error. now rewrite <- app_assoc.
  - rewrite sync_answer_message. now rewrite <- app_assoc.
Qed.

(** X17: in the earlier revision an unlock whose second token is a door key, as
    typed, makes one unlock call, at once and without any pass, and the
    answer of the lock API, or the transport error, is the body of the
    lambda's response; the stamp is all that is written. *)
Theorem sync_unlock_calls_the_door env s t0 b dtok du sp pool login reply verb k rest door fuel :
  let headers := {| x_login_secret := secret reply |} in
  sync_reaches_dispatch env s t0 b dtok du sp pool login reply ->
  JS.split " " (text b) = verb :: k :: rest ->
  verb = "unlock" \/ verb = "open" ->
  find_door k = Some door ->
  unlock_answers env (Some headers) door = true ->
  let m := invoke (S (S (S (S (S (S fuel)))))) env s t0 (SpeakeasySync.handle b) in
  trace m =
    sync_prefix env t0 b login
    ++ [ (sync_t_dispatch env t0 b login, Http (Unlock (code door) (Some headers)));
         (answered env (Some headers) (sync_t_dispatch env t0 b login) door,
          ContextSucceed 200 (sync_unlock_answer env headers door)) ]
  /\ store m = sync_stamped env t0 b s du sp
  /\ finished m /\ crashed m = false.
Proof.
  intros headers Hr Hsplit Hverb Hdoor Hans m. subst m.
  rewrite (sync_unlock_request env s t0 b dtok du sp pool login reply verb k rest door fuel)
    by assumption.
  repeat split; reflexivity.
Qed.

Lemma sync_unlock_calls_the_door_witness :
  let headers := {| x_login_secret := Some "s3cr3t" |} in
  let s := Sample.tables {[ "U1" := Sample.doc_of Sample.newcomer ]} in
  let b := Sample.request "/speakeasy" "open bs" (Some "xoxb-canonical") in
  let door := {| key := "bs"; name := "Brip Parking Lot"; code := "3767" |} in
  let m := invoke 6 Sample.calm s 0 (SpeakeasySync.handle b) in
  trace m =
    sync_prefix Sample.calm 0 b Sample.bot
    ++ [ (sync_t_dispatch Sample.calm 0 b Sample.bot, Http (Unlock (code door) (Some headers)));
         (answered Sample.calm (Some headers) (sync_t_dispatch Sample.calm 0 b Sample.bot) door,
          ContextSucceed 200 (sync_unlock_answer Sample.calm headers door)) ]
  /\ store m = sync_stamped Sample.calm 0 b s (Sample.doc_of Sample.newcomer) Sample.newcomer
  /\ finished m /\ crashed m = false.
Proof.
  apply (sync_unlock_calls_the_door Sample.calm
           (Sample.tables {[ "U1" := Sample.doc_of Sample.newcomer ]}) 0
           (Sample.request "/speakeasy" "open bs" (Some "xoxb-canonical"))
           Sample.token_doc (Sample.doc_of Sample.newcomer) Sample.newcomer
           [Sample.bot] Sample.bot Sample.signed "open" "bs" []
           {| key := "bs"; name := "Brip Parking Lot"; code := "3767" |} 0).
  - constructor; [constructor; [constructor|..]|..]; reflexivity.
  - reflexivity.
  - right. reflexivity.
  - reflexivity.
  - reflexivity.
Defined.

(** X18: in the earlier revision an unlock with no second token, or with one
    that is not a door key as typed (the keys are not put in lower case,
    and there is no compound key), is answered with the unknown-door
    message and makes no unlock call; the request is stamped all the
    same. *)
Theorem sync_unlock_of_unknown_door_is_refused
    env s t0 b dtok du sp pool login reply verb rest fuel :
  sync_reaches_dispatch env s t0 b dtok du sp pool login reply ->
  JS.split " " (text b) = verb :: rest ->
  verb = "unlock" \/ verb = "open" ->
  match head rest with Some k => find_door k | None => None end = None ->
  let m := invoke (S (S (S (S (S fuel))))) env s t0 (SpeakeasySync.handle b) in
  trace m =
    sync_prefix env t0 b login
    ++ [ (sync_t_dispatch env t0 b login, ContextSucceed 200 (Some Speakeasy.unknown_door_message)) ]
  /\ (lastAccess <$> stored (store m) (user_id b)) = Some (Some (t_user env t0 b))
  /\ finished m /\ crashed m = false.
Proof.
  intros Hr Hsplit Hverb Hdoor m. subst m.
  rewrite (sync_reach_dispatch env s t0 b dtok du sp pool login reply) by exact Hr.
  unfold SpeakeasySync.GetDispatchHandler. rewrite Hsplit.
  rewrite sync_dispatch_routes_on_first_token.
  replace (String.eqb verb "status") with false
    by (destruct Hverb as [-> | ->]; reflexivity).
  replace (String.eqb verb "unlock" || String.eqb verb "open") with true
    by (destruct Hverb as [-> | ->]; reflexivity).
  unfold SpeakeasySync.handler_of, SpeakeasySync.UnlockHandler. rewrite Hdoor.
  rewrite sync_answer_error.
  unfold stored, sync_stamped, put_user. cbn [store idle]. rewrite lookup_insert_eq.
  repeat split; reflexivity.
Qed.

Lemma sync_unlock_of_unknown_door_is_refused_witness :
  let s := Sample.tables {[ "U1" := Sample.doc_of Sample.newcomer ]} in
  let b := Sample.request "/speakeasy" "unlock BWO" (Some "xoxb-canonical") in
  let m := invoke 5 Sample.calm s 0 (SpeakeasySync.handle b) in
  trace m =
    sync_prefix Sample.calm 0 b Sample.bot
    ++ [ (sync_t_dispatch Sample.calm 0 b Sample.bot,
          ContextSucceed 200 (Some Speakeasy.unknown_door_message)) ]
  /\ (lastAccess <$> stored (store m) (user_id b)) = Some (Some (t_user Sample.calm 0 b))
  /\ finished m /\ crashed m = false.
Proof.
  apply (sync_unlock_of_unknown_door_is_refused Sample.calm
           (Sample.tables {[ "U1" := Sample.doc_of Sample.newcomer ]}) 0
           (Sample.request "/speakeasy" "unlock BWO" (Some "xoxb-canonical"))
           Sample.token_doc (Sample.doc_of Sample.newcomer) Sample.newcomer
           [Sample.bot] Sample.bot Sample.signed "unlock" ["BWO"] 0).
  - constructor; [constructor; [constructor|..]|..]; reflexivity.
  - reflexivity.
  - left. reflexivity.
  - reflexivity.
Defined.

(** ** One request after another *)

(** X19: a pass lasts a day. After a checkout that was granted, an unlock of a
    door by the same user, run on the store the checkout left, makes its
    unlock call when it is dispatched no later than twenty-four hours after
    the checkout's scan was answered, and is refused as expired, without
    any unlock call, when it is dispatched later. *)
Theorem pass_is_valid_for_a_day
    env s t0 b dtok du sp pool login reply n
    t1 b2 dtok2 du2 sp2 pool2 login2 reply2 arg rest door fuel :
  command b = "checkout" ->
  reaches_dispatch env s t0 b dtok du sp pool login reply ->
  fault env DbScan = None ->
  let t_scanned := t_dispatch env t0 b sp login + Z.of_N (latency env DbScan) in
  active_passes t_scanned s = Some n ->
  (n < Speakeasy.N_PASSES)%nat ->
  fault env (DbUpdate (user_id b) (SetExpires (t_scanned + 86400000))) = None ->
  let m1 := invoke (S (S (S (S (S (S (S (S fuel)))))))) env s t0
              (Speakeasy.handle {| body := Some b |}) in
  user_id b2 = user_id b ->
  command b2 = "unlock" \/ command b2 = "open" ->
  JS.split " " (text b2) = arg :: rest ->
  Speakeasy.doorKey arg = inr [Some door] ->
  reaches_dispatch env (store m1) t1 b2 dtok2 du2 sp2 pool2 login2 reply2 ->
  let headers := Some {| x_login_secret := secret reply2 |} in
  unlock_answers env headers door = true ->
  let m2 := invoke (S (S (S (S (S (S (S (S (S fuel))))))))) env (store m1) t1
              (Speakeasy.handle {| body := Some b2 |}) in
  let t2 := t_dispatch env t1 b2 sp2 login2 in
  unlock_calls (trace m2) = (if t2 <=? t_scanned + 86400000 then [(t2 + 10, code door)] else [])
  /\ relays (trace m2) =
       (if t2 <=? t_scanned + 86400000
        then [Some (unlock_text env headers door); None]
        else [Some expired_pass_message])
  /\ finished m2 /\ crashed m2 = false.
Proof.
  intros Hc Hr Hf t_scanned Hn Hfree Hfu m1 Hsame Hc2 Hargs Hdoor Hr2 headers Hans m2 t2.
  assert (Hstore : store m1 = extended env t0 b s du sp (t_scanned + 86400000)).
  { subst m1.
    rewrite (checkout_request_below_capacity env s t0 b dtok du sp pool login reply n fuel)
      by assumption.
    reflexivity. }
  assert (He : expires sp2 = Some (t_scanned + 86400000)).
  { pose proof (user_stored _ _ _ _ _ _ _ (to_logins _ _ _ _ _ _ _ _ _ _ Hr2)) as Hs2.
    pose proof (user_doc _ _ _ _ _ _ _ (to_logins _ _ _ _ _ _ _ _ _ _ Hr2)) as Hd2.
    rewrite Hstore, Hsame in Hs2. unfold extended, put_user in Hs2.
    rewrite lookup_insert_eq in Hs2. injection Hs2 as <-.
    cbn in Hd2. injection Hd2 as <-. reflexivity. }
  destruct (Z.leb_spec t2 (t_scanned + 86400000)) as [Hle|Hgt].
  - subst m2.
    rewrite (single_unlock_request env (store m1) t1 b2 dtok2 du2 sp2 pool2 login2 reply2
               arg rest door (t_scanned + 86400000) fuel) by assumption.
    repeat split; reflexivity.
  - assert (Hrefusal : pass_refusal t2 sp2 = Some expired_pass_message).
    { unfold pass_refusal. rewrite He.
      replace (t_scanned + 86400000 <? t2) with true by (symmetry; apply Z.ltb_lt; lia).
      reflexivity. }
    subst m2.
    rewrite (unlock_request_without_valid_pass env (store m1) t1 b2 dtok2 du2 sp2 pool2 login2
               reply2 arg rest [Some door] expired_pass_message (S (S (S fuel))))
      by assumption.
    repeat split; reflexivity.
Qed.

(** A checkout at instant 0 and an unlock of the outer west door an hour
    later. *)
Lemma pass_is_valid_for_a_day_witness :
  let s := Sample.tables {[ "U1" := Sample.doc_of Sample.lapsed ]} in
  let b := Sample.request "checkout" "" (Some "xoxb-canonical") in
  let m1 := invoke 8 Sample.calm s 0 (Speakeasy.handle {| body := Some b |}) in
  let b2 := Sample.request "unlock" "bwo" (Some "xoxb-canonical") in
  let headers := Some {| x_login_secret := Some "s3cr3t" |} in
  let m2 := invoke 9 Sample.calm (store m1) 3600000 (Speakeasy.handle {| body := Some b2 |}) in
  unlock_calls (trace m2) = [(3600025 + 10, "3768")]
  /\ relays (trace m2) = [Some "Brip West Outer: Unlocked!"; None]
  /\ finished m2 /\ crashed m2 = false.
Proof.
  pose (s := Sample.tables {[ "U1" := Sample.doc_of Sample.lapsed ]}).
  pose (b := Sample.request "checkout" "" (Some "xoxb-canonical")).
  pose (sp2 := apply_update (SetExpires (30 + 86400000))
                 (apply_update (SetAttempts (written Sample.calm 0 b Sample.lapsed)) Sample.lapsed)).
  apply (pass_is_valid_for_a_day Sample.calm s 0 b
           Sample.token_doc (Sample.doc_of Sample.lapsed) Sample.lapsed
           [Sample.bot] Sample.bot Sample.signed 0%nat
           3600000 (Sample.request "unlock" "bwo" (Some "xoxb-canonical"))
           Sample.token_doc (Sample.doc_of sp2) sp2
           [Sample.bot] Sample.bot Sample.signed "bwo" []
           {| key := "bwo"; name := "Brip West Outer"; code := "3768" |} 0).
  - reflexivity.
  - constructor; [constructor|..]; reflexivity.
  - reflexivity.
  - vm_compute. reflexivity.
  - vm_compute. lia.
  - reflexivity.
  - reflexivity.
  - left. reflexivity.
  - reflexivity.
  - reflexivity.
  - constructor; [constructor|..]; vm_compute; reflexivity.
  - reflexivity.
Defined.

(** X20: one unlock a minute in the earlier revision. After an unlock that went
    through, any request of the same user, run on the store the unlock
    left, that is checked less than sixty whole seconds after the unlock
    was stamped is answered with the seconds left to wait, and makes no
    call to the lock API. *)
Theorem sync_unlock_starts_the_cooldown
    env s t0 b dtok du sp pool login reply verb k rest door
    t1 b2 dtok2 du2 sp2 fuel :
  let headers := {| x_login_secret := secret reply |} in
  sync_reaches_dispatch env s t0 b dtok du sp pool login reply ->
  JS.split " " (text b) = verb :: k :: rest ->
  verb = "unlock" \/ verb = "open" ->
  find_door k = Some door ->
  unlock_answers env (Some headers) door = true ->
  let m1 := invoke (S (S (S (S (S (S fuel)))))) env s t0 (SpeakeasySync.handle b) in
  user_id b2 = user_id b ->
  sync_reaches_user env (store m1) t1 b2 dtok2 du2 sp2 ->
  let waited := seconds_since (t_user env t1 b2) (t_user env t0 b) in
  waited < 60 ->
  let m2 := invoke (S (S fuel)) env (store m1) t1 (SpeakeasySync.handle b2) in
  effects (trace m2) =
    [ DbGet SlackSpeakeasyData "slack_auth_token";
      DbGet TFoSlackUsers (user_id b2);
      ContextSucceed 200 (Some (cooldown_message (60 - waited))) ]
  /\ lock_calls (trace m2) = []
  /\ store m2 = store m1 /\ finished m2 /\ crashed m2 = false.
Proof.
  intros headers Hr Hsplit Hverb Hdoor Hans m1 Hsame Hr2 waited Hwait m2.
  assert (Hstore : store m1 = sync_stamped env t0 b s du sp).
  { subst m1.
    rewrite (sync_unlock_request env s t0 b dtok du sp pool login reply verb k rest door fuel)
      by assumption.
    reflexivity. }
  assert (Hlast : lastAccess sp2 = Some (t_user env t0 b)).
  { pose proof (sync_user_stored _ _ _ _ _ _ _ Hr2) as Hs2.
    pose proof (sync_user_doc _ _ _ _ _ _ _ Hr2) as Hd2.
    rewrite Hstore, Hsame in Hs2. unfold sync_stamped, put_user in Hs2.
    rewrite lookup_insert_eq in Hs2. injection Hs2 as <-.
    cbn in Hd2. injection Hd2 as <-. reflexivity. }
  subst m2.
  rewrite (sync_request_within_cooldown env (store m1) t1 b2 dtok2 du2 sp2 (t_user env t0 b) fuel)
    by assumption.
  repeat split; reflexivity.
Qed.

(** An unlock at instant 0 and a status request thirty seconds later. *)
Lemma sync_unlock_starts_the_cooldown_witness :
  let s := Sample.tables {[ "U1" := Sample.doc_of Sample.newcomer ]} in
  let b := Sample.request "/speakeasy" "open bs" (Some "xoxb-canonical") in
  let m1 := invoke 6 Sample.calm s 0 (SpeakeasySync.handle b) in
  let b2 := Sample.request "/speakeasy" "status" (Some "xoxb-canonical") in
  let m2 := invoke 2 Sample.calm (store m1) 30000 (SpeakeasySync.handle b2) in
  effects (trace m2) =
    [ DbGet SlackSpeakeasyData "slack_auth_token";
      DbGet TFoSlackUsers (user_id b2);
      ContextSucceed 200 (Some (cooldown_message (60 - 30))) ]
  /\ lock_calls (trace m2) = []
  /\ store m2 = store m1 /\ finished m2 /\ crashed m2 = false.
Proof.
  pose (b := Sample.request "/speakeasy" "open bs" (Some "xoxb-canonical")).
  pose (sp2 := apply_update (sync_stamp Sample.calm 0 b) Sample.newcomer).
  apply (sync_unlock_starts_the_cooldown Sample.calm
           (Sample.tables {[ "U1" := Sample.doc_of Sample.newcomer ]}) 0 b
           Sample.token_doc (Sample.doc_of Sample.newcomer) Sample.newcomer
           [Sample.bot] Sample.bot Sample.signed "open" "bs" []
           {| key := "bs"; name := "Brip Parking Lot"; code := "3767" |}
           30000 (Sample.request "/speakeasy" "status" (Some "xoxb-canonical"))
           Sample.token_doc (Sample.doc_of sp2) sp2 0).
  - constructor; [constructor; [constructor|..]|..]; reflexivity.
  - reflexivity.
  - right. reflexivity.
  - reflexivity.
  - reflexivity.
  - reflexivity.
  - constructor; vm_compute; reflexivity.
  - vm_compute. reflexivity.
Defined.

(** ** The proxy *)

(** X21: the proxy answers a request only once it has handed it to the speakeasy
    lambda: with status 200 and an empty body when the invocation is
    accepted, with status 500 and the error when it is not. A request for
    any other command is dropped: the proxy invokes nothing and never
    answers. The proxy itself reads and writes no table. *)
Theorem proxy_answers_forwarded_requests_only env s t0 b fuel :
  let m := invoke (S fuel) env s t0 (ApigProxy.handle b) in
  let hand_over := LambdaInvoke "tfo_slack_speakeasy" {| body := Some b |} in
  trace m =
    (if String.eqb (command b) "/speakeasy"
     then [ (t0, hand_over);
            (t0 + Z.of_N (latency env hand_over),
             match fault env hand_over with
             | Some e => ContextSucceed 500 (Some e)
             | None => ContextSucceed 200 (Some "")
             end) ]
     else [])
  /\ store m = s /\ finished m /\ crashed m = false.
Proof.
  intros m hand_over. subst m hand_over.
  unfold invoke, ApigProxy.handle. destruct (String.eqb (command b) "/speakeasy").
  - unfold ApigProxy.InvokeSpeakeasy, ApigProxy.done. cbn.
    destruct (fault env _); destruct fuel; repeat split; reflexivity.
  - destruct fuel; repeat split; reflexivity.
Qed.

(** ** The scan of the users table *)

Lemma records_incomplete_havePasses now l :
  forallb (fun it => match speakeasy it with Some _ => true | None => false end) l = false ->
  Speakeasy.havePasses now l = None.
Proof.
  induction l as [|u l IH]; cbn [forallb Speakeasy.havePasses]; intros H; [discriminate|].
  destruct (speakeasy u); [|reflexivity].
  cbn [andb] in H. now rewrite (IH H).
Qed.

(** Recording the caller's attempt leaves no record without its
    [speakeasy] document, and fills none in. *)
Lemma records_incomplete_recorded now env t0 b s du sp :
  s TFoSlackUsers !! user_id b = Some du ->
  doc_speakeasy du = Some sp ->
  records_complete s = false ->
  Speakeasy.havePasses now (db_scan (recorded env t0 b s du sp)) = None.
Proof.
  intros Hs Hd Hrec.
  pose proof (active_passes_recorded now s (user_id b) du sp (written env t0 b sp) Hs Hd) as H.
  unfold active_passes in H. fold (recorded env t0 b s du sp) in H.
  rewrite (records_incomplete_havePasses now (db_scan s) Hrec) in H.
  destruct (Speakeasy.havePasses now (db_scan (recorded env t0 b s du sp))); [discriminate|].
  reflexivity.
Qed.

(** X22: when the scan of the users table fails, a checkout is answered with
    the error as it came, and the pass is not extended. *)
Theorem checkout_scan_failure_is_relayed env s t0 b dtok du sp pool login reply err fuel :
  command b = "checkout" ->
  reaches_dispatch env s t0 b dtok du sp pool login reply ->
  fault env DbScan = Some err ->
  let m := invoke (S (S (S (S (S (S (S fuel))))))) env s t0
             (Speakeasy.handle {| body := Some b |}) in
  relays (trace m) = [Some err]
  /\ updates (trace m) = [(user_id b, SetAttempts (written env t0 b sp))]
  /\ (expires <$> stored (store m) (user_id b)) = Some (expires sp)
  /\ finished m /\ crashed m = false.
Proof.
  intros Hc Hr Hf m. subst m.
  rewrite (reach_dispatch env s t0 b dtok du sp pool login reply) by assumption.
  unfold Speakeasy.GetDispatchHandler.
  change (Speakeasy.St.command (dispatched env t0 b dtok du pool reply)) with (command b).
  rewrite Hc. cbn [String.eqb Ascii.eqb Bool.eqb orb].
  unfold Speakeasy.CheckoutHandler.
  rewrite waterfall_cons, turn_Scan, Hf. cbv beta iota.
  rewrite exec_ConsoleError, deliver_error.
  unfold stored, recorded, put_user. cbn [store idle]. rewrite lookup_insert_eq.
  repeat split; reflexivity.
Qed.

Lemma checkout_scan_failure_is_relayed_witness :
  let s := Sample.tables {[ "U1" := Sample.member None ]} in
  let b := Sample.request "checkout" "" (Some "xoxb-canonical") in
  let m := invoke 7 Sample.scan_fails s 0 (Speakeasy.handle {| body := Some b |}) in
  relays (trace m) = [Some "InternalServerError"]
  /\ updates (trace m) = [(user_id b, SetAttempts (written Sample.scan_fails 0 b (Sample.member_doc None)))]
  /\ (expires <$> stored (store m) (user_id b)) = Some (expires (Sample.member_doc None))
  /\ finished m /\ crashed m = false.
Proof.
  apply (checkout_scan_failure_is_relayed Sample.scan_fails
           (Sample.tables {[ "U1" := Sample.member None ]}) 0
           (Sample.request "checkout" "" (Some "xoxb-canonical"))
           Sample.token_doc (Sample.member None) (Sample.member_doc None)
           [Sample.bot] Sample.bot Sample.signed "InternalServerError" 0).
  - reflexivity.
  - constructor; [constructor|..]; reflexivity.
  - reflexivity.
Defined.

(** X23: one record of the users table without a [speakeasy] document is enough
    to bring every checkout down: the count of the passes throws, the
    process dies, the user is sent nothing and the lambda does not
    return. *)
Theorem checkout_over_incomplete_records_throws env s t0 b dtok du sp pool login reply fuel :
  command b = "checkout" ->
  reaches_dispatch env s t0 b dtok du sp pool login reply ->
  fault env DbScan = None ->
  records_complete s = false ->
  let m := invoke (S (S (S (S (S (S fuel)))))) env s t0
             (Speakeasy.handle {| body := Some b |}) in
  crashed m = true
  /\ relays (trace m) = []
  /\ updates (trace m) = [(user_id b, SetAttempts (written env t0 b sp))]
  /\ (forall code body, ContextSucceed code body ∉ effects (trace m)).
Proof.
  intros Hc Hr Hf Hrec m. subst m.
  rewrite (reach_dispatch env s t0 b dtok du sp pool login reply) by assumption.
  destruct Hr as [[Hh Hf1 Hs1 Htok Hf2 Hs2 Hdoc Hen Hlim Hm Hf3 Hf4] Hs4 Hdraw Hsign].
  unfold Speakeasy.GetDispatchHandler.
  change (Speakeasy.St.command (dispatched env t0 b dtok du pool reply)) with (command b).
  rewrite Hc. cbn [String.eqb Ascii.eqb Bool.eqb orb].
  unfold Speakeasy.CheckoutHandler.
  rewrite waterfall_cons, turn_Scan, Hf. cbv beta iota. rewrite waterfall_cons.
  rewrite exec_Moment. cbn [idle clock Speakeasy.St.allUsers Speakeasy.set_allUsers].
  rewrite (records_incomplete_recorded _ env t0 b s du sp Hs2 Hdoc Hrec).
  rewrite exec_throw, loop_crashed by reflexivity.
  split; [reflexivity|]. split; [reflexivity|]. split; [reflexivity|].
  intros code body. unfold effects, prefix. cbn [trace app List.map snd].
  rewrite !elem_of_cons, elem_of_nil. intuition discriminate.
Qed.

Lemma checkout_over_incomplete_records_throws_witness :
  let s := Sample.tables {[ "U1" := Sample.member None;
                            "U2" := {| doc_value := None; doc_speakeasy := None |} ]} in
  let b := Sample.request "checkout" "" (Some "xoxb-canonical") in
  let m := invoke 6 Sample.calm s 0 (Speakeasy.handle {| body := Some b |}) in
  crashed m = true
  /\ relays (trace m) = []
  /\ updates (trace m) = [(user_id b, SetAttempts (written Sample.calm 0 b (Sample.member_doc None)))]
  /\ (forall code body, ContextSucceed code body ∉ effects (trace m)).
Proof.
  apply (checkout_over_incomplete_records_throws Sample.calm
           (Sample.tables {[ "U1" := Sample.member None;
                             "U2" := {| doc_value := None; doc_speakeasy := None |} ]}) 0
           (Sample.request "checkout" "" (Some "xoxb-canonical"))
           Sample.token_doc (Sample.member None) (Sample.member_doc None)
           [Sample.bot] Sample.bot Sample.signed 0).
  - reflexivity.
  - constructor; [constructor|..]; reflexivity.
  - reflexivity.
  - vm_compute. reflexivity.
Defined.

(** X24: when the scan of the users table fails after the five doors have
    answered, the status request is answered with the error as it came:
    the door lines that were gathered are not sent. *)
Theorem status_scan_failure_drops_the_report env s t0 b dtok du sp pool login reply err fuel :
  let headers := Some {| x_login_secret := secret reply |} in
  command b = "status" ->
  reaches_dispatch env s t0 b dtok du sp pool login reply ->
  forallb (peek_answers env headers) DOOR_CODES = true ->
  fault env DbScan = Some err ->
  let m := invoke (S (S (S (S (S (S (S (S (S (S (S (S fuel)))))))))))) env s t0
             (Speakeasy.handle {| body := Some b |}) in
  relays (trace m) = [Some err]
  /\ List.map snd (lock_calls (trace m))
     = sign_in login :: ((fun d => Peek (code d) headers) <$> DOOR_CODES)
  /\ finished m /\ crashed m = false.
Proof.
  intros headers Hc Hr Hans Hf m. subst m.
  rewrite (reach_dispatch env s t0 b dtok du sp pool login reply) by assumption.
  unfold Speakeasy.GetDispatchHandler.
  change (Speakeasy.St.command (dispatched env t0 b dtok du pool reply)) with (command b).
  rewrite Hc. cbn [String.eqb Ascii.eqb Bool.eqb orb].
  destruct (StatusHandler_joins env (dispatched env t0 b dtok du pool reply)
              (Speakeasy.deliver b) (t_dispatch env t0 b sp login)
              (recorded env t0 b s du sp) no_local (prefix env t0 b sp login) (S (S fuel)))
    as [T HT]; [exact Hans|].
  rewrite HT. clear HT.
  change (Speakeasy.St.headers (dispatched env t0 b dtok du pool reply)) with headers.
  unfold Speakeasy.on_statuses. cbv zeta.
  rewrite turn_Scan, Hf. unfold Speakeasy.report_passes.
  rewrite deliver_error.
  repeat split; reflexivity.
Qed.

Lemma status_scan_failure_drops_the_report_witness :
  let headers := Some {| x_login_secret := Some "s3cr3t" |} in
  let s := Sample.tables {[ "U1" := Sample.member None ]} in
  let b := Sample.request "status" "" (Some "xoxb-canonical") in
  let m := invoke 12 Sample.scan_fails s 0 (Speakeasy.handle {| body := Some b |}) in
  relays (trace m) = [Some "InternalServerError"]
  /\ List.map snd (lock_calls (trace m))
     = sign_in Sample.bot :: ((fun d => Peek (code d) headers) <$> DOOR_CODES)
  /\ finished m /\ crashed m = false.
Proof.
  apply (status_scan_failure_drops_the_report Sample.scan_fails
           (Sample.tables {[ "U1" := Sample.member None ]}) 0
           (Sample.request "status" "" (Some "xoxb-canonical"))
           Sample.token_doc (Sample.member None) (Sample.member_doc None)
           [Sample.bot] Sample.bot Sample.signed "InternalServerError" 0).
  - reflexivity.
  - constructor; [constructor|..]; reflexivity.
  - reflexivity.
  - reflexivity.
Defined.

(** ** Status in the earlier revision *)

Section SyncJoin.

Context (env : Env) (headers : Headers) (coll : list Door).
Context (callback : option string -> list (option string) -> Act).
Context (issued : Z).

Let n := length coll.
Let task := sync_peek_task env headers n callback issued.
Let line := sync_door_line env headers.

Hypothesis answers : forall d, d ∈ coll -> peek_answers env (Some headers) d = true.

(** One peek callback of the earlier revision. *)
Lemma exec_sync_peek_task i d t q s R c tr :
  d ∈ coll ->
  exec env (snd (task (i, d))) (waiting t q s {| results := R; completed := c; fired := false |} tr)
  = let R' := async.assign i (Some (line d)) R in
    if (S c =? n)%nat
    then exec env (callback None R')
           (waiting t q s {| results := R'; completed := S c; fired := true |} tr)
    else waiting t q s {| results := R'; completed := S c; fired := false |} tr.
Proof.
  intros Hd. pose proof (answers d Hd) as Ha.
  subst task line. unfold sync_peek_task, sync_door_line. unfold peek_answers in Ha. cbn [fst snd].
  destruct (http env (Peek (code d) (Some headers))) as [err|[body|]]; [| |discriminate];
    unfold async.collect, async.iteratorCallback, async.once,
      async.collected;
    cbn -[Nat.eqb]; fold n; destruct (S c =? n)%nat; reflexivity.
Qed.

(** The join of the peeks of the earlier revision. *)
Lemma sync_peeks_join k : forall P R c t s tr f,
  length P = S k ->
  NoDup (fst <$> P) ->
  (forall i d, (i, d) ∈ P -> coll !! i = Some d) ->
  (c + length P = n)%nat ->
  (forall i d, coll !! i = Some d -> i ∉ (fst <$> P) -> R !! i = Some (Some (line d))) ->
  (length R <= n)%nat ->
  exists T,
    loop (S k + f) env
      (waiting t (task <$> P) s {| results := R; completed := c; fired := false |} tr)
    = loop f env
        (exec env (callback None (Some ∘ line <$> coll))
           (idle T s {| results := Some ∘ line <$> coll; completed := n; fired := true |} tr)).
Proof.
  induction k as [|k IH]; intros P R c t s tr f HlenP Hnd Hin Hcount HR HlenR;
    (destruct (next (task <$> P)) as [[x q']|] eqn:E;
       [|apply next_None, fmap_nil_inv in E; subst P; discriminate]);
    destruct (next_fmap task P x q' E) as ([i d] & P' & -> & -> & HP);
    assert (HlenP' : (length P' = length P - 1)%nat)
      by (apply Permutation_length in HP; cbn [length] in HP; lia);
    assert (Hmem : (i, d) ∈ P) by (rewrite HP; left);
    assert (Hd : coll !! i = Some d) by (apply Hin, Hmem);
    assert (Hdin : d ∈ coll) by (eapply list_elem_of_lookup_2; exact Hd);
    assert (Hnd' : NoDup (i :: (fst <$> P')))
      by (change (i :: (fst <$> P')) with (fst <$> ((i, d) :: P')); now rewrite <- HP);
    apply NoDup_cons in Hnd' as [Hi Hnd'].
  - destruct P' as [|? ?]; [|cbn [length] in HlenP'; lia].
    exists (fst (task (i, d))).
    change (1 + f)%nat with (S f). rewrite (loop_waiting _ _ _ _ _ _ _ _ _ E).
    cbn [fst snd]. rewrite exec_sync_peek_task by exact Hdin. cbv zeta.
    replace (S c =? n)%nat with true by (symmetry; apply Nat.eqb_eq; lia).
    assert (HRf : async.assign i (Some (line d)) R = (Some ∘ line <$> coll)).
    { apply list_eq. intros j. rewrite list_lookup_fmap.
      destruct (decide (j = i)) as [->|Hne].
      - rewrite assign_lookup_eq, Hd. reflexivity.
      - destruct (coll !! j) as [dj|] eqn:Ej.
        + cbn. apply assign_lookup_ne; [congruence|].
          apply HR; [exact Ej|]. rewrite HP. cbn. rewrite list_elem_of_singleton. congruence.
        + cbn. apply lookup_ge_None_2. apply lookup_ge_None_1 in Ej.
          pose proof (assign_length i (Some (line d)) R n) as Hl.
          apply lookup_lt_Some in Hd. subst n. lia. }
    rewrite HRf. replace (S c) with n by lia. reflexivity.
  - destruct (IH P' (async.assign i (Some (line d)) R) (S c) (fst (task (i, d))) s tr f)
      as [T HT]; try assumption.
    + lia.
    + intros j dj Hj. apply Hin. rewrite HP. now right.
    + lia.
    + intros j dj Ej Hj.
      destruct (decide (j = i)) as [->|Hne].
      * rewrite assign_lookup_eq. congruence.
      * apply assign_lookup_ne; [congruence|]. apply HR; [exact Ej|].
        rewrite HP. cbn [fmap list_fmap fst]. rewrite elem_of_cons. tauto.
    + apply assign_length; [|exact HlenR]. apply lookup_lt_Some in Hd. exact Hd.
    + exists T. rewrite <- HT.
      change (S (S k) + f)%nat with (S (S k + f)).
      rewrite (loop_waiting _ _ _ _ _ _ _ _ _ E).
      cbn [fst snd]. rewrite exec_sync_peek_task by exact Hdin. cbv zeta.
      replace (S c =? n)%nat with false by (symmetry; apply Nat.eqb_neq; lia).
      reflexivity.
Qed.

End SyncJoin.

Lemma sync_eachOf_from_peeks env headers n callback t s l coll : forall i q tr,
  exec env
    (async.eachOf_from i coll
       (fun value index cb => SpeakeasySync.GetDoorStatus headers value (async.collect index cb))
       (async.iteratorCallback n (async.collected callback)))
    (waiting t q s l tr)
  = waiting t (q ++ (sync_peek_task env headers n callback t <$> indexed i coll))
      s l (tr ++ ((fun d => (t, Http (Peek (code d) (Some headers)))) <$> coll)).
Proof.
  induction coll as [|d coll IH]; intros i q tr.
  - cbn [async.eachOf_from exec indexed fmap list_fmap]. now rewrite !app_nil_r.
  - cbn [async.eachOf_from indexed]. rewrite !fmap_cons.
    unfold SpeakeasySync.GetDoorStatus at 1.
    rewrite exec_Seq; rewrite exec_Request_waiting; [|reflexivity].
    rewrite IH. rewrite <- !app_assoc. reflexivity.
Qed.

Lemma sync_StatusHandler_issues env headers done t s l tr :
  exec env (SpeakeasySync.StatusHandler headers done) (idle t s l tr)
  = waiting t
      (sync_peek_task env headers (length DOOR_CODES) (sync_on_statuses done) t
         <$> indexed 0 DOOR_CODES)
      s {| results := []; completed := 0; fired := false |}
      (tr ++ ((fun d => (t, Http (Peek (code d) (Some headers)))) <$> DOOR_CODES)).
Proof.
  unfold SpeakeasySync.StatusHandler, async.map.
  rewrite exec_eachOf by discriminate.
  change (fun (err : option string) (doorStatuses : list (option string)) =>
            match err with
            | Some _ => ConsoleError (done (Err "An error occurred... let Mike know."))
            | None => _
            end) with (sync_on_statuses done).
  rewrite sync_eachOf_from_peeks. reflexivity.
Qed.

(** The five peeks of the earlier revision go out together; when the last
    answer is in, the callback of [async.map] receives the door lines in
    the order of the catalog. *)
Lemma sync_StatusHandler_joins env headers done t s l tr f :
  forallb (peek_answers env (Some headers)) DOOR_CODES = true ->
  exists T,
    loop (S (S (S (S (S f))))) env
      (exec env (SpeakeasySync.StatusHandler headers done) (idle t s l tr))
    = loop f env
        (exec env
           (done (Err (sync_status_report env headers)))
           (idle T s
              {| results := Some ∘ sync_door_line env headers <$> DOOR_CODES;
                 completed := length DOOR_CODES; fired := true |}
              (tr ++ ((fun d => (t, Http (Peek (code d) (Some headers)))) <$> DOOR_CODES)))).
Proof.
  intros Hans.
  destruct (sync_peeks_join env headers DOOR_CODES (sync_on_statuses done) t) with
    (k := 4%nat) (P := indexed 0 DOOR_CODES) (R := @nil (option string)) (c := 0%nat)
    (t := t) (s := s)
    (tr := tr ++ ((fun d => (t, Http (Peek (code d) (Some headers)))) <$> DOOR_CODES))
    (f := f) as [T HT].
  - intros d Hd. rewrite forallb_forall in Hans. apply Hans.
    now apply list_elem_of_In.
  - reflexivity.
  - cbn. repeat constructor; rewrite ?elem_of_cons, ?elem_of_nil; intuition discriminate.
  - intros i d Hi. cbn in Hi.
    rewrite !elem_of_cons, elem_of_nil in Hi.
    intuition (match goal with H : (_, _) = (_, _) |- _ => injection H as -> -> end; reflexivity).
  - reflexivity.
  - intros i d Hi Hn. exfalso. apply Hn. cbn.
    do 5 (destruct i as [|i]; [rewrite !elem_of_cons; tauto|]). discriminate.
  - cbn. lia.
  - exists T. rewrite sync_StatusHandler_issues.
    etransitivity; [exact HT|].
    unfold sync_on_statuses, sync_status_report.
    change (Some ∘ sync_door_line env headers <$> DOOR_CODES)
      with (Some <$> (sync_door_line env headers <$> DOOR_CODES)).
    cbv zeta. rewrite reduce_statuses_concat. reflexivity.
Qed.

(** X25: a status request to the earlier revision peeks at the five doors in
    the order of the catalog and answers, in the body of the lambda's own
    response, with one text that carries the door lines in the order of the
    catalog, whatever the order in which the peeks were answered. The
    status is counted as a request: it is stamped before the doors are
    looked at. *)
Theorem sync_status_report_follows_catalog env s t0 b dtok du sp pool login reply fuel :
  let headers := {| x_login_secret := secret reply |} in
  sync_reaches_dispatch env s t0 b dtok du sp pool login reply ->
  first_is (JS.split " " (text b)) "status" = true ->
  forallb (peek_answers env (Some headers)) DOOR_CODES = true ->
  let m := invoke (S (S (S (S (S (S (S (S (S (S fuel)))))))))) env s t0 (SpeakeasySync.handle b) in
  effects (trace m) =
    effects (sync_prefix env t0 b login)
    ++ (Http <$> ((fun d => Peek (code d) (Some headers)) <$> DOOR_CODES))
    ++ [ ContextSucceed 200 (Some (sync_status_report env headers)) ]
  /\ store m = sync_stamped env t0 b s du sp
  /\ finished m /\ crashed m = false.
Proof.
  intros headers Hr Hv Hans m. subst m.
  rewrite (sync_reach_dispatch env s t0 b dtok du sp pool login reply) by exact Hr.
  unfold SpeakeasySync.GetDispatchHandler, SpeakeasySync.dispatch. rewrite Hv.
  unfold SpeakeasySync.handler_of. fold headers.
  destruct (sync_StatusHandler_joins env headers sync_answer (sync_t_dispatch env t0 b login)
              (sync_stamped env t0 b s du sp) no_local (sync_prefix env t0 b login) fuel)
    as [T HT]; [exact Hans|].
  rewrite HT. clear HT.
  rewrite sync_answer_error.
  repeat split; reflexivity.
Qed.

(** The outer west door times out after five seconds and the other four
    doors answer in the reverse order of the catalog. *)
Lemma sync_status_report_follows_catalog_witness :
  let headers := {| x_login_secret := Some "s3cr3t" |} in
  let s := Sample.tables {[ "U1" := Sample.doc_of Sample.newcomer ]} in
  let b := Sample.request "/speakeasy" "status" (Some "xoxb-canonical") in
  let m := invoke 10 Sample.outer_unreachable s 0 (SpeakeasySync.handle b) in
  effects (trace m) =
    effects (sync_prefix Sample.outer_unreachable 0 b Sample.bot)
    ++ (Http <$> ((fun d => Peek (code d) (Some headers)) <$> DOOR_CODES))
    ++ [ ContextSucceed 200 (Some (sync_status_report Sample.outer_unreachable headers)) ]
  /\ store m = sync_stamped Sample.outer_unreachable 0 b s (Sample.doc_of Sample.newcomer) Sample.newcomer
  /\ finished m /\ crashed m = false.
Proof.
  apply (sync_status_report_follows_catalog Sample.outer_unreachable
           (Sample.tables {[ "U1" := Sample.doc_of Sample.newcomer ]}) 0
           (Sample.request "/speakeasy" "status" (Some "xoxb-canonical"))
           Sample.token_doc (Sample.doc_of Sample.newcomer) Sample.newcomer
           [Sample.bot] Sample.bot Sample.signed 0).
  - constructor; [constructor; [constructor|..]|..]; reflexivity.
  - reflexivity.
  - reflexivity.
Defined.

(** ** What the rate limiter counts *)

Lemma record_attempt_Forall (P : Attempt -> Prop) entry previous :
  P entry ->
  Forall P (default [] previous) ->
  Forall P (Speakeasy.record_attempt entry previous).
Proof.
  intros He Hp. unfold Speakeasy.record_attempt. cbv zeta.
  destruct (5 <? length (entry :: default [] previous))%nat.
  - apply Forall_take. now constructor.
  - now constructor.
Qed.

Lemma lastMinute_uncounted now l : Forall uncounted l -> Speakeasy.lastMinute now l = [].
Proof.
  unfold Speakeasy.lastMinute. induction 1 as [|a l Ha _ IH]; [reflexivity|].
  cbn [List.filter]. unfold uncounted in Ha. rewrite Ha, andb_false_r. exact IH.
Qed.

(** X26: the attempt is recorded under the [command] field of the request, and
    the rate limiter counts the attempts of four operations only. So as
    long as the requests of a user carry another command, the command
    [/speakeasy] that the proxy forwards for one, the recorded attempts
    never count: the list that is written holds no counted attempt, and the
    user is not throttled at any later instant, however fast the requests
    come. *)
Theorem attempts_under_other_commands_never_count env t0 b du sp now :
  includes Speakeasy.rate_limited_ops (command b) = false ->
  Forall uncounted (default [] (attempts sp)) ->
  let w := written env t0 b sp in
  let du' := {| doc_value := doc_value du;
                doc_speakeasy := Some (apply_update (SetAttempts w) sp) |} in
  Forall uncounted w
  /\ Speakeasy.lastMinute now w = []
  /\ throttled now (unmarshalItem (user_id b) du') = false.
Proof.
  intros Hc Hprev w du'.
  assert (Hw : Forall uncounted w).
  { subst w. unfold written. apply record_attempt_Forall; [exact Hc | exact Hprev]. }
  split; [exact Hw|]. split; [now apply lastMinute_uncounted|].
  unfold throttled, Speakeasy.get_attempts. subst du'.
  cbn [speakeasy unmarshalItem doc_speakeasy apply_update attempts].
  destruct ((length w <? 3)%nat || _); [reflexivity|].
  now rewrite lastMinute_uncounted.
Qed.

(** Five requests forwarded by the proxy within five milliseconds, and a
    sixth. *)
Lemma attempts_under_other_commands_never_count_witness :
  let history := (fun t => {| at_ := t; op := "/speakeasy" |}) <$> [5; 4; 3; 2; 1] in
  let sp := Sample.member_doc (Some history) in
  let b := Sample.request "/speakeasy" "unlock bwo" (Some "xoxb-canonical") in
  let w := written Sample.calm 0 b sp in
  let du' := {| doc_value := None; doc_speakeasy := Some (apply_update (SetAttempts w) sp) |} in
  Forall uncounted w
  /\ Speakeasy.lastMinute 11 w = []
  /\ throttled 11 (unmarshalItem (user_id b) du') = false.
Proof.
  apply (attempts_under_other_commands_never_count Sample.calm 0
           (Sample.request "/speakeasy" "unlock bwo" (Some "xoxb-canonical"))
           (Sample.member None)
           (Sample.member_doc
              (Some ((fun t => {| at_ := t; op := "/speakeasy" |}) <$> [5; 4; 3; 2; 1]))) 11).
  - reflexivity.
  - repeat constructor.
Defined.

(** ** The earlier revision: authorization *)

(** X27: in the earlier revision too a request whose token is not the canonical
    one ends at the authorization stage: the token is read, the rejection
    is the body of the response, and nothing else happens. The request is
    not stamped. *)
Theorem sync_auth_mismatch_ends_pipeline env s t0 b dtok fuel :
  first_is (JS.split " " (text b)) "help" = false ->
  fault env (DbGet SlackSpeakeasyData "slack_auth_token") = None ->
  s SlackSpeakeasyData !! "slack_auth_token" = Some dtok ->
  Speakeasy.token_differs (doc_value dtok) (token b) = true ->
  let m := invoke (S fuel) env s t0 (SpeakeasySync.handle b) in
  effects (trace m) =
    [ DbGet SlackSpeakeasyData "slack_auth_token";
      ContextSucceed 200 (Some Speakeasy.auth_mismatch_message) ]
  /\ store m = s /\ finished m /\ crashed m = false.
Proof.
  intros Hh Hf Hs Htok m. subst m.
  unfold invoke. rewrite sync_handle_enters_pipeline by exact Hh.
  change (boot s t0) with (idle t0 s no_local []).
  rewrite and_then_eq. unfold SpeakeasySync.GetSlackAuthToken.
  rewrite turn_GetItem, Hf. unfold db_getItem. rewrite Hs. cbn [fmap option_fmap option_map].
  cbn [value unmarshalItem].
  rewrite and_then_eq. unfold SpeakeasySync.CheckSlackAuthToken. rewrite Htok.
  rewrite sync_answer_error.
  repeat split; reflexivity.
Qed.

Lemma sync_auth_mismatch_ends_pipeline_witness :
  let s := Sample.tables {[ "U1" := Sample.doc_of Sample.newcomer ]} in
  let b := Sample.request "/speakeasy" "unlock bwo" (Some "xoxb-forged") in
  let m := invoke 1 Sample.calm s 0 (SpeakeasySync.handle b) in
  effects (trace m) =
    [ DbGet SlackSpeakeasyData "slack_auth_token";
      ContextSucceed 200 (Some Speakeasy.auth_mismatch_message) ]
  /\ store m = s /\ finished m /\ crashed m = false.
Proof.
  apply (sync_auth_mismatch_ends_pipeline Sample.calm
           (Sample.tables {[ "U1" := Sample.doc_of Sample.newcomer ]}) 0
           (Sample.request "/speakeasy" "unlock bwo" (Some "xoxb-forged"))
           Sample.token_doc 0); reflexivity.
Defined.

(** ** Answers that are not JSON *)

(** X28: when the lock API answers the unlock call of a door with a body that is
    not JSON, the call has been made but [JSON.parse] throws in its
    callback: the process dies, the user is sent nothing about the door and
    the lambda does not return. *)
Theorem unlock_with_garbled_answer_throws
    env s t0 b dtok du sp pool login reply arg rest door e fuel :
  let headers := Some {| x_login_secret := secret reply |} in
  let t := t_dispatch env t0 b sp login in
  command b = "unlock" \/ command b = "open" ->
  JS.split " " (text b) = arg :: rest ->
  Speakeasy.doorKey arg = inr [Some door] ->
  reaches_dispatch env s t0 b dtok du sp pool login reply ->
  expires sp = Some e ->
  t <= e ->
  unlock_answers env headers door = false ->
  let m := invoke (S (S (S (S (S (S (S fuel))))))) env s t0
             (Speakeasy.handle {| body := Some b |}) in
  crashed m = true
  /\ unlock_calls (trace m) = [(t + 10, code door)]
  /\ relays (trace m) = []
  /\ (forall code body, ContextSucceed code body ∉ effects (trace m)).
Proof.
  intros headers t Hc Hargs Hd Hr He Hle Ho m. subst m.
  rewrite (reach_dispatch env s t0 b dtok du sp pool login reply) by assumption.
  destruct Hr as [[Hh Hf1 Hs1 Htok Hf2 Hs2 Hdoc Hen Hlim Hm Hf3 Hf4] Hs4 Hdraw Hsign].
  rewrite dispatch_unlock by exact Hc.
  pose proof (unshift_expires (new_attempt env t0 b) (unmarshalItem (user_id b) du)) as Hexp.
  cbn [speakeasy unmarshalItem] in Hexp. rewrite Hdoc in Hexp.
  destruct (speakeasy (Speakeasy.unshift (new_attempt env t0 b) (unmarshalItem (user_id b) du)))
    as [spu|] eqn:Eu; [|discriminate].
  injection Hexp as Hexp.
  rewrite (UnlockHandler_sets_timer env (dispatched env t0 b dtok du pool reply) _
             arg rest door spu e);
    [ | exact Hargs | exact Hd | exact Eu | now rewrite Hexp | apply Z.ltb_ge; exact Hle ].
  rewrite loop_one, exec_unlock_now. cbn [app].
  rewrite loop_one.
  change (Speakeasy.St.headers (dispatched env t0 b dtok du pool reply)) with headers.
  unfold unlock_answers in Ho. unfold Speakeasy.on_unlock.
  destruct (http env (Unlock (code door) headers)) as [err|[body|]]; try discriminate.
  match goal with
  | |- context [exec env (Throw ?x) (waiting ?t1 [] ?s1 ?l1 ?tr1)] =>
      change (waiting t1 [] s1 l1 tr1) with (idle t1 s1 l1 tr1)
  end.
  rewrite exec_throw, loop_crashed by reflexivity.
  split; [reflexivity|]. split; [reflexivity|]. split; [reflexivity|].
  intros code body. unfold effects, prefix. cbn [trace app List.map snd].
  rewrite !elem_of_cons, elem_of_nil. intuition discriminate.
Qed.

Lemma unlock_with_garbled_answer_throws_witness :
  let headers := Some {| x_login_secret := Some "s3cr3t" |} in
  let s := Sample.tables {[ "U1" := Sample.member None ]} in
  let b := Sample.request "unlock" "bwi" (Some "xoxb-canonical") in
  let m := invoke 7 Sample.unlock_garbled s 0 (Speakeasy.handle {| body := Some b |}) in
  crashed m = true
  /\ unlock_calls (trace m) = [(25 + 10, "3766")]
  /\ relays (trace m) = []
  /\ (forall code body, ContextSucceed code body ∉ effects (trace m)).
Proof.
  apply (unlock_with_garbled_answer_throws Sample.unlock_garbled
           (Sample.tables {[ "U1" := Sample.member None ]}) 0
           (Sample.request "unlock" "bwi" (Some "xoxb-canonical"))
           Sample.token_doc (Sample.member None) (Sample.member_doc None)
           [Sample.bot] Sample.bot Sample.signed "bwi" []
           {| key := "bwi"; name := "Brip West Inner"; code := "3766" |} 90000000 0).
  - left. reflexivity.
  - reflexivity.
  - reflexivity.
  - constructor; [constructor|..]; reflexivity.
  - reflexivity.
  - vm_compute. discriminate.
  - reflexivity.
Defined.

(** X29: one record of the users table without a [speakeasy] document brings
    every status request down as well: the five doors are asked, then the
    count of the passes throws, the process dies and the door lines are
    never sent. *)
Theorem status_over_incomplete_records_throws env s t0 b dtok du sp pool login reply fuel :
  let headers := Some {| x_login_secret := secret reply |} in
  command b = "status" ->
  reaches_dispatch env s t0 b dtok du sp pool login reply ->
  forallb (peek_answers env headers) DOOR_CODES = true ->
  fault env DbScan = None ->
  records_complete s = false ->
  let m := invoke (S (S (S (S (S (S (S (S (S (S (S fuel))))))))))) env s t0
             (Speakeasy.handle {| body := Some b |}) in
  crashed m = true
  /\ relays (trace m) = []
  /\ List.map snd (lock_calls (trace m))
     = sign_in login :: ((fun d => Peek (code d) headers) <$> DOOR_CODES)
  /\ (forall code body, ContextSucceed code body ∉ effects (trace m)).
Proof.
  intros headers Hc Hr Hans Hf Hrec m. subst m.
  rewrite (reach_dispatch env s t0 b dtok du sp pool login reply) by assumption.
  destruct Hr as [[Hh Hf1 Hs1 Htok Hf2 Hs2 Hdoc Hen Hlim Hm Hf3 Hf4] Hs4 Hdraw Hsign].
  unfold Speakeasy.GetDispatchHandler.
  change (Speakeasy.St.command (dispatched env t0 b dtok du pool reply)) with (command b).
  rewrite Hc. cbn [String.eqb Ascii.eqb Bool.eqb orb].
  destruct (StatusHandler_joins env (dispatched env t0 b dtok du pool reply)
              (Speakeasy.deliver b) (t_dispatch env t0 b sp login)
              (recorded env t0 b s du sp) no_local (prefix env t0 b sp login) (S fuel))
    as [T HT]; [exact Hans|].
  rewrite HT. clear HT.
  change (Speakeasy.St.headers (dispatched env t0 b dtok du pool reply)) with headers.
  unfold Speakeasy.on_statuses. cbv zeta.
  rewrite turn_Scan, Hf. unfold Speakeasy.report_passes.
  rewrite exec_Moment. cbn [idle clock].
  rewrite (records_incomplete_recorded _ env t0 b s du sp Hs2 Hdoc Hrec).
  rewrite exec_throw, loop_crashed by reflexivity.
  split; [reflexivity|]. split; [reflexivity|]. split; [reflexivity|].
  intros code body. unfold effects, prefix. cbn [trace app List.map snd fmap list_fmap DOOR_CODES].
  rewrite !elem_of_cons, elem_of_nil. intuition discriminate.
Qed.

Lemma status_over_incomplete_records_throws_witness :
  let headers := Some {| x_login_secret := Some "s3cr3t" |} in
  let s := Sample.tables {[ "U1" := Sample.member None;
                            "U2" := {| doc_value := None; doc_speakeasy := None |} ]} in
  let b := Sample.request "status" "" (Some "xoxb-canonical") in
  let m := invoke 11 Sample.calm s 0 (Speakeasy.handle {| body := Some b |}) in
  crashed m = true
  /\ relays (trace m) = []
  /\ List.map snd (lock_calls (trace m))
     = sign_in Sample.bot :: ((fun d => Peek (code d) headers) <$> DOOR_CODES)
  /\ (forall code body, ContextSucceed code body ∉ effects (trace m)).
Proof.
  apply (status_over_incomplete_records_throws Sample.calm
           (Sample.tables {[ "U1" := Sample.member None;
                             "U2" := {| doc_value := None; doc_speakeasy := None |} ]}) 0
           (Sample.request "status" "" (Some "xoxb-canonical"))
           Sample.token_doc (Sample.member None) (Sample.member_doc None)
           [Sample.bot] Sample.bot Sample.signed 0).
  - reflexivity.
  - constructor; [constructor|..]; reflexivity.
  - reflexivity.
  - reflexivity.
  - vm_compute. reflexivity.
Defined.

(** ** The status report, line by line *)

Lemma door_line_catalog_line env headers door :
  door_line env headers door = catalog_line env headers door.
Proof.
  unfold door_line, catalog_line, Speakeasy.warning_line, Speakeasy.status_line.
  now destruct (http env (Peek (code door) headers)) as [err|[body|]].
Qed.

(** X30: a request the dispatcher hands to the status handler (its [command]
    is [status]) peeks at the five doors in the order of the catalog, and
    whatever the order in which the peeks are answered the one message
    relayed is the heading, then one line per door in the order of the
    catalog, then the pass summary: a door whose peek fails in transport
    has its warning line, every other door the line of its own answer. *)
Theorem status_lines_in_catalog_order env s t0 b dtok du sp pool login reply fuel :
  let headers := Some {| x_login_secret := secret reply |} in
  command b = "status" ->
  reaches_dispatch env s t0 b dtok du sp pool login reply ->
  forallb (peek_answers env headers) DOOR_CODES = true ->
  fault env DbScan = None ->
  records_complete s = true ->
  let m := invoke (S (S (S (S (S (S (S (S (S (S (S (S fuel)))))))))))) env s t0
             (Speakeasy.handle {| body := Some b |}) in
  exists now passes,
    active_passes now s = Some passes
    /\ relays (trace m)
       = [Some (("I'm reading the lock statuses as follows" +:+ JS.nl
                 +:+ String.concat JS.nl (catalog_line env headers <$> DOOR_CODES) +:+ JS.nl)
                +:+ pass_summary env now passes (expires sp))]
    /\ List.map snd (lock_calls (trace m))
       = sign_in login :: ((fun d => Peek (code d) headers) <$> DOOR_CODES)
    /\ finished m /\ crashed m = false.
Proof.
  intros headers Hc Hr Hans Hf Hrec m.
  destruct (status_report_follows_catalog env s t0 b dtok du sp pool login reply fuel
              Hc Hr Hans Hf Hrec) as (now & passes & Hp & Hrelays & Hcalls & Hfin & Hcr).
  exists now, passes. fold m in Hrelays, Hcalls, Hfin, Hcr.
  split; [exact Hp|]. split; [|repeat split; assumption].
  rewrite Hrelays. unfold status_report. fold headers.
  assert (Hlines : door_line env headers <$> DOOR_CODES = catalog_line env headers <$> DOOR_CODES).
  { apply list_fmap_ext. intros i d _. apply door_line_catalog_line. }
  now rewrite Hlines.
Qed.

(** The outer west door times out after five seconds and the other four
    doors answer in the reverse order of the catalog. *)
Lemma status_lines_in_catalog_order_witness :
  let headers := Some {| x_login_secret := Some "s3cr3t" |} in
  let s := Sample.tables {[ "U1" := Sample.member None ]} in
  let b := Sample.request "status" "" (Some "xoxb-canonical") in
  let m := invoke 12 Sample.outer_unreachable s 0 (Speakeasy.handle {| body := Some b |}) in
  exists now passes,
    active_passes now s = Some passes
    /\ relays (trace m)
       = [Some (("I'm reading the lock statuses as follows" +:+ JS.nl
                 +:+ String.concat JS.nl (catalog_line Sample.outer_unreachable headers <$> DOOR_CODES)
                 +:+ JS.nl)
                +:+ pass_summary Sample.outer_unreachable now passes (Some 90000000))]
    /\ List.map snd (lock_calls (trace m))
       = sign_in Sample.bot :: ((fun d => Peek (code d) headers) <$> DOOR_CODES)
    /\ finished m /\ crashed m = false.
Proof.
  apply (status_lines_in_catalog_order Sample.outer_unreachable
           (Sample.tables {[ "U1" := Sample.member None ]}) 0
           (Sample.request "status" "" (Some "xoxb-canonical"))
           Sample.token_doc (Sample.member None) (Sample.member_doc None)
           [Sample.bot] Sample.bot Sample.signed 0).
  - reflexivity.
  - constructor; [constructor|..]; reflexivity.
  - reflexivity.
  - reflexivity.
  - reflexivity.
Defined.

(** ** A command that does not marshal *)

(** When the list to write does not marshal, as when the [command] of the
    request is the empty string, the recording stage throws before any
    update is sent: the process dies there. *)
Lemma RegisterUserAttempt_throws env st done t s l tr :
  let entry := {| at_ := t; op := Speakeasy.St.command st |} in
  Speakeasy.marshals
    (Speakeasy.record_attempt entry (Speakeasy.get_attempts (Speakeasy.St.user st))) = false ->
  exec env (Speakeasy.RegisterUserAttempt st done) (idle t s l tr) =
  {| clock := t; queue := []; store := s; local := l;
     trace := tr ++ [(t, Uncaught Speakeasy.marshal_error)]; crashed := true |}.
Proof.
  intros entry Hm. unfold Speakeasy.RegisterUserAttempt.
  rewrite exec_Moment. cbn [idle clock]. cbv zeta. fold entry. rewrite Hm.
  apply exec_throw.
Qed.

Lemma empty_command_does_not_marshal entry previous :
  op entry = "" -> Speakeasy.marshals (Speakeasy.record_attempt entry previous) = false.
Proof.
  intros Hop. unfold Speakeasy.record_attempt. cbv zeta.
  destruct (5 <? length (entry :: default [] previous))%nat;
    cbn [take Speakeasy.marshals forallb]; now rewrite Hop.
Qed.
